(** * Gmail-Cleaner-Pro: the category cleaner and the thread lister

    A shallow embedding of
      - [pkg/gmail]      (Service: ListCategoryThreads, ListTrashThreads,
                          EstimateCategoryThreads, EstimateTrashThreads,
                          BatchTrashThreads, BatchDeleteThreadsPermanently),
      - [internal/service] (IsAuthError, CleanerService.CleanCategories),
      - [internal/handler] (CleanHandler.Clean),
      - [pkg/auth]       (NewGoogleOAuth2Config, GetUserInfo,
                          ExchangeCodeWithUserInfo),
      - [cmd/server]     (the route POST /api/v1/clean of setupRouter),
      - [pkg/logger]     (InitLogger, NewLogger, L),
      - [internal/middleware] (the metrics collector: recordRequest,
                          GetMetrics; the classifiers of statuses and
                          durations),
    and the properties of the specification that concern them.

    The remote provider is a parameter: a record of three operations
    over an abstract world.  Every Go function becomes a computation
    that threads the world and writes a transcript of what it did
    (remote calls with their answers, pauses, and the one log line
    that carries the per-category count). *)

From Stdlib Require Import ZArith Lia Floats Uint63.
From stdpp Require Import base strings list gmap fin_maps pretty.

Local Open Scope Z_scope.

(** ** Data *)

(** A Go [error] is observed by this code only through [Error()]:
    it is wrapped with [fmt.Errorf("...: %w", err)] and scanned by
    [strings.Contains].  It is modelled by its text. *)
Definition error := string.

(** [gmail.Thread]: only [Id] is read. *)
Record Thread := { Id : string }.

(** [gmail.ListThreadsResponse]. *)
Record ListThreadsResponse := {
  Threads : list Thread;
  NextPageToken : string;
  ResultSizeEstimate : Z
}.

(** The outcome of a call that returns [(value, error)] with a nil
    value when the error is set. *)
Inductive outcome (A : Type) :=
| Ok (a : A)
| Err (e : error).
Arguments Ok {A} a.
Arguments Err {A} e.

(** The transcript.  [ListPage] is a [Users.Threads.List] call made by
    one of the two listing functions, [EstimateCall] is the same remote
    call made by one of the two estimate functions (always with
    [MaxResults(1)] and no page token), [ModifyCall] is
    [Users.Threads.Modify], [DeleteCall] is [Users.Threads.Delete],
    [Processed] is the log line "Successfully processed threads" of
    CleanCategories with its three fields, [Sleep] is [time.Sleep] in
    milliseconds.  The other log lines are not recorded. *)
Inductive Event :=
| ListPage (userID label : string) (maxResults : Z) (pageToken : string)
           (res : outcome ListThreadsResponse)
| EstimateCall (userID label : string) (res : outcome ListThreadsResponse)
| ModifyCall (userID threadID : string) (addLabelIds removeLabelIds : list string)
             (res : outcome Thread)
| DeleteCall (userID threadID : string) (res : option error)
| Processed (label : string) (deleted : Z) (permanent : bool)
| Sleep (ms : Z).

(** The remote provider ([*gmail.Service] of the Google client). An
    empty [pageToken] stands for a call on which [PageToken] was not
    set, as the Go code sets it only when it is not empty. *)
Record Api (World : Type) := {
  ThreadsList : string -> string -> Z -> string -> World ->
                World * outcome ListThreadsResponse;
  ThreadsModify : string -> string -> list string -> list string -> World ->
                  World * outcome Thread;
  ThreadsDelete : string -> string -> World -> World * option error
}.
Arguments ThreadsList {World} _ _ _ _ _ _.
Arguments ThreadsModify {World} _ _ _ _ _ _.
Arguments ThreadsDelete {World} _ _ _ _.

(** ** Computations: world passing with a transcript *)

Definition M (World A : Type) : Type := World -> World * list Event * A.

Definition ret {World A} (a : A) : M World A := fun w => (w, [], a).

Definition bind {World A B} (m : M World A) (k : A -> M World B) : M World B :=
  fun w =>
    let '(w1, l1, a) := m w in
    let '(w2, l2, b) := k a w1 in
    (w2, l1 ++ l2, b).

Definition emit {World} (e : Event) : M World unit := fun w => (w, [e], tt).

Declare Scope go_scope.
Delimit Scope go_scope with go.
Notation "x <- c ;; k" := (bind c (fun x => k))
  (at level 100, c at next level, right associativity) : go_scope.
Notation "c ;;; k" := (bind c (fun _ => k))
  (at level 100, right associativity) : go_scope.
Local Open Scope go_scope.

(** The three projections of a finished computation. *)
Definition world_of {World A} (x : World * list Event * A) : World := x.1.1.
Definition trace_of {World A} (x : World * list Event * A) : list Event := x.1.2.
Definition value_of {World A} (x : World * list Event * A) : A := x.2.

(** ** pkg/gmail: the Service *)

Module gmail.

Section Service.
Context {World : Type} (api : Api World).

#[local] Abbreviation M := (M World).

(** The remote calls, each leaving its event in the transcript. *)
Definition doList (userID label : string) (maxResults : Z) (pageToken : string)
  : M (outcome ListThreadsResponse) :=
  fun w =>
    let '(w', r) := ThreadsList api userID label maxResults pageToken w in
    (w', [ListPage userID label maxResults pageToken r], r).

Definition doEstimate (userID label : string) : M (outcome ListThreadsResponse) :=
  fun w =>
    let '(w', r) := ThreadsList api userID label 1 "" w in
    (w', [EstimateCall userID label r], r).

Definition doModify (userID tid : string) (add remove : list string)
  : M (outcome Thread) :=
  fun w =>
    let '(w', r) := ThreadsModify api userID tid add remove w in
    (w', [ModifyCall userID tid add remove r], r).

Definition doDelete (userID tid : string) : M (option error) :=
  fun w =>
    let '(w', r) := ThreadsDelete api userID tid w in
    (w', [DeleteCall userID tid r], r).

Definition sleep (ms : Z) : M unit := emit (Sleep ms).

(** Gmail API has a hard limit of 500 results per request. *)
Definition maxPerPage : Z := 500.

(** The text that stands for "the loop was cut by the model's bound";
    [listPages_run] shows that the two listing functions never
    produce it. *)
Definition loop_bound_hit : error := "<pagination bound of the model>".

(** The [for { ... }] loop of ListCategoryThreads and ListTrashThreads.
    The two Go bodies are the same up to the label queried and the
    text wrapped around a page error, which are the parameters [label]
    and [wrap].  The loop variables are the arguments; [fuel] bounds
    the number of iterations.  The conversions [int(remainingNeeded)]
    and [int64(pageSize)] change nothing where [int] has 64 bits.

    [totalFetched] is [len(allThreads)] throughout, a slice length, so
    neither [totalFetched += ...] nor [max - totalFetched] leaves
    int64: the first is a length, the second is [max] on the first
    iteration and lies in (0, max] on the later ones. *)
Fixpoint listPages (label : string) (wrap : Z -> error -> error) (fuel : nat)
    (userID : string) (max : Z)
    (allThreads : list Thread) (pageToken : string) (pageCount totalFetched : Z)
  : M (outcome (list Thread)) :=
  match fuel with
  | O => ret (Err loop_bound_hit)
  | S fuel' =>
      let pageCount := pageCount + 1 in
      let remainingNeeded := max - totalFetched in
      let pageSize :=
        if remainingNeeded <? maxPerPage then remainingNeeded else maxPerPage in
      res <- doList userID label pageSize pageToken ;;
      match res with
      | Err err => ret (Err (wrap pageCount err))
      | Ok res =>
          let pageThreadCount := Z.of_nat (length (Threads res)) in
          let allThreads := allThreads ++ Threads res in
          let totalFetched := totalFetched + pageThreadCount in
          let pageToken := NextPageToken res in
          if String.eqb pageToken "" || (max <=? totalFetched)
             || (pageThreadCount =? 0)
          then ret (Ok allThreads)
          else
            sleep 200 ;;;
            listPages label wrap fuel' userID max
                      allThreads pageToken pageCount totalFetched
      end
  end.

(** The number of iterations allowed: each iteration that does not
    leave the loop has fetched at least one thread and has still
    fewer than [max]. *)
Definition pagesBound (max : Z) : nat := S (Z.to_nat max).

Definition wrapCategoryPage (categoryLabel : string) (pageCount : Z) (err : error)
  : error :=
  "failed to list category threads for " +:+ categoryLabel +:+
  " (page " +:+ pretty pageCount +:+ "): " +:+ err.

Definition wrapTrashPage (pageCount : Z) (err : error) : error :=
  "failed to list trash threads (page " +:+ pretty pageCount +:+ "): " +:+ err.

Definition ListCategoryThreads (userID categoryLabel : string) (max : Z)
  : M (outcome (list Thread)) :=
  listPages categoryLabel (wrapCategoryPage categoryLabel) (pagesBound max)
            userID max [] "" 0 0.

Definition ListTrashThreads (userID : string) (max : Z)
  : M (outcome (list Thread)) :=
  listPages "TRASH" wrapTrashPage (pagesBound max) userID max [] "" 0 0.

(** EstimateCategoryThreads and EstimateTrashThreads return
    [(0, err)] or [(res.ResultSizeEstimate, nil)]. *)
Definition EstimateCategoryThreads (userID categoryLabel : string)
  : M (Z * option error) :=
  res <- doEstimate userID categoryLabel ;;
  match res with
  | Err err => ret (0, Some err)
  | Ok res => ret (ResultSizeEstimate res, None)
  end.

Definition EstimateTrashThreads (userID : string) : M (Z * option error) :=
  res <- doEstimate userID "TRASH" ;;
  match res with
  | Err err => ret (0, Some err)
  | Ok res => ret (ResultSizeEstimate res, None)
  end.

(** The [for i, tid := range threadIDs] loop of BatchTrashThreads. *)
Fixpoint trashEach (userID : string) (threadIDs : list string) : M (option error) :=
  match threadIDs with
  | [] => ret None
  | tid :: rest =>
      r <- doModify userID tid ["TRASH"] ["INBOX"] ;;
      match r with
      | Err err => ret (Some ("failed to trash thread " +:+ tid +:+ ": " +:+ err))
      | Ok _ => trashEach userID rest
      end
  end.

Definition BatchTrashThreads (userID : string) (threadIDs : list string)
  : M (option error) :=
  if (Z.of_nat (length threadIDs) =? 0) then ret None
  else trashEach userID threadIDs.

(** The [for i, tid := range threadIDs] loop of
    BatchDeleteThreadsPermanently. *)
Fixpoint deleteEach (userID : string) (threadIDs : list string) : M (option error) :=
  match threadIDs with
  | [] => ret None
  | tid :: rest =>
      err <- doDelete userID tid ;;
      match err with
      | Some err =>
          ret (Some ("failed to permanently delete thread " +:+ tid +:+ ": " +:+ err))
      | None => deleteEach userID rest
      end
  end.

Definition BatchDeleteThreadsPermanently (userID : string) (threadIDs : list string)
  : M (option error) :=
  if (Z.of_nat (length threadIDs) =? 0) then ret None
  else deleteEach userID threadIDs.

End Service.
End gmail.


(** ** internal/service *)

Module service.
Import gmail.

(** strings.Contains *)
Fixpoint Contains (s substr : string) : bool :=
  String.prefix substr s ||
  match s with
  | EmptyString => false
  | String _ s' => Contains s' substr
  end.

(** IsAuthError checks if an error is related to authentication or
    authorization. *)
Definition IsAuthError (err : option error) : bool :=
  match err with
  | None => false
  | Some errorStr =>
      Contains errorStr "ACCESS_TOKEN_SCOPE_INSUFFICIENT" ||
      Contains errorStr "insufficientPermissions" ||
      Contains errorStr "Error 401" ||
      Contains errorStr "Error 403"
  end.

(** [CleanSummary].  The [int] counts are lengths of slices held in
    memory and sums of them; they are integers here. *)
Record CleanSummary := {
  PerCategoryDeleted : gmap string Z;
  TotalDeleted : Z;
  Completed : bool;
  Reason : string
}.

Definition reasonAllProcessed : string := "all categories processed".
Definition reasonMaxReached : string :=
  "max per category reached; more emails may remain".
Definition reasonRemaining : string :=
  "remaining emails detected in one or more categories".

(** [err == nil] *)
Definition isNil (err : option error) : bool :=
  match err with None => true | Some _ => false end.

(** The variables that the loop of CleanCategories updates. *)
Record LoopVars := {
  result : gmap string Z;
  total : Z;
  completed : bool;
  reason : string
}.

Section CleanerService.
Context {World : Type} (api : Api World).

#[local] Abbreviation M := (M World).

(** One iteration of [for _, label := range categories]: [Err] is the
    [return nil, err] of the body, [Ok] carries the loop variables to
    the next iteration. *)
Definition cleanCategory (userID : string) (maxPerCat : Z) (label : string)
    (vars : LoopVars) : M (outcome LoopVars) :=
  listed <- (if String.eqb label "TRASH"
             then ListTrashThreads api userID maxPerCat
             else ListCategoryThreads api userID label maxPerCat) ;;
  match listed with
  | Err err => ret (Err err)
  | Ok threads =>
      let ids := map Id threads in
      err <- (if String.eqb label "TRASH"
              then BatchDeleteThreadsPermanently api userID ids
              else BatchTrashThreads api userID ids) ;;
      match err with
      | Some err => ret (Err err)
      | None =>
          let deleted := Z.of_nat (length ids) in
          emit (Processed label deleted (String.eqb label "TRASH")) ;;;
          let result := <[label := deleted]> (result vars) in
          let total := total vars + deleted in
          flags <-
            (if maxPerCat <=? deleted
             then ret (false, reasonMaxReached)
             else
               est <- (if String.eqb label "TRASH"
                       then EstimateTrashThreads api userID
                       else EstimateCategoryThreads api userID label) ;;
               let '(estimate, err) := est in
               if isNil err && (0 <? estimate)
               then ret (false, reasonRemaining)
               else ret (completed vars, reason vars)) ;;
          sleep 200 ;;;
          ret (Ok {| result := result; total := total;
                     completed := flags.1; reason := flags.2 |})
      end
  end.

Fixpoint cleanLoop (userID : string) (maxPerCat : Z) (categories : list string)
    (vars : LoopVars) : M (outcome CleanSummary) :=
  match categories with
  | [] =>
      ret (Ok {| PerCategoryDeleted := result vars;
                 TotalDeleted := total vars;
                 Completed := completed vars;
                 Reason := reason vars |})
  | label :: rest =>
      r <- cleanCategory userID maxPerCat label vars ;;
      match r with
      | Err err => ret (Err err)
      | Ok vars => cleanLoop userID maxPerCat rest vars
      end
  end.

(** CleanCategories identifies and removes emails in specified
    categories.  Regular categories are moved to trash, TRASH category
    emails are permanently deleted. *)
Definition CleanCategories (userID : string) (categories : list string)
    (maxPerCat : Z) : M (outcome CleanSummary) :=
  cleanLoop userID maxPerCat categories
            {| result := ∅; total := 0; completed := true;
               reason := reasonAllProcessed |}.

End CleanerService.
End service.

(** ** internal/handler *)

Module handler.

Record CleanRequest := {
  MaxPerCategory : Z;
  Categories : list string
}.

Record CleanResponse := {
  Deleted : gmap string Z;
  TotalDeleted : Z;
  Completed : bool;
  CompletionReason : string
}.

(** What [c.JSON(status, body)] writes: a [gin.H] of strings or a
    [CleanResponse]. *)
Inductive Body :=
| H (fields : gmap string string)
| Response (resp : CleanResponse).

Record Written := { status : Z; body : Body }.

Definition StatusOK : Z := 200.
Definition StatusBadRequest : Z := 400.
Definition StatusUnauthorized : Z := 401.
Definition StatusInternalServerError : Z := 500.

(** The binding tags of [CleanRequest]: [gte=0,lte=1000000] on
    MaxPerCategory, [required,min=1,dive,oneof=...] on Categories. *)
Definition categoryLabels : list string :=
  ["CATEGORY_SOCIAL"; "CATEGORY_FORUMS"; "CATEGORY_PROMOTIONS";
   "CATEGORY_UPDATES"; "TRASH"].

Definition bindingOk (req : CleanRequest) : bool :=
  (0 <=? MaxPerCategory req) && (MaxPerCategory req <=? 1000000) &&
  (1 <=? Z.of_nat (length (Categories req))) &&
  forallb (fun c => bool_decide (c ∈ categoryLabels)) (Categories req).

Section CleanHandler.
Context {World : Type} (api : Api World).

(** [bound] is what [c.ShouldBindJSON(&req)] produced: its error, or
    the request it filled in. *)
Definition Clean (bound : outcome CleanRequest) : M World Written :=
  match bound with
  | Err err =>
      ret {| status := StatusBadRequest; body := H {[ "error" := err ]} |}
  | Ok req =>
      let req :=
        if MaxPerCategory req =? 0
        then {| MaxPerCategory := 1000000; Categories := Categories req |}
        else req in
      r <- service.CleanCategories api "me" (Categories req) (MaxPerCategory req) ;;
      match r with
      | Err err =>
          if service.IsAuthError (Some err)
          then ret {| status := StatusUnauthorized;
                      body := H (<[ "error" :=
                                    "Authentication failed or insufficient permissions" ]>
                                 (<[ "suggestion" :=
                                     "Please re-authenticate with the required Gmail scopes" ]>
                                  {[ "details" := err ]})) |}
          else ret {| status := StatusInternalServerError;
                      body := H {[ "error" := err ]} |}
      | Ok summary =>
          ret {| status := StatusOK;
                 body := Response
                   {| Deleted := service.PerCategoryDeleted summary;
                      TotalDeleted := service.TotalDeleted summary;
                      Completed := service.Completed summary;
                      CompletionReason := service.Reason summary |} |}
      end
  end.

End CleanHandler.
End handler.

Import gmail service.

(** ** A scripted provider

    A world is the list of answers the provider will give, in order.
    A call of the wrong kind, or a call after the last answer, fails. *)

Inductive Reply :=
| RList (r : outcome ListThreadsResponse)
| RModify (r : outcome Thread)
| RDelete (r : option error).

Definition scripted : Api (list Reply) := {|
  ThreadsList _ _ _ _ w :=
    match w with
    | RList r :: w' => (w', r)
    | _ => (w, Err "script: no answer to Threads.List")
    end;
  ThreadsModify _ _ _ _ w :=
    match w with
    | RModify r :: w' => (w', r)
    | _ => (w, Err "script: no answer to Threads.Modify")
    end;
  ThreadsDelete _ _ w :=
    match w with
    | RDelete r :: w' => (w', r)
    | _ => (w, Some "script: no answer to Threads.Delete")
    end
|}.

Definition page (ids : list string) (next : string) (estimate : Z) : Reply :=
  RList (Ok {| Threads := map Build_Thread ids;
               NextPageToken := next;
               ResultSizeEstimate := estimate |}).

Definition modified (id : string) : Reply := RModify (Ok {| Id := id |}).
Definition gone : Reply := RDelete None.

(** ** Reading a transcript *)

(** The specification's reading of "contains the substring". *)
Definition is_substring (substr s : string) : Prop :=
  exists pre post : string, s = pre +:+ substr +:+ post.

(** The page size of the specification: [min(max - totalFetched, 500)]. *)
Definition pageSizeFor (max totalFetched : Z) : Z :=
  Z.min (max - totalFetched) 500.

Definition pageLength (res : ListThreadsResponse) : Z :=
  Z.of_nat (length (Threads res)).

(** The three reasons to leave the pagination loop after a page. *)
Definition stopAfter (max totalFetched : Z) (res : ListThreadsResponse) : Prop :=
  NextPageToken res = "" \/ max <= totalFetched + pageLength res \/
  pageLength res = 0.

(** The transcripts of a listing that starts with [totalFetched]
    threads and the page token [tok]: a failed page and nothing more,
    or a last page after which one of the three reasons holds, or a
    page after which none holds, the pause, and the transcript of the
    listing that goes on from there. *)
Inductive pagination (userID label : string) (max : Z)
  : Z -> string -> list Event -> Prop :=
| pages_failed totalFetched tok err :
    pagination userID label max totalFetched tok
      [ListPage userID label (pageSizeFor max totalFetched) tok (Err err)]
| pages_last totalFetched tok res :
    stopAfter max totalFetched res ->
    pagination userID label max totalFetched tok
      [ListPage userID label (pageSizeFor max totalFetched) tok (Ok res)]
| pages_more totalFetched tok res rest :
    ~ stopAfter max totalFetched res ->
    pagination userID label max (totalFetched + pageLength res)
               (NextPageToken res) rest ->
    pagination userID label max totalFetched tok
      (ListPage userID label (pageSizeFor max totalFetched) tok (Ok res)
       :: Sleep 200 :: rest).

(** What a listing returns, read from its transcript. *)
Fixpoint pagesResult (wrap : Z -> error -> error) (pageCount : Z)
    (allThreads : list Thread) (log : list Event) : outcome (list Thread) :=
  match log with
  | [] => Ok allThreads
  | ListPage _ _ _ _ (Err err) :: _ => Err (wrap (pageCount + 1) err)
  | ListPage _ _ _ _ (Ok res) :: rest =>
      pagesResult wrap (pageCount + 1) (allThreads ++ Threads res) rest
  | _ :: rest => pagesResult wrap pageCount allThreads rest
  end.

Definition isPage (e : Event) : bool :=
  match e with ListPage _ _ _ _ _ => true | _ => false end.

Definition pagesOf (log : list Event) : list Event := List.filter isPage log.

(** Every page request of the transcript asks for
    [min(max - totalFetched, 500)] items, [totalFetched] being the
    number of threads of the pages before it. *)
Fixpoint requestsMin (max totalFetched : Z) (log : list Event) : Prop :=
  match log with
  | [] => True
  | ListPage _ _ n _ res :: rest =>
      n = pageSizeFor max totalFetched /\
      requestsMin max
        (totalFetched + match res with Ok r => pageLength r | Err _ => 0 end) rest
  | _ :: rest => requestsMin max totalFetched rest
  end.

(** The [MaxResults] of a page request. *)
Definition requestedSize (e : Event) : Z :=
  match e with ListPage _ _ n _ _ => n | _ => 0 end.

(** An estimate is followed by the pause that ends the iteration. *)
Fixpoint estimatesFollowed (log : list Event) : Prop :=
  match log with
  | [] => True
  | EstimateCall _ _ _ :: rest =>
      (exists rest', rest = Sleep 200 :: rest') /\ estimatesFollowed rest
  | _ :: rest => estimatesFollowed rest
  end.

Definition isEstimate (e : Event) : bool :=
  match e with EstimateCall _ _ _ => true | _ => false end.

Definition estimatesOf (log : list Event) : list Event := List.filter isEstimate log.

(** A page that returns as many items as were requested. *)
Definition fullPage (e : Event) : Prop :=
  match e with
  | ListPage _ _ n _ (Ok res) => pageLength res = n
  | _ => True
  end.

(** A remote call that failed, other than an estimate. *)
Definition fatal (e : Event) : bool :=
  match e with
  | ListPage _ _ _ _ (Err _) => true
  | ModifyCall _ _ _ _ (Err _) => true
  | DeleteCall _ _ (Some _) => true
  | _ => false
  end.

(** An estimate call that failed. *)
Definition estimateFailed (e : Event) : bool :=
  match e with EstimateCall _ _ (Err _) => true | _ => false end.

(** The text of the error a remote call answered with. *)
Definition failureText (e : Event) : error :=
  match e with
  | ListPage _ _ _ _ (Err err) => err
  | EstimateCall _ _ (Err err) => err
  | ModifyCall _ _ _ _ (Err err) => err
  | DeleteCall _ _ (Some err) => err
  | _ => ""
  end.

Definition noFailure (log : list Event) : Prop :=
  Forall (fun e => fatal e = false) log.

(** The remote calls that change the mailbox, without their answers. *)
Inductive Mutation :=
| Modify (userID threadID : string) (addLabelIds removeLabelIds : list string)
| Delete (userID threadID : string).

Definition mutationOf (e : Event) : option Mutation :=
  match e with
  | ModifyCall u t a r _ => Some (Modify u t a r)
  | DeleteCall u t _ => Some (Delete u t)
  | _ => None
  end.

Definition mutations (log : list Event) : list Mutation := omap mutationOf log.

(** The threads that the pages of a transcript listed, each with the
    label it was listed under. *)
Definition listedBy (e : Event) : list (string * Thread) :=
  match e with
  | ListPage _ label _ _ (Ok res) => map (pair label) (Threads res)
  | _ => []
  end.

Definition listedThreads (log : list Event) : list (string * Thread) :=
  flat_map listedBy log.

(** What the specification asks for a listed thread: permanent
    deletion under TRASH, a move to trash (add TRASH, remove INBOX)
    under any other label. *)
Definition route (userID : string) (lt : string * Thread) : Mutation :=
  if String.eqb lt.1 "TRASH"
  then Delete userID (Id lt.2)
  else Modify userID (Id lt.2) ["TRASH"] ["INBOX"].

(** The per-category counts, in processing order. *)
Definition processedOf (e : Event) : option (string * Z) :=
  match e with Processed label n _ => Some (label, n) | _ => None end.

Definition processed (log : list Event) : list (string * Z) := omap processedOf log.

(** A category whose count reached the cap. *)
Definition capReached (maxPerCat : Z) (e : Event) : bool :=
  match e with Processed _ n _ => maxPerCat <=? n | _ => false end.

(** The estimate that CleanCategories reads after a category: the
    provider's ResultSizeEstimate, or the 0 that the estimate functions
    return with an error. *)
Definition estimateSeen (e : Event) : Z :=
  match e with
  | EstimateCall _ _ (Ok res) => ResultSizeEstimate res
  | _ => 0
  end.

(** The remaining-estimate check of a category found items left. *)
Definition remainingFound (e : Event) : bool := 0 <? estimateSeen e.

(** A category passed both checks. *)
Definition passed (maxPerCat : Z) (e : Event) : bool :=
  negb (capReached maxPerCat e) && negb (remainingFound e).

(** The reason after an event, last write wins. *)
Definition reasonAfter (maxPerCat : Z) (r : string) (e : Event) : string :=
  if capReached maxPerCat e then reasonMaxReached
  else if remainingFound e then reasonRemaining
  else r.

(** The sum of the values of a map of counts. *)
Definition sumValues (m : gmap string Z) : Z :=
  map_fold (fun _ v acc => v + acc) 0 m.

(** The events of a listing, of a batch, of an estimate. *)
Definition pageOrSleep (e : Event) : Prop :=
  match e with ListPage _ _ _ _ _ | Sleep _ => True | _ => False end.

Definition isMutation (e : Event) : Prop :=
  match e with ModifyCall _ _ _ _ _ | DeleteCall _ _ _ => True | _ => False end.

(** What a batch leaves in the transcript: one call per thread, in
    order, up to the first that fails. *)
Definition batchOutcome (expected : list Mutation) (log : list Event)
    (err : option error) : Prop :=
  Forall isMutation log /\
  match err with
  | None => noFailure log /\ mutations log = expected
  | Some e =>
      exists pre ev, log = pre ++ [ev] /\ noFailure pre /\ fatal ev = true /\
                     is_substring (failureText ev) e /\
                     mutations log `prefix_of` expected
  end.

(** What one iteration of the loop of CleanCategories leaves in the
    transcript and hands to the next: the listing failed; or the
    batch failed; or the category was processed, with its count, the
    estimate when the cap was not reached, and the pause. *)
Inductive categoryRun (userID : string) (maxPerCat : Z) (label : string)
    (vars : LoopVars) : list Event -> outcome LoopVars -> Prop :=
| category_list_failed pre ev e :
    pagination userID label maxPerCat 0 "" (pre ++ [ev]) ->
    noFailure pre -> fatal ev = true -> is_substring (failureText ev) e ->
    categoryRun userID maxPerCat label vars (pre ++ [ev]) (Err e)
| category_batch_failed pages threads muts e :
    pagination userID label maxPerCat 0 "" pages ->
    noFailure pages ->
    listedThreads pages = map (pair label) threads ->
    batchOutcome (map (route userID) (map (pair label) threads)) muts (Some e) ->
    categoryRun userID maxPerCat label vars (pages ++ muts) (Err e)
| category_done pages threads muts ests :
    pagination userID label maxPerCat 0 "" pages ->
    noFailure pages ->
    listedThreads pages = map (pair label) threads ->
    batchOutcome (map (route userID) (map (pair label) threads)) muts None ->
    (if maxPerCat <=? Z.of_nat (length threads)
     then ests = []
     else exists r, ests = [EstimateCall userID label r]) ->
    let done := Processed label (Z.of_nat (length threads)) (String.eqb label "TRASH") in
    categoryRun userID maxPerCat label vars
      (pages ++ muts ++ done :: ests ++ [Sleep 200])
      (Ok {| result := <[label := Z.of_nat (length threads)]> (result vars);
             total := total vars + Z.of_nat (length threads);
             completed := completed vars && forallb (passed maxPerCat) (done :: ests);
             reason := foldl (reasonAfter maxPerCat) (reason vars) (done :: ests) |}).

(** ** Scenarios on the scripted provider *)

(** Trash holds three threads and is requested twice with the cap 2:
    the first pass lists and deletes two and reaches the cap, the
    second lists and deletes the third and finds nothing left. *)
Definition twoTrashPasses : list Reply * list Event * outcome CleanSummary :=
  CleanCategories scripted "me" ["TRASH"; "TRASH"] 2
    [page ["a"; "b"] "next" 3; gone; gone;
     page ["c"] "" 1; gone; page [] "" 0].

(** Two promotions and one thread in trash, cap 10, nothing left
    afterwards. *)
Definition promotionsThenTrash : list Reply * list Event * outcome CleanSummary :=
  CleanCategories scripted "me" ["CATEGORY_PROMOTIONS"; "TRASH"] 10
    [page ["p1"; "p2"] "" 2; modified "p1"; modified "p2"; page [] "" 0;
     page ["t1"] "" 1; gone; page [] "" 0].

Definition promotionsThenTrashSummary : CleanSummary :=
  {| PerCategoryDeleted := <["TRASH" := 1]> {[ "CATEGORY_PROMOTIONS" := 2 ]};
     TotalDeleted := 3;
     Completed := true;
     Reason := reasonAllProcessed |}.

(** The estimate of the first of two categories fails. *)
Definition estimateDown : list Reply * list Event * outcome CleanSummary :=
  CleanCategories scripted "me" ["CATEGORY_SOCIAL"; "CATEGORY_FORUMS"] 10
    [page ["s1"] "" 1; modified "s1";
     RList (Err "googleapi: Error 503: backendError");
     page [] "" 0; page [] "" 0].

Definition estimateDownSummary : CleanSummary :=
  {| PerCategoryDeleted := <["CATEGORY_FORUMS" := 0]> {[ "CATEGORY_SOCIAL" := 1 ]};
     TotalDeleted := 1;
     Completed := true;
     Reason := reasonAllProcessed |}.

(** With the cap 2: one social thread is trashed and the estimate
    still reports four; then two promotions are trashed, which
    reaches the cap. *)
Definition remainingThenCap : list Reply * list Event * outcome CleanSummary :=
  CleanCategories scripted "me" ["CATEGORY_SOCIAL"; "CATEGORY_PROMOTIONS"] 2
    [page ["s1"] "" 1; modified "s1"; page ["s2"] "" 4;
     page ["p1"; "p2"] "more" 9; modified "p1"; modified "p2"].

Definition remainingThenCapSummary : CleanSummary :=
  {| PerCategoryDeleted := <["CATEGORY_PROMOTIONS" := 2]> {[ "CATEGORY_SOCIAL" := 1 ]};
     TotalDeleted := 3;
     Completed := false;
     Reason := reasonMaxReached |}.

(** The second of two updates cannot be trashed; trash is never
    reached. *)
Definition forbidden : error := "googleapi: Error 403: insufficientPermissions".

Definition secondTrashFails : list Reply :=
  [page ["u1"; "u2"] "" 2; modified "u1"; RModify (Err forbidden);
   page ["t1"] "" 1; gone; page [] "" 0].

Definition secondTrashFailsError : error :=
  "failed to trash thread u2: googleapi: Error 403: insufficientPermissions".

(** Three pages for a maximum of five: two threads, one thread, then
    an empty page with a token. *)
Definition threePages : list Reply :=
  [page ["a"; "b"] "t1" 7; page ["c"] "t2" 7; page [] "t3" 7].

Definition secondTrashFailsRun : list Reply * list Event * outcome CleanSummary :=
  CleanCategories scripted "me" ["CATEGORY_UPDATES"; "TRASH"] 10 secondTrashFails.

Definition refusedCall : Event :=
  ModifyCall "me" "u2" ["TRASH"] ["INBOX"] (Err forbidden).

Definition failedEstimate : Event :=
  EstimateCall "me" "CATEGORY_SOCIAL" (Err "googleapi: Error 503: backendError").

Definition fourLeft : Event :=
  EstimateCall "me" "CATEGORY_SOCIAL"
    (Ok {| Threads := [Build_Thread "s2"]; NextPageToken := "";
           ResultSizeEstimate := 4 |}).

Definition capHit : Event := Processed "CATEGORY_PROMOTIONS" 2 false.

Definition onePage : list Reply := [page ["a"; "b"; "c"] "t" 3].

Definition emptyMailbox : list Reply := [page [] "" 0; page [] "" 0].

Definition unlimitedTrash : handler.CleanRequest :=
  {| handler.MaxPerCategory := 0; handler.Categories := ["TRASH"] |}.

Definition updatesAndTrash : handler.CleanRequest :=
  {| handler.MaxPerCategory := 10;
     handler.Categories := ["CATEGORY_UPDATES"; "TRASH"] |}.

(** ** More readings of a transcript *)

(** A page that returns no more items than were requested. *)
Definition honestPage (e : Event) : Prop :=
  match e with
  | ListPage _ _ n _ (Ok res) => pageLength res <= n
  | _ => True
  end.

(** The page requests of a listing carry the token of the page before:
    [tok] on the first, then the NextPageToken of each answer; a page
    that failed is the last. *)
Fixpoint tokensChain (tok : string) (pages : list Event) : Prop :=
  match pages with
  | [] => True
  | ListPage _ _ _ t res :: rest =>
      t = tok /\
      match res with
      | Ok r => tokensChain (NextPageToken r) rest
      | Err _ => rest = []
      end
  | _ :: _ => False
  end.

(** A page request for the threads of [label] of [userID]. *)
Definition sameTarget (userID label : string) (e : Event) : Prop :=
  match e with
  | ListPage u l _ _ _ => u = userID /\ l = label
  | _ => True
  end.

Definition notPage (e : Event) : bool := negb (isPage e).

(** The threads listed by a transcript, without the labels. *)
Definition listedOnly (log : list Event) : list Thread :=
  map snd (listedThreads log).

(** The four texts that IsAuthError looks for. *)
Definition authMarkers : list string :=
  ["ACCESS_TOKEN_SCOPE_INSUFFICIENT"; "insufficientPermissions";
   "Error 401"; "Error 403"].

(** ** The environment, pkg/auth, the clean route, pkg/logger *)

(** [os.Getenv]: the value of the variable, empty when it is not set. *)
Definition Getenv (env : gmap string string) (key : string) : string :=
  default "" (env !! key).

Module auth.

Definition ScopeGmailModify : string := "https://www.googleapis.com/auth/gmail.modify".
Definition ScopeGmailFull : string := "https://mail.google.com/".
Definition GoogleUserInfoAPI : string := "https://www.googleapis.com/oauth2/v2/userinfo".

(** [oauth2.Config], with the fields NewGoogleOAuth2Config fills;
    [E] is the type of [google.Endpoint], a constant of the OAuth2
    library. *)
Record Config (E : Type) := {
  ClientID : string;
  ClientSecret : string;
  RedirectURL : string;
  Scopes : list string;
  Endpoint : E
}.
Arguments ClientID {E} _.
Arguments ClientSecret {E} _.
Arguments RedirectURL {E} _.
Arguments Scopes {E} _.
Arguments Endpoint {E} _.

(** [oauth2.Token], with the fields this program sets or reads.
    [Expiry] is the time as [Expiry.Unix()] returns it, in seconds. *)
Record Token := {
  AccessToken : string;
  TokenType : string;
  RefreshToken : string;
  Expiry : Z
}.

(** What [Unix()] returns for the zero [time.Time], the expiry of a
    token that was given none. *)
Definition zeroTimeUnix : Z := -62135596800.

Definition NewGoogleOAuth2Config {E : Type} (googleEndpoint : E)
    (env : gmap string string) : outcome (Config E) :=
  let clientID := Getenv env "GOOGLE_CLIENT_ID" in
  let clientSecret := Getenv env "GOOGLE_CLIENT_SECRET" in
  let redirectURL := Getenv env "GOOGLE_REDIRECT_URL" in
  if String.eqb clientID "" || String.eqb clientSecret "" || String.eqb redirectURL ""
  then Err "missing Google OAuth2 env vars"
  else Ok {| ClientID := clientID;
             ClientSecret := clientSecret;
             RedirectURL := redirectURL;
             Scopes := [ScopeGmailFull; "openid"; "email"; "profile"];
             Endpoint := googleEndpoint |}.

Record UserInfo := {
  ID : string;
  Email : string;
  VerifiedEmail : bool;
  Name : string;
  GivenName : string;
  FamilyName : string;
  Picture : string;
  Locale : string
}.

Module AuthResponse.
Record t := {
  AccessToken : string;
  RefreshToken : string;
  TokenType : string;
  ExpiresIn : Z;
  UserInfo : UserInfo
}.
End AuthResponse.

(** An [http.Request] without a body, and an [http.Response] whose
    body is a [B]. *)
Record Request := {
  Method : string;
  URL : string;
  Header : gmap string (list string)
}.

Record Response (B : Type) := { StatusCode : Z; Body : B }.
Arguments StatusCode {B} _.
Arguments Body {B} _.

(** What goes over the network: the exchange of a code at the token
    endpoint, and an HTTP request. *)
Inductive Remote :=
| Exchanged (code : string)
| Sent (req : Request).

(** [http.NewRequestWithContext] for a request without a body: the
    library returns the request unless it refuses to make one. *)
Definition NewRequestWithContext (refused : option error) (method url : string)
  : outcome Request :=
  match refused with
  | Some err => Err err
  | None => Ok {| Method := method; URL := url; Header := ∅ |}
  end.

Section Flow.
Context {E B : Type}.

(** The OAuth2 and HTTP libraries: [conf.Exchange], [client.Do] and
    the JSON decoder of the response body; [refused] is the refusal
    of [http.NewRequestWithContext], if any. *)
Context (Exchange : Config E -> string -> outcome Token)
        (refused : option error)
        (Do : Request -> outcome (Response B))
        (Decode : B -> outcome UserInfo).

Definition ExchangeCode (conf : Config E) (code : string) : outcome Token :=
  Exchange conf code.

(** Each function returns the network calls it made with its result. *)
Definition GetUserInfo (token : Token) : list Remote * outcome UserInfo :=
  match NewRequestWithContext refused "GET" GoogleUserInfoAPI with
  | Err err => ([], Err ("creating request: " +:+ err))
  | Ok req =>
      let req :=
        {| Method := Method req;
           URL := URL req;
           Header := <[ "Authorization" := ["Bearer " +:+ AccessToken token] ]>
                       (Header req) |} in
      match Do req with
      | Err err => ([Sent req], Err ("making request: " +:+ err))
      | Ok resp =>
          if negb (StatusCode resp =? 200)
          then ([Sent req],
                Err ("unexpected status code: " +:+ pretty (StatusCode resp)))
          else
            match Decode (Body resp) with
            | Err err => ([Sent req], Err ("decoding response: " +:+ err))
            | Ok userInfo => ([Sent req], Ok userInfo)
            end
      end
  end.

Definition ExchangeCodeWithUserInfo (conf : Config E) (code : string)
  : list Remote * outcome AuthResponse.t :=
  match Exchange conf code with
  | Err err => ([Exchanged code], Err ("exchanging code: " +:+ err))
  | Ok token =>
      let '(calls, r) := GetUserInfo token in
      match r with
      | Err err => (Exchanged code :: calls, Err ("getting user info: " +:+ err))
      | Ok userInfo =>
          (Exchanged code :: calls,
           Ok {| AuthResponse.AccessToken := AccessToken token;
                 AuthResponse.RefreshToken := RefreshToken token;
                 AuthResponse.TokenType := TokenType token;
                 AuthResponse.ExpiresIn := Expiry token;
                 AuthResponse.UserInfo := userInfo |})
      end
  end.

End Flow.

End auth.

(** The one request GetUserInfo can send for a token. *)
Definition userInfoRequest (token : auth.Token) : auth.Request :=
  {| auth.Method := "GET";
     auth.URL := "https://www.googleapis.com/oauth2/v2/userinfo";
     auth.Header := {[ "Authorization" := ["Bearer " +:+ auth.AccessToken token] ]} |}.

(** cmd/server: the route POST /api/v1/clean of setupRouter. *)
Module main.
Section Router.
Context {World E : Type} (googleEndpoint : E).

(** The Google client library: what it makes of an HTTP client
    built from a configuration and a token. *)
Context (gmailNewService : auth.Config E -> auth.Token -> outcome (Api World)).

(** [gmail.NewService] of pkg/gmail; the service holds the API. *)
Definition NewService (conf : auth.Config E) (t : auth.Token) : outcome (Api World) :=
  match gmailNewService conf t with
  | Err err => Err ("init gmail service: " +:+ err)
  | Ok api => Ok api
  end.

(** [accessToken] is [c.GetHeader("X-Access-Token")], empty when the
    header is absent; [bound] is what the binding in Clean produces. *)
Definition cleanRoute (env : gmap string string) (accessToken : string)
    (bound : outcome handler.CleanRequest) : M World handler.Written :=
  if String.eqb accessToken ""
  then ret {| handler.status := handler.StatusUnauthorized;
              handler.body := handler.H
                (<[ "error" := "missing X-Access-Token" ]>
                 (<[ "message" := "Please re-authenticate with your Gmail account" ]>
                  {[ "action" := "reauth_required" ]})) |}
  else
    match auth.NewGoogleOAuth2Config googleEndpoint env with
    | Err err =>
        ret {| handler.status := handler.StatusInternalServerError;
               handler.body := handler.H {[ "error" := err ]} |}
    | Ok conf =>
        let t := {| auth.AccessToken := accessToken;
                    auth.TokenType := "Bearer";
                    auth.RefreshToken := "";
                    auth.Expiry := auth.zeroTimeUnix |} in
        match NewService conf t with
        | Err err =>
            ret {| handler.status := handler.StatusInternalServerError;
                   handler.body := handler.H {[ "error" := err ]} |}
        | Ok gsvc => handler.Clean gsvc bound
        end
    end.

End Router.
End main.

Module logger.

(** The levels of zapcore that NewLogger chooses from. *)
Inductive zapLevel := ZapDebug | ZapInfo | ZapWarn | ZapError | ZapFatal.

Definition DebugLevel : string := "debug".
Definition InfoLevel : string := "info".
Definition WarnLevel : string := "warn".
Definition ErrorLevel : string := "error".
Definition FatalLevel : string := "fatal".

Record Config := {
  Level : string;
  Format : string;
  OutputPath : string;
  ErrorPath : string;
  MaxSize : Z;
  MaxBackups : Z;
  MaxAge : Z;
  Compress : bool
}.

(** The two encoder configurations, by the function that returns
    them. *)
Inductive encoderConfig := JSONEncoderConfig | ConsoleEncoderConfig.

(** [zap.Config] as NewLogger fills it. *)
Record zapConfig := {
  zLevel : zapLevel;
  Development : bool;
  Encoding : string;
  EncoderConfig : encoderConfig;
  OutputPaths : list string;
  ErrorOutputPaths : list string;
  SamplingInitial : Z;
  SamplingThereafter : Z
}.

(** getEnvOrDefault returns environment variable value or default *)
Definition getEnvOrDefault (env : gmap string string) (key defaultValue : string)
  : string :=
  if String.eqb (Getenv env key) "" then defaultValue else Getenv env key.

Section Logger.
(** [Logger] is [*zap.Logger]; [build] is [loggerConfig.Build] with
    the two options NewLogger gives it, [production] is
    [zap.NewProduction()], whose error L drops. *)
Context {Logger : Type} (build : zapConfig -> outcome Logger)
        (production : option Logger).

(** NewLogger creates a new logger instance with the given
    configuration; [None] is the nil configuration. *)
Definition NewLogger (config : option Config) : outcome Logger :=
  let config :=
    match config with
    | None => {| Level := InfoLevel; Format := "json"; OutputPath := "stdout";
                 ErrorPath := "stderr"; MaxSize := 0; MaxBackups := 0;
                 MaxAge := 0; Compress := false |}
    | Some config => config
    end in
  let level :=
    if String.eqb (Level config) DebugLevel then ZapDebug
    else if String.eqb (Level config) InfoLevel then ZapInfo
    else if String.eqb (Level config) WarnLevel then ZapWarn
    else if String.eqb (Level config) ErrorLevel then ZapError
    else if String.eqb (Level config) FatalLevel then ZapFatal
    else ZapInfo in
  let outputPaths := [OutputPath config] in
  let errorPaths := [ErrorPath config] in
  let encoderConfig :=
    if String.eqb (Format config) "console"
    then ConsoleEncoderConfig else JSONEncoderConfig in
  build {| zLevel := level;
           Development := false;
           Encoding := Format config;
           EncoderConfig := encoderConfig;
           OutputPaths := outputPaths;
           ErrorOutputPaths := errorPaths;
           SamplingInitial := 100;
           SamplingThereafter := 100 |}.

(** The two package variables: [log], nil at first, and whether
    [once] has run. *)
Record Globals := { log : option Logger; once : bool }.

Definition start : Globals := {| log := None; once := false |}.

(** InitLogger initializes the global logger with configuration *)
Definition InitLogger (config : option Config) (g : Globals)
  : Globals * option error :=
  if once g then (g, None)
  else
    match NewLogger config with
    | Ok l => ({| log := Some l; once := true |}, None)
    | Err err => ({| log := None; once := true |}, Some err)
    end.

(** L returns the global logger instance *)
Definition L (env : gmap string string) (g : Globals) : Globals * option Logger :=
  if once g then (g, log g)
  else
    let config :=
      {| Level := getEnvOrDefault env "LOG_LEVEL" "info";
         Format := getEnvOrDefault env "LOG_FORMAT" "json";
         OutputPath := getEnvOrDefault env "LOG_OUTPUT_PATH" "stdout";
         ErrorPath := getEnvOrDefault env "LOG_ERROR_PATH" "stderr";
         MaxSize := 0; MaxBackups := 0; MaxAge := 0; Compress := false |} in
    match NewLogger (Some config) with
    | Ok l => ({| log := Some l; once := true |}, Some l)
    | Err _ => ({| log := production; once := true |}, production)
    end.

(** A call of the package from anywhere in the program. *)
Inductive Call :=
| CallInit (config : option Config)
| CallL (env : gmap string string).

Definition call (g : Globals) (c : Call) : Globals :=
  match c with
  | CallInit config => (InitLogger config g).1
  | CallL env => (L env g).1
  end.

End Logger.
End logger.

(** ** Package middleware: the metrics collector and the classifiers *)

Module middleware.

(** Arithmetic on a Go [int64] wraps around. *)
Definition wrap64 (z : Z) : Z := (z + 2 ^ 63) mod 2 ^ 64 - 2 ^ 63.

(** The conversion [float64(n)] of an [int] or [int64]: the nearest
    binary64 number. *)
Definition float64 (z : Z) : float :=
  if z =? - 2 ^ 63 then (-0x1p63)%float
  else if z <? 0 then PrimFloat.opp (PrimFloat.of_uint63 (Uint63.of_Z (- z)))
  else PrimFloat.of_uint63 (Uint63.of_Z z).

(** A [time.Time], as the nanoseconds elapsed since the zero value of
    the type; a [time.Duration] is a number of nanoseconds. *)
Definition Time := Z.
Definition Duration := Z.
Definition Millisecond : Duration := 1000000.
Definition Second : Duration := 1000000000.

(** [Duration.Seconds]. *)
Definition Seconds (d : Duration) : float :=
  let sec := Z.quot d Second in
  let nsec := Z.rem d Second in
  PrimFloat.add (float64 sec) (PrimFloat.div (float64 nsec) 1e9%float).

Record EndpointMetrics := {
  Count : Z;
  TotalDuration : float;
  AverageDuration : float;
  MinDuration : float;
  MaxDuration : float;
  ErrorCount : Z;
  LastAccessed : Time
}.

(** [MetricsCollector].  Every method takes the lock [mu] for its whole
    body, so that the calls of concurrent requests take effect one
    after the other; the lock itself is not a field here.  The field
    that Go also calls [EndpointMetrics] is [EndpointMetricsMap]. *)
Record MetricsCollector := {
  RequestCount : gmap string Z;
  RequestDuration : gmap string (list float);
  StatusCodeCount : gmap Z Z;
  EndpointMetricsMap : gmap string EndpointMetrics;
  ActiveConnections : Z;
  TotalRequests : Z;
  TotalErrors : Z;
  AverageResponseTime : float;
  StartTime : Time
}.

(** The package variable [globalMetrics] as the program starts. *)
Definition globalMetrics (now : Time) : MetricsCollector :=
  {| RequestCount := ∅;
     RequestDuration := ∅;
     StatusCodeCount := ∅;
     EndpointMetricsMap := ∅;
     ActiveConnections := 0;
     TotalRequests := 0;
     TotalErrors := 0;
     AverageResponseTime := 0%float;
     StartTime := now |}.

(** [recordRequest].  [now] is what [time.Now()] returns; [ranged]
    is the order in which this call's [range] visits the entries of
    [RequestDuration], which Go leaves to the runtime. *)
Definition recordRequest (now : Time)
    (ranged : list (string * list float) -> list (string * list float))
    (endpoint : string) (durationMs : float) (statusCode : Z)
    (m : MetricsCollector) : MetricsCollector :=
  let totalRequests := wrap64 (TotalRequests m + 1) in
  let totalErrors :=
    if 400 <=? statusCode then wrap64 (TotalErrors m + 1) else TotalErrors m in
  let requestCount :=
    <[endpoint := wrap64 (default 0 (RequestCount m !! endpoint) + 1)]>
      (RequestCount m) in
  let appended := default [] (RequestDuration m !! endpoint) ++ [durationMs] in
  let kept :=
    if (1000 <? length appended)%nat
    then drop (length appended - 1000) appended
    else appended in
  let requestDuration := <[endpoint := kept]> (RequestDuration m) in
  let statusCodeCount :=
    <[statusCode := wrap64 (default 0 (StatusCodeCount m !! statusCode) + 1)]>
      (StatusCodeCount m) in
  let metric :=
    default {| Count := 0; TotalDuration := 0%float; AverageDuration := 0%float;
               MinDuration := durationMs; MaxDuration := durationMs;
               ErrorCount := 0; LastAccessed := 0 |}
            (EndpointMetricsMap m !! endpoint) in
  let count := wrap64 (Count metric + 1) in
  let totalDuration := PrimFloat.add (TotalDuration metric) durationMs in
  let metric' :=
    {| Count := count;
       TotalDuration := totalDuration;
       AverageDuration := PrimFloat.div totalDuration (float64 count);
       MinDuration :=
         if PrimFloat.ltb durationMs (MinDuration metric)
         then durationMs else MinDuration metric;
       MaxDuration :=
         if PrimFloat.ltb (MaxDuration metric) durationMs
         then durationMs else MaxDuration metric;
       ErrorCount :=
         if 400 <=? statusCode then wrap64 (ErrorCount metric + 1)
         else ErrorCount metric;
       LastAccessed := now |} in
  let sum :=
    foldl (fun total kv => foldl PrimFloat.add total kv.2) 0%float
          (ranged (map_to_list requestDuration)) in
  {| RequestCount := requestCount;
     RequestDuration := requestDuration;
     StatusCodeCount := statusCodeCount;
     EndpointMetricsMap := <[endpoint := metric']> (EndpointMetricsMap m);
     ActiveConnections := ActiveConnections m;
     TotalRequests := totalRequests;
     TotalErrors := totalErrors;
     AverageResponseTime := PrimFloat.div sum (float64 totalRequests);
     StartTime := StartTime m |}.

Definition incrementActiveConnections (m : MetricsCollector) : MetricsCollector :=
  {| RequestCount := RequestCount m;
     RequestDuration := RequestDuration m;
     StatusCodeCount := StatusCodeCount m;
     EndpointMetricsMap := EndpointMetricsMap m;
     ActiveConnections := wrap64 (ActiveConnections m + 1);
     TotalRequests := TotalRequests m;
     TotalErrors := TotalErrors m;
     AverageResponseTime := AverageResponseTime m;
     StartTime := StartTime m |}.

Definition decrementActiveConnections (m : MetricsCollector) : MetricsCollector :=
  {| RequestCount := RequestCount m;
     RequestDuration := RequestDuration m;
     StatusCodeCount := StatusCodeCount m;
     EndpointMetricsMap := EndpointMetricsMap m;
     ActiveConnections := wrap64 (ActiveConnections m - 1);
     TotalRequests := TotalRequests m;
     TotalErrors := TotalErrors m;
     AverageResponseTime := AverageResponseTime m;
     StartTime := StartTime m |}.

(** [GetMetrics]: the copy handed to the [/metrics] route.  The map of
    durations is made and left empty. *)
Definition GetMetrics (m : MetricsCollector) : MetricsCollector :=
  {| RequestCount := RequestCount m;
     RequestDuration := ∅;
     StatusCodeCount := StatusCodeCount m;
     EndpointMetricsMap := EndpointMetricsMap m;
     ActiveConnections := ActiveConnections m;
     TotalRequests := TotalRequests m;
     TotalErrors := TotalErrors m;
     AverageResponseTime := AverageResponseTime m;
     StartTime := StartTime m |}.

Definition getStatusCategory (statusCode : Z) : string :=
  if (200 <=? statusCode) && (statusCode <? 300) then "success"
  else if (300 <=? statusCode) && (statusCode <? 400) then "redirect"
  else if (400 <=? statusCode) && (statusCode <? 500) then "client_error"
  else if 500 <=? statusCode then "server_error"
  else "unknown".

Definition getPerformanceTier (durationMs : float) : string :=
  if PrimFloat.ltb durationMs 50%float then "excellent"
  else if PrimFloat.ltb durationMs 200%float then "good"
  else if PrimFloat.ltb durationMs 1000%float then "acceptable"
  else if PrimFloat.ltb durationMs 5000%float then "slow"
  else "very_slow".

Definition getLogLevelForStatus (statusCode : Z) : string :=
  if 500 <=? statusCode then "error"
  else if 400 <=? statusCode then "warn"
  else "info".

Definition getPerformanceCategory (duration : Duration) : string :=
  if duration <? 100 * Millisecond then "fast"
  else if duration <? 500 * Millisecond then "normal"
  else if duration <? 2 * Second then "slow"
  else "very_slow".

Record PerformanceData := {
  Category : string;
  IsSlow : bool;
  IsError : bool;
  RequestsPerSecond : float;
  ThroughputMBPerSec : float
}.

Definition analyzePerformance (duration : Duration) (statusCode responseSize : Z)
  : PerformanceData :=
  let durationSeconds := Seconds duration in
  let requestsPerSecond := PrimFloat.div 1%float durationSeconds in
  let throughputMBPerSec :=
    PrimFloat.div (PrimFloat.div (float64 responseSize) 1048576%float)
                  durationSeconds in
  {| Category := getPerformanceCategory duration;
     IsSlow := 5 * Second <? duration;
     IsError := 400 <=? statusCode;
     RequestsPerSecond := requestsPerSecond;
     ThroughputMBPerSec := throughputMBPerSec |}.

(** One call of [recordRequest], with what the runtime supplies. *)
Record Call := {
  callTime : Time;
  callOrder : list (string * list float) -> list (string * list float);
  callEndpoint : string;
  callDuration : float;
  callStatus : Z
}.

Definition record (m : MetricsCollector) (c : Call) : MetricsCollector :=
  recordRequest (callTime c) (callOrder c) (callEndpoint c) (callDuration c) (callStatus c) m.

(** The collector after the calls [cs], made in this order since the
    program started at [start]. *)
Definition recorded (start : Time) (cs : list Call) : MetricsCollector :=
  foldl record (globalMetrics start) cs.

End middleware.

(** ** Reading a sequence of recorded requests *)

Definition failed (c : middleware.Call) : bool := 400 <=? middleware.callStatus c.
Definition toEndpoint (e : string) (c : middleware.Call) : bool :=
  String.eqb (middleware.callEndpoint c) e.
Definition failedAt (e : string) (c : middleware.Call) : bool :=
  toEndpoint e c && failed c.
Definition withStatus (s : Z) (c : middleware.Call) : bool :=
  middleware.callStatus c =? s.

Definition countOf (p : middleware.Call -> bool) (cs : list middleware.Call) : Z :=
  Z.of_nat (length (List.filter p cs)).

(** A counter kept in a map has no entry until it is first counted. *)
Definition counter (n : Z) : option Z := if n =? 0 then None else Some n.

(** The last [n] elements of a list. *)
Definition lastN {A : Type} (n : nat) (l : list A) : list A :=
  drop (length l - n) l.

Definition window (ds : list float) : option (list float) :=
  match ds with [] => None | _ => Some (lastN 1000 ds) end.

Definition durationsTo (e : string) (cs : list middleware.Call) : list float :=
  map middleware.callDuration (List.filter (toEndpoint e) cs).

(** Three requests, the second of which failed. *)
Definition threeRequests : list middleware.Call :=
  [ {| middleware.callTime := 10; middleware.callOrder := id;
       middleware.callEndpoint := "POST /api/v1/clean";
       middleware.callDuration := 12.5%float; middleware.callStatus := 200 |};
    {| middleware.callTime := 20; middleware.callOrder := id;
       middleware.callEndpoint := "POST /api/v1/clean";
       middleware.callDuration := 7%float; middleware.callStatus := 401 |};
    {| middleware.callTime := 30; middleware.callOrder := reverse;
       middleware.callEndpoint := "GET /info";
       middleware.callDuration := 0.25%float; middleware.callStatus := 200 |} ].

(** ** More scenarios *)

Definition abc : list Thread := [Build_Thread "a"; Build_Thread "b"; Build_Thread "c"].

(** The second page of a listing fails. *)
Definition secondPageFails : list Reply := [page ["a"] "t1" 7; RList (Err "boom")].

(** The second of three threads cannot be changed. *)
Definition secondRefused : list Reply := [modified "x"; RModify (Err "nope")].
Definition secondKept : list Reply := [gone; RDelete (Some "nope")].

Definition oauthEnv : gmap string string :=
  <[ "GOOGLE_CLIENT_ID" := "id" ]>
  (<[ "GOOGLE_CLIENT_SECRET" := "secret" ]>
   {[ "GOOGLE_REDIRECT_URL" := "http://localhost:8080/auth/callback" ]}).

(** A client library that always hands out the scripted provider. *)
Definition scriptedService (conf : auth.Config unit) (t : auth.Token)
  : outcome (Api (list Reply)) := Ok scripted.

(** A zap that can build nothing. *)
Definition brokenBuild (c : logger.zapConfig) : outcome unit := Err "no such sink".

(** A code exchange that succeeds, and the answers of the user-info
    endpoint: bodies are the texts the decoder is given. *)
Definition grantedToken : auth.Token :=
  {| auth.AccessToken := "ya29.token";
     auth.TokenType := "Bearer";
     auth.RefreshToken := "1//refresh";
     auth.Expiry := 1793000000 |}.

Definition someUser : auth.UserInfo :=
  {| auth.ID := "42"; auth.Email := "user@example.com"; auth.VerifiedEmail := true;
     auth.Name := "A User"; auth.GivenName := "A"; auth.FamilyName := "User";
     auth.Picture := ""; auth.Locale := "en" |}.

Definition exchangeOk (conf : auth.Config unit) (code : string) : outcome auth.Token :=
  if String.eqb code "good" then Ok grantedToken else Err "oauth2: cannot fetch token".

Definition answers (status : Z) (req : auth.Request) : outcome (auth.Response string) :=
  Ok {| auth.StatusCode := status; auth.Body := "{...}" |}.

Definition decodeOk (body : string) : outcome auth.UserInfo := Ok someUser.

Definition someConfig : auth.Config unit :=
  {| auth.ClientID := "id"; auth.ClientSecret := "secret";
     auth.RedirectURL := "http://localhost:8080/auth/callback";
     auth.Scopes := ["https://mail.google.com/"; "openid"; "email"; "profile"];
     auth.Endpoint := tt |}.

(** ** The checks of a run, category by category *)

(** What the loop of CleanCategories leaves for a category it
    processed: the label and the count of its "processed" line, and
    the estimate call that comes right after that line, if one does. *)
Record Check := {
  checkLabel : string;
  checkCount : Z;
  checkEstimate : option Event
}.

Fixpoint checks (log : list Event) : list Check :=
  match log with
  | [] => []
  | Processed label n _ :: rest =>
      match rest with
      | EstimateCall u l r :: rest' =>
          {| checkLabel := label; checkCount := n;
             checkEstimate := Some (EstimateCall u l r) |} :: checks rest'
      | _ =>
          {| checkLabel := label; checkCount := n; checkEstimate := None |}
          :: checks rest
      end
  | _ :: rest => checks rest
  end.

(** The estimate is asked exactly when the count stayed below the
    cap, and then for the category's own label. *)
Definition estimateDue (userID : string) (maxPerCat : Z) (c : Check) : Prop :=
  match checkEstimate c with
  | None => maxPerCat <= checkCount c
  | Some e =>
      checkCount c < maxPerCat /\ exists r, e = EstimateCall userID (checkLabel c) r
  end.

(** The category leaves [completed] as it was: its count is below the
    cap, and its estimate did not answer with a number above zero (it
    failed, or it answered zero or less). *)
Definition leavesCompleted (maxPerCat : Z) (c : Check) : Prop :=
  checkCount c < maxPerCat /\
  match checkEstimate c with
  | Some (EstimateCall _ _ (Ok res)) => ResultSizeEstimate res <= 0
  | _ => True
  end.

(** The specification's condition on a category: its count did not
    reach the cap and its remaining-estimate check found zero
    remaining items. *)
Definition foundNothingLeft (maxPerCat : Z) (c : Check) : Prop :=
  checkCount c < maxPerCat /\
  match checkEstimate c with
  | Some (EstimateCall _ _ (Ok res)) => ResultSizeEstimate res = 0
  | _ => False
  end.

(** The estimate, where one was asked, answered without error and
    with a number that is not negative. *)
Definition estimateAnswered (c : Check) : Prop :=
  match checkEstimate c with
  | Some (EstimateCall _ _ (Ok res)) => 0 <= ResultSizeEstimate res
  | Some _ => False
  | None => True
  end.

(** ** The pages of a listing, replayed on the provider *)

(** The number of threads that the pages of a transcript returned. *)
Definition fetched (log : list Event) : Z := Z.of_nat (length (listedThreads log)).

(** Every page request of the transcript got the answer that the
    provider gives to it in the world left by the requests before it,
    [w] being the world before the first and [w'] the world after the
    last. *)
Fixpoint pagesAnsweredBy {World : Type} (api : Api World) (w : World)
    (log : list Event) (w' : World) : Prop :=
  match log with
  | [] => w' = w
  | ListPage u l n tok r :: rest =>
      r = (ThreadsList api u l n tok w).2 /\
      pagesAnsweredBy api (ThreadsList api u l n tok w).1 rest w'
  | _ :: rest => pagesAnsweredBy api w rest w'
  end.

(** The loop of a listing ends exactly when one of the three reasons
    holds: a page that was fetched is the last thing in the transcript
    when one holds for it; when none holds, the pause follows, and then
    the request for the next page, with the token of this one and the
    size that the threads fetched so far leave. *)
Definition stopsExactly (userID label : string) (max : Z) (log : list Event) : Prop :=
  forall pre u l n tok res post,
    log = pre ++ ListPage u l n tok (Ok res) :: post ->
    (stopAfter max (fetched pre) res -> post = []) /\
    (~ stopAfter max (fetched pre) res ->
     exists r post',
       post = Sleep 200
              :: ListPage userID label
                   (pageSizeFor max (fetched pre + pageLength res))
                   (NextPageToken res) r
              :: post').

(** ** Scenarios for the pagination and for the checks *)

(** The thread ids "m<first>", ..., "m<first + count - 1>". *)
Definition numbered (first count : nat) : list string :=
  map (fun i => "m" +:+ pretty (Z.of_nat i)) (seq first count).

(** A label of 1300 threads, served 500 at a time and every page but
    the last with a token. *)
Definition fullPages : list Reply :=
  [page (numbered 0 500) "p2" 1300; page (numbered 500 500) "p3" 1300;
   page (numbered 1000 200) "p4" 1300; page (numbered 1200 100) "" 1300].

(** Two pages, the second without a token. *)
Definition twoPages : list Reply := [page ["a"; "b"] "t1" 3; page ["c"] "" 3].

Definition emptyThird : ListThreadsResponse :=
  {| Threads := []; NextPageToken := "t3"; ResultSizeEstimate := 7 |}.

Definition promotionsAndTrash : handler.CleanRequest :=
  {| handler.MaxPerCategory := 10;
     handler.Categories := ["CATEGORY_PROMOTIONS"; "TRASH"] |}.

Definition promotionsThenTrashScript : list Reply :=
  [page ["p1"; "p2"] "" 2; modified "p1"; modified "p2"; page [] "" 0;
   page ["t1"] "" 1; gone; page [] "" 0].

Definition nothingLeft (label : string) : Event :=
  EstimateCall "me" label
    (Ok {| Threads := []; NextPageToken := ""; ResultSizeEstimate := 0 |}).

(** ** The computations *)

Section Runs.
Context {World : Type}.

Lemma bind_run {A B} (m : M World A) (k : A -> M World B) w :
  bind m k w =
  (world_of (k (value_of (m w)) (world_of (m w))),
   trace_of (m w) ++ trace_of (k (value_of (m w)) (world_of (m w))),
   value_of (k (value_of (m w)) (world_of (m w)))).
Proof.
  unfold bind, world_of, trace_of, value_of.
  destruct (m w) as [[w1 l1] a]; simpl.
  destruct (k a w1) as [[w2 l2] b]; reflexivity.
Qed.

Lemma bind_world {A B} (m : M World A) (k : A -> M World B) w :
  world_of (bind m k w) = world_of (k (value_of (m w)) (world_of (m w))).
Proof. rewrite bind_run. reflexivity. Qed.

Lemma bind_trace {A B} (m : M World A) (k : A -> M World B) w :
  trace_of (bind m k w) =
  trace_of (m w) ++ trace_of (k (value_of (m w)) (world_of (m w))).
Proof. rewrite bind_run. reflexivity. Qed.

Lemma bind_value {A B} (m : M World A) (k : A -> M World B) w :
  value_of (bind m k w) = value_of (k (value_of (m w)) (world_of (m w))).
Proof. rewrite bind_run. reflexivity. Qed.

End Runs.

Section Listing.
Context {World : Type} (api : Api World).

Lemma doList_trace userID label n tok w :
  trace_of (doList api userID label n tok w) =
  [ListPage userID label n tok (value_of (doList api userID label n tok w))].
Proof.
  unfold doList, trace_of, value_of.
  destruct (ThreadsList _ _ _ _ _ _) as [w' r]. reflexivity.
Qed.

Lemma pageSize_min max totalFetched :
  (if max - totalFetched <? maxPerPage then max - totalFetched else maxPerPage)
  = pageSizeFor max totalFetched.
Proof.
  unfold pageSizeFor, maxPerPage.
  destruct (Z.ltb_spec (max - totalFetched) 500); lia.
Qed.

Lemma stop_test max totalFetched res :
  String.eqb (NextPageToken res) "" || (max <=? totalFetched + pageLength res)
  || (pageLength res =? 0) = true <-> stopAfter max totalFetched res.
Proof.
  unfold stopAfter.
  rewrite !orb_true_iff, String.eqb_eq, Z.leb_le, Z.eqb_eq. tauto.
Qed.

Lemma listPages_run label wrap fuel userID max allThreads tok pageCount total w :
  (Z.to_nat (max - total) < fuel)%nat ->
  pagination userID label max total tok
    (trace_of (listPages api label wrap fuel userID max allThreads tok pageCount total w))
  /\ value_of (listPages api label wrap fuel userID max allThreads tok pageCount total w)
     = pagesResult wrap pageCount allThreads
         (trace_of (listPages api label wrap fuel userID max allThreads tok pageCount total w)).
Proof.
  revert allThreads tok pageCount total w.
  induction fuel as [|fuel IH]; intros allThreads tok pageCount total w Hfuel; [lia|].
  cbn [listPages]. rewrite pageSize_min.
  rewrite bind_trace, bind_value, doList_trace.
  destruct (value_of (doList _ _ _ _ _ _)) as [res|err] eqn:Hres.
  - fold (pageLength res).
    destruct (String.eqb (NextPageToken res) "" || (max <=? total + pageLength res)
              || (pageLength res =? 0)) eqn:Hstop.
    + apply stop_test in Hstop. split; [|reflexivity].
      now apply pages_last.
    + assert (Hgo : ~ stopAfter max total res).
      { rewrite <- stop_test, Hstop. discriminate. }
      rewrite bind_trace, bind_value. cbn [sleep emit trace_of value_of world_of fst snd app pagesResult].
      specialize (IH (allThreads ++ Threads res) (NextPageToken res) (pageCount + 1)
                     (total + pageLength res)
                     (world_of (doList api userID label (pageSizeFor max total) tok w))).
      destruct IH as [IHp IHv].
      { unfold stopAfter in Hgo. unfold pageLength in *. lia. }
      split; [now apply pages_more | exact IHv].
  - split; [apply pages_failed | reflexivity].
Qed.

End Listing.

Section Segments.

Lemma snoc_split {A} (pre pre' post' : list A) (x y : A) :
  pre ++ [x] = pre' ++ y :: post' ->
  (post' = [] /\ pre = pre' /\ x = y) \/ y ∈ pre.
Proof.
  revert pre'. induction pre as [|a pre IH]; intros pre' H.
  - destruct pre' as [|b pre']; simpl in H.
    + injection H as -> <-. now left.
    + injection H as _ H. destruct pre'; discriminate.
  - destruct pre' as [|b pre']; simpl in H.
    + injection H as -> _. right. left.
    + injection H as -> H. destruct (IH _ H) as [(-> & -> & ->)|Hin].
      * now left.
      * right. now right.
Qed.

Lemma quiet_mutations log :
  Forall (fun e => mutationOf e = None) log -> mutations log = [].
Proof.
  unfold mutations. induction 1 as [|e l He _ IH]; simpl; [done|].
  now rewrite He.
Qed.

Lemma quiet_processed log :
  Forall (fun e => processedOf e = None) log -> processed log = [].
Proof.
  unfold processed. induction 1 as [|e l He _ IH]; simpl; [done|].
  now rewrite He.
Qed.

Lemma quiet_listed log :
  Forall (fun e => listedBy e = []) log -> listedThreads log = [].
Proof.
  unfold listedThreads. induction 1 as [|e l He _ IH]; simpl; [done|].
  now rewrite He, IH.
Qed.

Lemma quiet_passed maxPerCat log :
  Forall (fun e => passed maxPerCat e = true) log ->
  forallb (passed maxPerCat) log = true.
Proof. induction 1 as [|e l He _ IH]; simpl; [done|]. now rewrite He. Qed.

Lemma quiet_reason maxPerCat r log :
  Forall (fun e => passed maxPerCat e = true) log ->
  foldl (reasonAfter maxPerCat) r log = r.
Proof.
  induction 1 as [|e l He _ IH]; simpl; [done|].
  unfold reasonAfter at 2. unfold passed in He.
  apply andb_true_iff in He as [H1 H2].
  apply negb_true_iff in H1, H2. now rewrite H1, H2.
Qed.

Lemma pageOrSleep_quiet maxPerCat log :
  Forall pageOrSleep log ->
  mutations log = [] /\ processed log = [] /\
  forallb (passed maxPerCat) log = true /\
  (forall r, foldl (reasonAfter maxPerCat) r log = r) /\
  Forall (fun e => estimateFailed e = false) log.
Proof.
  intros H.
  assert (Hp : Forall (fun e => passed maxPerCat e = true) log).
  { eapply Forall_impl; [exact H|]. now intros []. }
  repeat split.
  - apply quiet_mutations. eapply Forall_impl; [exact H|]. now intros [].
  - apply quiet_processed. eapply Forall_impl; [exact H|]. now intros [].
  - now apply quiet_passed.
  - intros r. now apply quiet_reason.
  - eapply Forall_impl; [exact H|]. now intros [].
Qed.

Lemma isMutation_quiet maxPerCat log :
  Forall isMutation log ->
  listedThreads log = [] /\ processed log = [] /\
  forallb (passed maxPerCat) log = true /\
  (forall r, foldl (reasonAfter maxPerCat) r log = r) /\
  Forall (fun e => estimateFailed e = false) log /\
  pagesOf log = [].
Proof.
  intros H.
  assert (Hp : Forall (fun e => passed maxPerCat e = true) log).
  { eapply Forall_impl; [exact H|]. now intros []. }
  repeat split.
  - apply quiet_listed. eapply Forall_impl; [exact H|]. now intros [].
  - apply quiet_processed. eapply Forall_impl; [exact H|]. now intros [].
  - now apply quiet_passed.
  - intros r. now apply quiet_reason.
  - eapply Forall_impl; [exact H|]. now intros [].
  - clear Hp. unfold pagesOf. induction H as [|e l He _ IH]; simpl; [done|].
    destruct e; simpl in *; first [contradiction | exact IH].
Qed.

End Segments.

Section PaginationFacts.
Context (userID label : string) (max : Z).

Lemma pagination_events total tok log :
  pagination userID label max total tok log -> Forall pageOrSleep log.
Proof.
  induction 1; repeat constructor; assumption.
Qed.

Lemma pagination_requests total tok log :
  pagination userID label max total tok log -> requestsMin max total log.
Proof.
  induction 1; simpl; auto.
Qed.

Lemma pagination_sizes total tok log :
  pagination userID label max total tok log ->
  total < max ->
  Forall (fun e => 1 <= requestedSize e <= 500) (pagesOf log).
Proof.
  induction 1 as [total tok err|total tok res Hstop|total tok res rest Hgo _ IH];
    intros Hlt.
  - constructor; [|constructor]. simpl. unfold pageSizeFor. lia.
  - constructor; [|constructor]. simpl. unfold pageSizeFor. lia.
  - unfold pagesOf in *. cbn [List.filter isPage].
    constructor; [simpl; unfold pageSizeFor; lia|].
    apply IH. unfold stopAfter in Hgo. lia.
Qed.

Lemma pagination_count total tok log :
  pagination userID label max total tok log ->
  total < max ->
  Forall fullPage log ->
  Z.of_nat (length (pagesOf log)) <= (max - total + 499) / 500.
Proof.
  induction 1 as [total tok err|total tok res Hstop|total tok res rest Hgo _ IH];
    intros Hlt Hfull.
  - simpl. apply Z.div_le_lower_bound; lia.
  - simpl. apply Z.div_le_lower_bound; lia.
  - apply Forall_cons in Hfull as [Hpage Hfull].
    apply Forall_cons in Hfull as [_ Hfull].
    cbn [fullPage] in Hpage. unfold pageSizeFor in Hpage. unfold stopAfter in Hgo.
    assert (Hrest : total + pageLength res < max) by (clear IH Hpage; lia).
    assert (Hlen : pageLength res = 500) by (clear IH Hgo; lia).
    specialize (IH Hrest Hfull).
    unfold pagesOf in *. cbn [List.filter isPage length].
    replace (max - total + 499) with (max - (total + pageLength res) + 499 + 1 * 500)
      by lia.
    rewrite Z.div_add by lia. lia.
Qed.

Lemma pagination_result total tok log :
  pagination userID label max total tok log ->
  forall wrap pageCount allThreads,
    match pagesResult wrap pageCount allThreads log with
    | Ok threads =>
        exists new, threads = allThreads ++ new /\
                    listedThreads log = map (pair label) new /\
                    noFailure log
    | Err e =>
        exists pre ev k, log = pre ++ [ev] /\ noFailure pre /\
                         isPage ev = true /\ fatal ev = true /\
                         e = wrap k (failureText ev)
    end.
Proof.
  induction 1 as [total tok err|total tok res Hstop|total tok res rest Hgo _ IH];
    intros wrap pageCount allThreads.
  - simpl. exists [], (ListPage userID label (pageSizeFor max total) tok (Err err)),
      (pageCount + 1).
    repeat split. constructor.
  - simpl. exists (Threads res). repeat split.
    + unfold listedThreads. simpl. now rewrite app_nil_r.
    + repeat constructor.
  - cbn [pagesResult].
    specialize (IH wrap (pageCount + 1) (allThreads ++ Threads res)).
    destruct (pagesResult _ _ _ rest) as [threads|e].
    + destruct IH as (new & -> & Hl & Hn).
      exists (Threads res ++ new). repeat split.
      * now rewrite app_assoc.
      * unfold listedThreads in *. simpl. now rewrite Hl, map_app.
      * repeat constructor. exact Hn.
    + destruct IH as (pre & ev & k & -> & Hn & Hp & Hf & ->).
      exists (ListPage userID label (pageSizeFor max total) tok (Ok res)
              :: Sleep 200 :: pre), ev, k.
      repeat split; try assumption. repeat constructor. exact Hn.
Qed.

End PaginationFacts.

Section Substrings.

Lemma string_app_assoc (a b c : string) : (a +:+ b) +:+ c = a +:+ (b +:+ c).
Proof.
  induction a as [|x a IH]; [reflexivity|].
  change (String x ((a +:+ b) +:+ c) = String x (a +:+ (b +:+ c))).
  now rewrite IH.
Qed.

Lemma string_app_nil_r (a : string) : a +:+ "" = a.
Proof.
  induction a as [|x a IH]; [reflexivity|].
  change (String x (a +:+ "") = String x a). now rewrite IH.
Qed.

Lemma is_substring_refl s : is_substring s s.
Proof.
  exists "", "". change (s = s +:+ ""). now rewrite string_app_nil_r.
Qed.

Lemma is_substring_app_l s t p : is_substring s t -> is_substring s (p +:+ t).
Proof.
  intros (pre & post & ->). exists (p +:+ pre), post.
  now rewrite string_app_assoc.
Qed.

Lemma wrapCategoryPage_text label k err :
  is_substring err (wrapCategoryPage label k err).
Proof.
  unfold wrapCategoryPage. repeat apply is_substring_app_l. apply is_substring_refl.
Qed.

Lemma wrapTrashPage_text k err : is_substring err (wrapTrashPage k err).
Proof.
  unfold wrapTrashPage. repeat apply is_substring_app_l. apply is_substring_refl.
Qed.

End Substrings.

Section ServiceRuns.
Context {World : Type} (api : Api World).

(** The fuel of the two listing functions is enough: their transcript
    is a pagination and their value is read from it. *)
Lemma listing_run userID label max w
    (run := (if String.eqb label "TRASH"
             then ListTrashThreads api userID max
             else ListCategoryThreads api userID label max) w) :
  pagination userID label max 0 "" (trace_of run) /\
  exists wrap, (forall k err, is_substring err (wrap k err)) /\
               value_of run = pagesResult wrap 0 [] (trace_of run).
Proof.
  subst run. destruct (String.eqb_spec label "TRASH") as [->|_].
  - unfold ListTrashThreads.
    destruct (listPages_run api "TRASH" wrapTrashPage (pagesBound max) userID max
                [] "" 0 0 w) as [Hp Hv].
    { unfold pagesBound. rewrite Z.sub_0_r. lia. }
    split; [exact Hp|]. exists wrapTrashPage. split; [apply wrapTrashPage_text|exact Hv].
  - unfold ListCategoryThreads.
    destruct (listPages_run api label (wrapCategoryPage label) (pagesBound max)
                userID max [] "" 0 0 w) as [Hp Hv].
    { unfold pagesBound. rewrite Z.sub_0_r. lia. }
    split; [exact Hp|]. exists (wrapCategoryPage label).
    split; [apply wrapCategoryPage_text|exact Hv].
Qed.

Lemma doModify_trace userID tid add remove w :
  trace_of (doModify api userID tid add remove w) =
  [ModifyCall userID tid add remove (value_of (doModify api userID tid add remove w))].
Proof.
  unfold doModify, trace_of, value_of.
  destruct (ThreadsModify _ _ _ _ _ _) as [w' r]. reflexivity.
Qed.

Lemma doDelete_trace userID tid w :
  trace_of (doDelete api userID tid w) =
  [DeleteCall userID tid (value_of (doDelete api userID tid w))].
Proof.
  unfold doDelete, trace_of, value_of.
  destruct (ThreadsDelete _ _ _ _) as [w' r]. reflexivity.
Qed.

Lemma doEstimate_trace userID label w :
  trace_of (doEstimate api userID label w) =
  [EstimateCall userID label (value_of (doEstimate api userID label w))].
Proof.
  unfold doEstimate, trace_of, value_of.
  destruct (ThreadsList _ _ _ _ _ _) as [w' r]. reflexivity.
Qed.

Lemma BatchTrashThreads_each userID ids w :
  BatchTrashThreads api userID ids w = trashEach api userID ids w.
Proof. unfold BatchTrashThreads. now destruct ids. Qed.

Lemma BatchDeleteThreadsPermanently_each userID ids w :
  BatchDeleteThreadsPermanently api userID ids w = deleteEach api userID ids w.
Proof. unfold BatchDeleteThreadsPermanently. now destruct ids. Qed.

Lemma batchOutcome_cons m ev expected log err :
  isMutation ev -> fatal ev = false -> mutationOf ev = Some m ->
  batchOutcome expected log err ->
  batchOutcome (m :: expected) (ev :: log) err.
Proof.
  intros Hm Hf Hmu [Hall H]. split; [now constructor|].
  destruct err as [e|].
  - destruct H as (pre & ev' & -> & Hn & Hf' & Hs & Hp).
    exists (ev :: pre), ev'. repeat split; try assumption.
    + now constructor.
    + unfold mutations in *. cbn [omap list_omap]. rewrite Hmu.
      now apply prefix_cons.
  - destruct H as [Hn He]. split; [now constructor|].
    unfold mutations in *. cbn [omap list_omap]. now rewrite Hmu, He.
Qed.

Lemma trashEach_run userID ids w :
  batchOutcome (map (fun tid => Modify userID tid ["TRASH"] ["INBOX"]) ids)
    (trace_of (trashEach api userID ids w)) (value_of (trashEach api userID ids w)).
Proof.
  revert w. induction ids as [|tid ids IH]; intros w.
  - simpl. split; [constructor|]. split; [constructor|reflexivity].
  - cbn [trashEach]. rewrite bind_trace, bind_value, doModify_trace.
    destruct (value_of (doModify _ _ _ _ _ _)) as [t|err] eqn:Hr.
    + cbn [map app]. eapply batchOutcome_cons; [exact I|reflexivity|reflexivity|apply IH].
    + cbn [ret trace_of value_of fst snd app]. split; [repeat constructor|].
      exists [], (ModifyCall userID tid ["TRASH"] ["INBOX"] (Err err)).
      repeat split; [constructor| |].
      * cbn [failureText]. repeat apply is_substring_app_l. apply is_substring_refl.
      * cbn. apply prefix_cons, prefix_nil.
Qed.

Lemma deleteEach_run userID ids w :
  batchOutcome (map (Delete userID) ids)
    (trace_of (deleteEach api userID ids w)) (value_of (deleteEach api userID ids w)).
Proof.
  revert w. induction ids as [|tid ids IH]; intros w.
  - simpl. split; [constructor|]. split; [constructor|reflexivity].
  - cbn [deleteEach]. rewrite bind_trace, bind_value, doDelete_trace.
    destruct (value_of (doDelete _ _ _ _)) as [err|] eqn:Hr.
    + cbn [ret trace_of value_of fst snd app]. split; [repeat constructor|].
      exists [], (DeleteCall userID tid (Some err)).
      repeat split; [constructor| |].
      * cbn [failureText]. repeat apply is_substring_app_l. apply is_substring_refl.
      * cbn. apply prefix_cons, prefix_nil.
    + cbn [map app]. eapply batchOutcome_cons; [exact I|reflexivity|reflexivity|apply IH].
Qed.

Lemma route_listed userID label threads :
  map (route userID) (map (pair label) threads) =
  if String.eqb label "TRASH"
  then map (Delete userID) (map Id threads)
  else map (fun tid => Modify userID tid ["TRASH"] ["INBOX"]) (map Id threads).
Proof.
  rewrite !map_map. unfold route. cbn [fst snd].
  now destruct (String.eqb label "TRASH").
Qed.

(** The batch that CleanCategories runs for a label. *)
Lemma batch_run userID label threads w
    (run := (if String.eqb label "TRASH"
             then BatchDeleteThreadsPermanently api userID (map Id threads)
             else BatchTrashThreads api userID (map Id threads)) w) :
  batchOutcome (map (route userID) (map (pair label) threads))
               (trace_of run) (value_of run).
Proof.
  subst run. rewrite route_listed.
  destruct (String.eqb label "TRASH").
  - rewrite BatchDeleteThreadsPermanently_each. apply deleteEach_run.
  - rewrite BatchTrashThreads_each. apply trashEach_run.
Qed.

(** The estimate that CleanCategories runs for a label. *)
Lemma estimate_run userID label w
    (run := (if String.eqb label "TRASH"
             then EstimateTrashThreads api userID
             else EstimateCategoryThreads api userID label) w) :
  exists r, trace_of run = [EstimateCall userID label r] /\
            (value_of run).1 = estimateSeen (EstimateCall userID label r) /\
            isNil (value_of run).2 = negb (estimateFailed (EstimateCall userID label r)).
Proof.
  subst run. destruct (String.eqb_spec label "TRASH") as [->|_].
  - unfold EstimateTrashThreads. rewrite bind_trace, bind_value, doEstimate_trace.
    destruct (value_of (doEstimate _ _ _ _)) as [res|err];
      eexists; split; try reflexivity; split; reflexivity.
  - unfold EstimateCategoryThreads. rewrite bind_trace, bind_value, doEstimate_trace.
    destruct (value_of (doEstimate _ _ _ _)) as [res|err];
      eexists; split; try reflexivity; split; reflexivity.
Qed.

End ServiceRuns.

Section CleanerRuns.
Context {World : Type} (api : Api World).

Lemma estimate_check (userID label : string) r estimate err :
  estimate = estimateSeen (EstimateCall userID label r) ->
  isNil err = negb (estimateFailed (EstimateCall userID label r)) ->
  isNil err && (0 <? estimate) = remainingFound (EstimateCall userID label r).
Proof.
  intros -> ->. unfold remainingFound. now destruct r.
Qed.

Lemma cleanCategory_run userID maxPerCat label vars w :
  categoryRun userID maxPerCat label vars
    (trace_of (cleanCategory api userID maxPerCat label vars w))
    (value_of (cleanCategory api userID maxPerCat label vars w)).
Proof.
  unfold cleanCategory. rewrite bind_trace, bind_value.
  destruct (listing_run api userID label maxPerCat w) as (Hp & wrap & Hw & Hv).
  pose proof (pagination_result _ _ _ _ _ _ Hp wrap 0 []) as Hr.
  rewrite <- Hv in Hr. clear Hv.
  match goal with |- context [value_of (?m w)] => set (L := m w) in * end.
  destruct (value_of L) as [threads|e].
  - destruct Hr as (new & -> & Hl & Hn). cbn [app].
    rewrite bind_trace, bind_value.
    pose proof (batch_run api userID label new (world_of L)) as Hb.
    cbv zeta in Hb.
    match goal with |- context [value_of (?m (world_of L))] =>
      set (B := m (world_of L)) in * end.
    destruct (value_of B) as [e|].
    + cbn [ret trace_of value_of fst snd]. rewrite app_nil_r.
      eapply category_batch_failed; eassumption.
    + rewrite !bind_trace, !bind_value. cbn [emit trace_of value_of world_of fst snd].
      rewrite length_map.
      destruct (maxPerCat <=? Z.of_nat (length new)) eqn:Hcap.
      * cbn [ret sleep emit trace_of value_of world_of fst snd app].
        pose proof (category_done userID maxPerCat label vars (trace_of L) new
                      (trace_of B) [] Hp Hn Hl Hb) as Hd.
        rewrite Hcap in Hd. specialize (Hd eq_refl).
        cbn [forallb foldl app] in Hd. unfold passed, reasonAfter in Hd.
        cbn [capReached] in Hd. rewrite Hcap in Hd.
        cbn [negb andb] in Hd. rewrite andb_false_r in Hd. exact Hd.
      * rewrite !bind_trace, !bind_value.
        destruct (estimate_run api userID label (world_of B)) as (r & Ht & He & Hnil).
        match goal with |- context [value_of (?m (world_of B))] =>
          set (E := m (world_of B)) in * end.
        rewrite Ht. destruct (value_of E) as [estimate err]. cbn [fst snd] in He, Hnil.
        rewrite (estimate_check userID label r estimate err He Hnil).
        pose proof (category_done userID maxPerCat label vars (trace_of L) new
                      (trace_of B) [EstimateCall userID label r] Hp Hn Hl Hb) as Hd.
        rewrite Hcap in Hd. specialize (Hd (ex_intro _ r eq_refl)).
        cbn [forallb foldl app] in Hd. unfold passed, reasonAfter in Hd.
        cbn [capReached remainingFound estimateSeen] in Hd. rewrite Hcap in Hd.
        cbn [negb andb Z.ltb Z.compare] in Hd. rewrite andb_true_r in Hd.
        fold (estimateSeen (EstimateCall userID label r)) in Hd.
        fold (remainingFound (EstimateCall userID label r)) in Hd.
        destruct (remainingFound (EstimateCall userID label r)).
        -- cbn [ret sleep emit trace_of value_of world_of fst snd app negb] in *.
           rewrite andb_false_r in Hd. exact Hd.
        -- cbn [ret sleep emit trace_of value_of world_of fst snd app negb] in *.
           rewrite andb_true_r in Hd. exact Hd.
  - destruct Hr as (pre & ev & k & Hlog & Hn & _ & Hf & ->).
    cbn [ret trace_of value_of fst snd]. rewrite app_nil_r.
    rewrite Hlog in *. apply category_list_failed; auto.
Qed.

End CleanerRuns.

Section CategoryFacts.
Context (userID : string) (maxPerCat : Z).

Lemma mutations_app l1 l2 : mutations (l1 ++ l2) = mutations l1 ++ mutations l2.
Proof. apply omap_app. Qed.

Lemma processed_app l1 l2 : processed (l1 ++ l2) = processed l1 ++ processed l2.
Proof. apply omap_app. Qed.

Lemma listedThreads_app l1 l2 :
  listedThreads (l1 ++ l2) = listedThreads l1 ++ listedThreads l2.
Proof. apply flat_map_app. Qed.

Lemma noFailure_app l1 l2 : noFailure (l1 ++ l2) <-> noFailure l1 /\ noFailure l2.
Proof. apply Forall_app. Qed.

(** The tail of a processed category: the count, the estimate if any,
    the pause. *)
Lemma category_tail label n perm ests :
  (if maxPerCat <=? n then ests = []
   else exists r, ests = [EstimateCall userID label r]) ->
  let tail := Processed label n perm :: ests ++ [Sleep 200] in
  mutations tail = [] /\ listedThreads tail = [] /\
  processed tail = [(label, n)] /\ noFailure tail /\
  forallb (passed maxPerCat) tail
  = forallb (passed maxPerCat) (Processed label n perm :: ests) /\
  (forall r, foldl (reasonAfter maxPerCat) r tail
             = foldl (reasonAfter maxPerCat) r (Processed label n perm :: ests)).
Proof.
  intros Hests tail. subst tail.
  destruct (maxPerCat <=? n).
  - subst ests. repeat split. repeat constructor.
  - destruct Hests as [r ->]. repeat split; repeat constructor.
Qed.

Lemma categoryRun_ok label vars log vars' :
  categoryRun userID maxPerCat label vars log (Ok vars') ->
  exists n, 0 <= n /\ processed log = [(label, n)] /\
    result vars' = <[label := n]> (result vars) /\
    total vars' = total vars + n /\
    completed vars' = completed vars && forallb (passed maxPerCat) log /\
    reason vars' = foldl (reasonAfter maxPerCat) (reason vars) log /\
    mutations log = map (route userID) (listedThreads log) /\
    noFailure log.
Proof.
  inversion 1 as [| |pages threads muts ests Hp Hn Hl [Hm [Hnm Hmu]] Hests done Hlog Hv].
  subst done.
  destruct (pageOrSleep_quiet maxPerCat pages (pagination_events _ _ _ _ _ _ Hp))
    as (Hp1 & Hp2 & Hp3 & Hp4 & _).
  destruct (isMutation_quiet maxPerCat muts Hm) as (Hm1 & Hm2 & Hm3 & Hm4 & _).
  destruct (category_tail label (Z.of_nat (length threads)) (String.eqb label "TRASH")
              ests Hests) as (Ht1 & Ht2 & Ht3 & Ht4 & Ht5 & Ht6).
  exists (Z.of_nat (length threads)). cbn [result total completed reason].
  split; [lia|]. repeat split.
  - now rewrite !processed_app, Hp2, Hm2, Ht3.
  - rewrite !forallb_app, Hp3, Hm3, Ht5. reflexivity.
  - rewrite !foldl_app, Hp4, Hm4, Ht6. reflexivity.
  - rewrite !mutations_app, !listedThreads_app, Hp1, Hm1, Ht1, Ht2, Hl, Hmu.
    now rewrite !app_nil_r.
  - apply noFailure_app. split; [exact Hn|]. apply noFailure_app. now split.
Qed.

Lemma categoryRun_err label vars log e :
  categoryRun userID maxPerCat label vars log (Err e) ->
  exists pre ev, log = pre ++ [ev] /\ noFailure pre /\ fatal ev = true /\
    is_substring (failureText ev) e /\
    mutations log `prefix_of` map (route userID) (listedThreads log).
Proof.
  inversion 1 as [pre ev e' Hp Hn Hf Hs
                 |pages threads muts e' Hp Hn Hl [Hm Hb]|]; subst.
  - exists pre, ev. repeat split; try assumption.
    destruct (pageOrSleep_quiet maxPerCat _ (pagination_events _ _ _ _ _ _ Hp))
      as (-> & _). apply prefix_nil.
  - destruct Hb as (pre & ev & -> & Hnp & Hf & Hs & Hpre).
    exists (pages ++ pre), ev. rewrite app_assoc. repeat split; try assumption.
    + apply noFailure_app. now split.
    + destruct (pageOrSleep_quiet maxPerCat pages (pagination_events _ _ _ _ _ _ Hp))
        as (Hp1 & _).
      destruct (isMutation_quiet maxPerCat _ Hm) as (Hm1 & _).
      rewrite <- app_assoc, mutations_app, listedThreads_app, Hp1, Hm1, Hl.
      now rewrite app_nil_r.
Qed.

End CategoryFacts.

Section Checks.
Context (userID : string) (maxPerCat : Z).

Lemma quiet_filter (f : Event -> bool) log :
  Forall (fun e => f e = false) log -> List.filter f log = [].
Proof. induction 1 as [|e l He _ IH]; simpl; [done|]. now rewrite He. Qed.

Lemma estimatesFollowed_quiet log :
  Forall (fun e => isEstimate e = false) log -> estimatesFollowed log.
Proof.
  induction 1 as [|e l He _ IH]; [exact I|]. now destruct e.
Qed.

Lemma estimatesFollowed_app l1 l2 :
  estimatesFollowed l1 -> estimatesFollowed l2 -> estimatesFollowed (l1 ++ l2).
Proof.
  intros H1 H2. induction l1 as [|e l1 IH]; [exact H2|].
  destruct e; cbn [app estimatesFollowed] in *; try (apply IH; exact H1).
  destruct H1 as [[rest' ->] H1]. split; [eexists; reflexivity|]. now apply IH.
Qed.

Lemma estimatesFollowed_at pre ev post :
  estimatesFollowed (pre ++ ev :: post) -> isEstimate ev = true ->
  exists post', post = Sleep 200 :: post'.
Proof.
  induction pre as [|e pre IH]; cbn [app].
  - destruct ev; try discriminate. now intros [H _] _.
  - intros H Hev. apply IH; [|exact Hev]. destruct e; cbn in H; tauto.
Qed.

Lemma pageOrSleep_checks log :
  Forall pageOrSleep log ->
  Forall (fun e => isEstimate e = false) log /\
  Forall (fun e => capReached maxPerCat e = false) log.
Proof.
  intros H. split; (eapply Forall_impl; [exact H|]); now intros [].
Qed.

Lemma isMutation_checks log :
  Forall isMutation log ->
  Forall (fun e => isEstimate e = false) log /\
  Forall (fun e => capReached maxPerCat e = false) log.
Proof.
  intros H. split; (eapply Forall_impl; [exact H|]); now intros [].
Qed.

Lemma categoryRun_checks label vars log r :
  categoryRun userID maxPerCat label vars log r ->
  estimatesFollowed log /\
  (forall vars', r = Ok vars' ->
     (length (estimatesOf log) + length (List.filter (capReached maxPerCat) log)
      = 1)%nat).
Proof.
  destruct 1 as [pre ev e Hp _ _ _
                |pages threads muts e Hp _ _ [Hm _]
                |pages threads muts ests Hp _ _ [Hm _] Hests done].
  - split; [|discriminate].
    apply estimatesFollowed_quiet.
    apply (pageOrSleep_checks _ (pagination_events _ _ _ _ _ _ Hp)).
  - split; [|discriminate].
    apply estimatesFollowed_quiet, Forall_app. split.
    + apply (pageOrSleep_checks _ (pagination_events _ _ _ _ _ _ Hp)).
    + apply (isMutation_checks _ Hm).
  - destruct (pageOrSleep_checks _ (pagination_events _ _ _ _ _ _ Hp)) as [Hp1 Hp2].
    destruct (isMutation_checks _ Hm) as [Hm1 Hm2].
    assert (Htail : estimatesFollowed (done :: ests ++ [Sleep 200]) /\
              (length (estimatesOf (done :: ests ++ [Sleep 200]))
               + length (List.filter (capReached maxPerCat) (done :: ests ++ [Sleep 200]))
               = 1)%nat).
    { subst done. unfold estimatesOf. cbn [List.filter isEstimate capReached].
      destruct (maxPerCat <=? Z.of_nat (length threads)).
      - subst ests. now cbn.
      - destruct Hests as [r ->]. cbn. split; [|reflexivity].
        split; [eexists; reflexivity|exact I]. }
    destruct Htail as [Ht1 Ht2]. split.
    + apply estimatesFollowed_app; [now apply estimatesFollowed_quiet|].
      apply estimatesFollowed_app; [now apply estimatesFollowed_quiet|exact Ht1].
    + intros _ _. unfold estimatesOf in *.
      rewrite !List.filter_app, !length_app.
      rewrite (quiet_filter _ _ Hp1), (quiet_filter _ _ Hp2).
      rewrite (quiet_filter _ _ Hm1), (quiet_filter _ _ Hm2).
      cbn [length]. lia.
Qed.

End Checks.

Section LoopFacts.
Context {World : Type} (api : Api World) (userID : string) (maxPerCat : Z).

(** A CleanCategories loop that ends with a summary. *)
Lemma cleanLoop_ok categories vars w s :
  value_of (cleanLoop api userID maxPerCat categories vars w) = Ok s ->
  let log := trace_of (cleanLoop api userID maxPerCat categories vars w) in
  map fst (processed log) = categories /\
  Forall (fun p => 0 <= p.2) (processed log) /\
  PerCategoryDeleted s = foldl (fun m p => <[p.1 := p.2]> m) (result vars) (processed log) /\
  TotalDeleted s = total vars + foldr (fun p acc => p.2 + acc) 0 (processed log) /\
  Completed s = completed vars && forallb (passed maxPerCat) log /\
  Reason s = foldl (reasonAfter maxPerCat) (reason vars) log /\
  mutations log = map (route userID) (listedThreads log) /\
  noFailure log.
Proof.
  revert vars w. induction categories as [|label rest IH]; intros vars w.
  - cbn. intros [= <-]. cbn. rewrite andb_true_r. repeat split; try constructor. lia.
  - cbn [cleanLoop]. rewrite bind_value, bind_trace.
    pose proof (cleanCategory_run api userID maxPerCat label vars w) as Hc.
    destruct (value_of (cleanCategory api userID maxPerCat label vars w))
      as [vars'|e]; [|discriminate].
    intros Hs. specialize (IH _ _ Hs). cbv zeta in IH.
    destruct IH as (I1 & I2 & I3 & I4 & I5 & I6 & I7 & I8).
    destruct (categoryRun_ok _ _ _ _ _ _ Hc)
      as (n & Hn & C1 & C2 & C3 & C4 & C5 & C6 & C7).
    cbv zeta. rewrite processed_app, C1. cbn [app map foldl foldr fst snd].
    repeat split.
    + now rewrite I1.
    + now constructor.
    + now rewrite I3, C2.
    + rewrite I4, C3. lia.
    + rewrite I5, C4, forallb_app. now rewrite andb_assoc.
    + now rewrite I6, C5, foldl_app.
    + now rewrite mutations_app, listedThreads_app, map_app, C6, I7.
    + apply noFailure_app. now split.
Qed.

(** A CleanCategories loop that ends with an error. *)
Lemma cleanLoop_err categories vars w e :
  value_of (cleanLoop api userID maxPerCat categories vars w) = Err e ->
  let log := trace_of (cleanLoop api userID maxPerCat categories vars w) in
  exists pre ev, log = pre ++ [ev] /\ noFailure pre /\ fatal ev = true /\
    is_substring (failureText ev) e /\
    mutations log `prefix_of` map (route userID) (listedThreads log).
Proof.
  revert vars w. induction categories as [|label rest IH]; intros vars w.
  - cbn. discriminate.
  - cbn [cleanLoop]. rewrite bind_value, bind_trace.
    pose proof (cleanCategory_run api userID maxPerCat label vars w) as Hc.
    destruct (value_of (cleanCategory api userID maxPerCat label vars w))
      as [vars'|e'].
    + intros He. specialize (IH _ _ He). cbv zeta in IH.
      destruct IH as (pre & ev & Hlog & Hn & Hf & Hs & Hp).
      destruct (categoryRun_ok _ _ _ _ _ _ Hc)
        as (n & _ & _ & _ & _ & _ & _ & C6 & C7).
      cbv zeta. rewrite mutations_app, listedThreads_app, map_app, C6.
      exists (trace_of (cleanCategory api userID maxPerCat label vars w) ++ pre), ev.
      repeat split; try assumption.
      * now rewrite Hlog, app_assoc.
      * apply noFailure_app. now split.
      * now apply prefix_app.
    + cbn [ret value_of trace_of fst snd]. intros [= ->]. rewrite app_nil_r.
      now apply (categoryRun_err _ _ _ _ _ _ Hc).
Qed.

(** The estimates of a CleanCategories loop: each is followed by the
    pause, and a category has either reached the cap or had its
    estimate. *)
Lemma cleanLoop_checks categories vars w :
  let run := cleanLoop api userID maxPerCat categories vars w in
  estimatesFollowed (trace_of run) /\
  (forall s, value_of run = Ok s ->
     (length (estimatesOf (trace_of run))
      + length (List.filter (capReached maxPerCat) (trace_of run))
      = length categories)%nat).
Proof.
  revert vars w. induction categories as [|label rest IH]; intros vars w.
  - cbn. split; [exact I|reflexivity].
  - cbn [cleanLoop]. cbv zeta. rewrite bind_value, bind_trace.
    destruct (categoryRun_checks userID maxPerCat label vars _ _
                (cleanCategory_run api userID maxPerCat label vars w)) as [Hf Hc].
    destruct (value_of (cleanCategory api userID maxPerCat label vars w))
      as [vars'|e].
    + destruct (IH vars' (world_of (cleanCategory api userID maxPerCat label vars w)))
        as [If Ic].
      split; [now apply estimatesFollowed_app|].
      intros s Hs. specialize (Ic s Hs). specialize (Hc vars' eq_refl).
      unfold estimatesOf in *. rewrite !List.filter_app, !length_app.
      cbn [length]. lia.
    + cbn [ret trace_of value_of fst snd]. rewrite app_nil_r.
      split; [exact Hf|discriminate].
Qed.

End LoopFacts.

Section Counts.

Lemma foldl_insert_dom (ps : list (string * Z)) (m : gmap string Z) :
  dom (foldl (fun m p => <[p.1 := p.2]> m) m ps) = dom m ∪ list_to_set (map fst ps).
Proof.
  revert m. induction ps as [|p ps IH]; intros m; cbn [foldl map list_to_set].
  - now rewrite (right_id_L ∅ (∪)).
  - rewrite IH, dom_insert_L.
    rewrite (comm_L (∪) {[p.1]} (dom m)). now rewrite <- (assoc_L (∪)).
Qed.

Lemma sumValues_insert (m : gmap string Z) k v :
  m !! k = None -> sumValues (<[k := v]> m) = v + sumValues m.
Proof.
  intros Hk. unfold sumValues.
  rewrite map_fold_insert_L; [reflexivity| |exact Hk].
  intros; lia.
Qed.

Lemma foldl_insert_sum (ps : list (string * Z)) (m : gmap string Z) :
  NoDup (map fst ps) ->
  (forall k, k ∈ map fst ps -> m !! k = None) ->
  sumValues (foldl (fun m p => <[p.1 := p.2]> m) m ps)
  = sumValues m + foldr (fun p acc => p.2 + acc) 0 ps /\
  size (foldl (fun m p => <[p.1 := p.2]> m) m ps) = (size m + length ps)%nat.
Proof.
  revert m. induction ps as [|p ps IH]; intros m Hnd Hfresh; cbn [foldl foldr map length].
  - split; lia.
  - cbn [map] in Hnd, Hfresh. apply NoDup_cons in Hnd as [Hp Hnd].
    assert (Hk : m !! p.1 = None) by (apply Hfresh; left).
    destruct (IH (<[p.1 := p.2]> m) Hnd) as [Hs Hz].
    { intros k Hin. rewrite lookup_insert_ne; [apply Hfresh; now right|].
      intros Heq. rewrite <- Heq in Hin. contradiction. }
    rewrite Hs, Hz, sumValues_insert, map_size_insert_None by exact Hk.
    split; lia.
Qed.

Lemma capReached_processed maxPerCat log :
  Forall (fun e => capReached maxPerCat e = false) log <->
  Forall (fun p : string * Z => p.2 < maxPerCat) (processed log).
Proof.
  unfold processed. induction log as [|e log IH]; cbn [omap list_omap].
  - split; constructor.
  - rewrite Forall_cons, IH. destruct e; cbn [processedOf capReached];
      rewrite ?Forall_cons; cbn [snd]; rewrite ?Z.leb_gt; tauto.
Qed.

Lemma passed_split maxPerCat log :
  forallb (passed maxPerCat) log = true <->
  Forall (fun e => capReached maxPerCat e = false) log /\
  Forall (fun e => remainingFound e = false) log.
Proof.
  induction log as [|e log IH]; cbn [forallb].
  - split; [split; constructor|reflexivity].
  - rewrite andb_true_iff, IH, !Forall_cons. unfold passed.
    rewrite andb_true_iff, !negb_true_iff. tauto.
Qed.

End Counts.

Section ContainsFacts.

Lemma prefix_spec (p s : string) :
  String.prefix p s = true <-> exists post, s = p +:+ post.
Proof.
  revert s. induction p as [|a p IH]; intros s.
  - split; [intros _; now exists s|]. now destruct s.
  - destruct s as [|b s].
    + split; [discriminate|]. intros [post H]. discriminate H.
    + cbn [String.prefix]. destruct (Ascii.ascii_dec a b) as [->|Hne].
      * rewrite IH. split; intros [post H]; exists post.
        -- change (String b s = String b (p +:+ post)). now rewrite H.
        -- change (String b s = String b (p +:+ post)) in H. now injection H.
      * split; [discriminate|]. intros [post H].
        change (String b s = String a (p +:+ post)) in H. congruence.
Qed.

Lemma Contains_spec (s substr : string) :
  Contains s substr = true <-> is_substring substr s.
Proof.
  unfold is_substring. split.
  - induction s as [|c s IH]; cbn [Contains]; rewrite orb_true_iff.
    + intros [H|H]; [|discriminate]. apply prefix_spec in H as [post ->].
      now exists "", post.
    + intros [H|H].
      * apply prefix_spec in H as [post ->]. now exists "", post.
      * destruct (IH H) as (pre & post & ->). now exists (String c pre), post.
  - intros (pre & post & ->). induction pre as [|c pre IH].
    + change ("" +:+ substr +:+ post) with (substr +:+ post).
      assert (Hp : String.prefix substr (substr +:+ post) = true)
        by (apply prefix_spec; now exists post).
      destruct (substr +:+ post); cbn [Contains]; now rewrite Hp.
    + change (String c pre +:+ substr +:+ post)
        with (String c (pre +:+ substr +:+ post)).
      cbn [Contains]. rewrite IH. apply orb_true_r.
Qed.

End ContainsFacts.

(** ** The summary of CleanCategories *)

Section CategoryChecks.
Context (userID : string) (maxPerCat : Z).

Lemma checks_quiet pre rest :
  Forall (fun e => processedOf e = None) pre -> checks (pre ++ rest) = checks rest.
Proof.
  induction 1 as [|e pre He _ IH]; [reflexivity|].
  cbn [app]. destruct e; try discriminate He; exact IH.
Qed.

Lemma checks_tail label n perm ests rest :
  (if maxPerCat <=? n then ests = []
   else exists r, ests = [EstimateCall userID label r]) ->
  checks (Processed label n perm :: ests ++ Sleep 200 :: rest)
  = {| checkLabel := label; checkCount := n; checkEstimate := head ests |}
    :: checks rest.
Proof.
  destruct (maxPerCat <=? n).
  - intros ->. reflexivity.
  - intros [r ->]. reflexivity.
Qed.

Lemma categoryRun_check label vars log vars' rest :
  categoryRun userID maxPerCat label vars log (Ok vars') ->
  exists c,
    checks (log ++ rest) = c :: checks rest /\
    checkLabel c = label /\
    estimatesOf log = omap checkEstimate [c] /\
    estimateDue userID maxPerCat c /\
    (completed vars' = true <-> completed vars = true /\ leavesCompleted maxPerCat c) /\
    (completed vars' = true -> reason vars' = reason vars).
Proof.
  inversion 1 as [| |pages threads muts ests Hp Hn Hl [Hm _] Hests done Hlog Hv].
  subst done.
  assert (He : estimatesOf (pages ++ muts ++
                 Processed label (Z.of_nat (length threads)) (String.eqb label "TRASH")
                 :: ests ++ [Sleep 200])
               = omap checkEstimate
                   [{| checkLabel := label; checkCount := Z.of_nat (length threads);
                       checkEstimate := head ests |}]).
  { unfold estimatesOf. rewrite !List.filter_app.
    rewrite (quiet_filter isEstimate pages)
      by apply (pageOrSleep_checks maxPerCat _ (pagination_events _ _ _ _ _ _ Hp)).
    rewrite (quiet_filter isEstimate muts) by apply (isMutation_checks maxPerCat _ Hm).
    destruct (maxPerCat <=? Z.of_nat (length threads)).
    - now subst ests.
    - now destruct Hests as [r ->]. }
  destruct (pageOrSleep_quiet maxPerCat pages (pagination_events _ _ _ _ _ _ Hp))
    as (_ & Hp2 & _).
  destruct (isMutation_quiet maxPerCat muts Hm) as (_ & Hm2 & _).
  assert (Hq : forall l, processed l = [] -> Forall (fun e => processedOf e = None) l).
  { clear. unfold processed. induction l as [|e l IH]; [constructor|].
    cbn [omap list_omap]. destruct (processedOf e) eqn:He; [discriminate|].
    intros Hl. constructor; [exact He|exact (IH Hl)]. }
  exists {| checkLabel := label; checkCount := Z.of_nat (length threads);
            checkEstimate := head ests |}.
  split.
  { rewrite <- !app_assoc. rewrite (checks_quiet pages) by now apply Hq.
    rewrite (checks_quiet muts) by now apply Hq.
    cbn [app]. rewrite <- app_assoc. cbn [app]. now apply checks_tail. }
  split; [reflexivity|]. split; [exact He|]. clear He.
  unfold estimateDue, leavesCompleted, passed, reasonAfter, remainingFound.
  destruct (maxPerCat <=? Z.of_nat (length threads)) eqn:Hleb.
  - subst ests. apply Z.leb_le in Hleb as Hcap.
    cbn [checkLabel checkCount checkEstimate completed reason forallb foldl head
         capReached remainingFound estimateSeen].
    rewrite Hleb. cbn [negb andb]. rewrite andb_false_r.
    split; [exact Hcap|]. split; [|discriminate].
    split; [discriminate|]. intros (_ & Hlt & _). lia.
  - destruct Hests as [r ->]. apply Z.leb_gt in Hleb as Hcap.
    cbn [checkLabel checkCount checkEstimate completed reason forallb foldl head
         capReached remainingFound estimateSeen].
    rewrite Hleb. change (0 <? 0) with false. cbn [negb andb].
    rewrite !andb_true_r.
    split; [split; [exact Hcap|now exists r]|].
    destruct r as [res|err].
    + destruct (Z.ltb_spec 0 (ResultSizeEstimate res)) as [Hpos|Hz]; cbn [negb].
      * rewrite andb_false_r. split; [|discriminate].
        split; [discriminate|]. intros (_ & _ & Hle). lia.
      * rewrite andb_true_r. split; [|reflexivity].
        split; [intros Hc; split; [exact Hc|split; [exact Hcap|exact Hz]]|now intros []].
    + change (0 <? 0) with false. cbn [negb]. rewrite andb_true_r.
      split; [|reflexivity].
      split; [intros Hc; split; [exact Hc|split; [exact Hcap|exact I]]|now intros []].
Qed.

Lemma estimate_readings (c : Check) :
  estimateDue userID maxPerCat c -> estimateAnswered c ->
  (leavesCompleted maxPerCat c <-> foundNothingLeft maxPerCat c).
Proof.
  unfold estimateDue, estimateAnswered, leavesCompleted, foundNothingLeft.
  destruct (checkEstimate c) as [[| u l [res|err] | | | |]|];
    intros Hd Ha; try contradiction; try (destruct Hd as [_ [r Hr]]; discriminate Hr).
  - split; intros [Hlt H]; (split; [exact Hlt|lia]).
  - split; [intros [Hlt _]; lia|intros [_ []]].
Qed.

End CategoryChecks.

Section LoopChecks.
Context {World : Type} (api : Api World) (userID : string) (maxPerCat : Z).

Lemma cleanLoop_categoryChecks categories vars w s :
  value_of (cleanLoop api userID maxPerCat categories vars w) = Ok s ->
  let cs := checks (trace_of (cleanLoop api userID maxPerCat categories vars w)) in
  map checkLabel cs = categories /\
  estimatesOf (trace_of (cleanLoop api userID maxPerCat categories vars w))
  = omap checkEstimate cs /\
  Forall (estimateDue userID maxPerCat) cs /\
  (Completed s = true <->
   completed vars = true /\ Forall (leavesCompleted maxPerCat) cs) /\
  (Completed s = true -> Reason s = reason vars).
Proof.
  revert vars w. induction categories as [|label rest IH]; intros vars w.
  - cbn. intros [= <-]. cbn. split; [reflexivity|]. split; [reflexivity|].
    split; [constructor|].
    split; [|reflexivity]. split; [intros Hc; split; [exact Hc|constructor]|now intros []].
  - cbn [cleanLoop]. rewrite bind_value, bind_trace.
    pose proof (cleanCategory_run api userID maxPerCat label vars w) as Hc.
    destruct (value_of (cleanCategory api userID maxPerCat label vars w))
      as [vars'|e]; [|discriminate].
    intros Hs. specialize (IH _ _ Hs). cbv zeta in IH.
    destruct IH as (I1 & I0 & I2 & I3 & I4).
    destruct (categoryRun_check userID maxPerCat label vars _ vars'
                (trace_of (cleanLoop api userID maxPerCat rest vars'
                   (world_of (cleanCategory api userID maxPerCat label vars w)))) Hc)
      as (c & Hcs & Hl & He & Hd & Hcomp & Hreason).
    cbv zeta. rewrite Hcs. cbn [map]. rewrite Hl, I1.
    split; [reflexivity|].
    split.
    { unfold estimatesOf in *. rewrite List.filter_app, He, I0.
      cbn [omap list_omap]. now destruct (checkEstimate c). }
    split; [now constructor|].
    split.
    + rewrite I3, Hcomp. split.
      * intros [[Hv Hlc] Hall]. split; [exact Hv|now constructor].
      * intros [Hv Hall]. inversion Hall; subst. tauto.
    + intros Ht. rewrite (I4 Ht). apply Hreason. apply I3 in Ht. tauto.
Qed.

End LoopChecks.

Section Summary.
Context {World : Type} (api : Api World).

(** C1, as amended.  When CleanCategories returns a summary, the keys
    of PerCategoryDeleted are exactly the requested labels, one entry
    per distinct label; and when the requested labels are pairwise
    distinct, TotalDeleted is the sum of the values of
    PerCategoryDeleted and there is one entry per requested category. *)
Theorem summary_counts (userID : string) (categories : list string)
    (maxPerCat : Z) (w : World) (s : CleanSummary) :
  value_of (CleanCategories api userID categories maxPerCat w) = Ok s ->
  dom (PerCategoryDeleted s) = list_to_set categories /\
  (NoDup categories ->
   TotalDeleted s = sumValues (PerCategoryDeleted s) /\
   size (PerCategoryDeleted s) = length categories).
Proof.
  intros Hs. unfold CleanCategories in Hs.
  destruct (cleanLoop_ok api userID maxPerCat categories _ w s Hs)
    as (Hc & _ & Hm & Ht & _).
  cbn [result total] in Hm, Ht. split.
  - rewrite Hm, foldl_insert_dom, Hc, dom_empty_L. apply (left_id_L ∅ (∪)).
  - intros Hnd. rewrite <- Hc in Hnd.
    destruct (foldl_insert_sum _ ∅ Hnd) as [Hsum Hsize].
    { intros k _. apply lookup_empty. }
    pose proof (f_equal length Hc) as Hlen. rewrite length_map in Hlen.
    rewrite Hm, Ht, Hsum, Hsize, <- Hlen.
    unfold sumValues. rewrite map_fold_empty, map_size_empty. split; lia.
Qed.

(** C2, as amended.  When CleanCategories returns a summary, every
    requested category has left its check, in order; a category whose
    count stayed below the cap had one estimate asked, for its own
    label and right after its count, and a category at the cap had
    none; no other estimate was asked.  Completed is true exactly when every category's count
    stayed below the cap and no estimate answered with a number above
    zero: an estimate that fails, or answers zero or less, leaves
    Completed as it was.  When Completed is true the reason is the
    default one.  Where every estimate asked answered with a number
    that is not negative, Completed is true exactly when no count
    reached the cap and every check found zero remaining items. *)
Theorem completed_iff (userID : string) (categories : list string)
    (maxPerCat : Z) (w : World) (s : CleanSummary) :
  value_of (CleanCategories api userID categories maxPerCat w) = Ok s ->
  let cs := checks (trace_of (CleanCategories api userID categories maxPerCat w)) in
  map checkLabel cs = categories /\
  estimatesOf (trace_of (CleanCategories api userID categories maxPerCat w))
  = omap checkEstimate cs /\
  Forall (estimateDue userID maxPerCat) cs /\
  (Completed s = true <-> Forall (leavesCompleted maxPerCat) cs) /\
  (Completed s = true -> Reason s = reasonAllProcessed) /\
  (Forall estimateAnswered cs ->
   (Completed s = true <-> Forall (foundNothingLeft maxPerCat) cs)).
Proof.
  intros Hs cs. subst cs. unfold CleanCategories in *.
  destruct (cleanLoop_categoryChecks api userID maxPerCat categories _ w s Hs)
    as (Hl & He & Hd & Hc & Hr).
  cbn [completed reason] in Hc, Hr.
  assert (Hiff : Completed s = true <->
            Forall (leavesCompleted maxPerCat)
              (checks (trace_of (cleanLoop api userID maxPerCat categories
                 {| result := ∅; total := 0; completed := true;
                    reason := reasonAllProcessed |} w)))) by (rewrite Hc; tauto).
  split; [exact Hl|]. split; [exact He|]. split; [exact Hd|].
  split; [exact Hiff|]. split; [exact Hr|].
  intros Ha. rewrite Hiff. clear -Hd Ha.
  induction Hd as [|c cs Hc _ IH]; [split; constructor|].
  inversion Ha as [|? ? Hac Has]; subst.
  rewrite !Forall_cons, (estimate_readings userID maxPerCat c Hc Hac), (IH Has).
  reflexivity.
Qed.

(** C5, as amended.  When an earlier category triggers the
    remaining-emails reason and a later category reaches its cap, the
    later write wins: unless a category after that one triggers the
    remaining-emails reason again, the summary is not completed and
    its reason is "max per category reached; more emails may remain". *)
Theorem reason_last_write_wins (userID : string) (categories : list string)
    (maxPerCat : Z) (w : World) (s : CleanSummary)
    (pre mid post : list Event) (found hit : Event) :
  value_of (CleanCategories api userID categories maxPerCat w) = Ok s ->
  trace_of (CleanCategories api userID categories maxPerCat w)
  = pre ++ found :: mid ++ hit :: post ->
  remainingFound found = true ->
  capReached maxPerCat hit = true ->
  Forall (fun e => remainingFound e = false) post ->
  Completed s = false /\ Reason s = reasonMaxReached.
Proof.
  intros Hs Hlog Hfound Hhit Hpost. unfold CleanCategories in Hs.
  destruct (cleanLoop_ok api userID maxPerCat categories _ w s Hs)
    as (_ & _ & _ & _ & Hd & Hr & _).
  fold (CleanCategories api userID categories maxPerCat w) in Hd, Hr.
  rewrite Hlog in Hd, Hr. cbn [completed reason andb] in Hd, Hr. split.
  - rewrite Hd, forallb_app. cbn [forallb]. unfold passed at 2.
    rewrite Hfound. cbn [negb]. rewrite andb_false_r. cbn [andb].
    apply andb_false_r.
  - rewrite Hr, foldl_app. cbn [foldl]. rewrite foldl_app. cbn [foldl].
    unfold reasonAfter at 2. rewrite Hhit.
    clear -Hpost. induction Hpost as [|e l He _ IH]; [reflexivity|].
    cbn [foldl]. unfold reasonAfter at 2. rewrite He.
    destruct (capReached maxPerCat e); exact IH.
Qed.

End Summary.

(** ** Failures and routing *)

Section Failures.
Context {World : Type} (api : Api World).

(** C3, as amended.  A listing-page failure and a per-thread trash or
    delete failure abort the whole of CleanCategories: the failed call
    is the last event of the transcript, so nothing is retried and no
    later category is touched, and what is returned is an error that
    carries the text of the failure, never a summary.  Every error
    that CleanCategories returns comes from such a failure.  A failed
    estimate is not one of them: the loop goes on with the pause that
    ends the iteration. *)
Theorem failure_aborts (userID : string) (categories : list string)
    (maxPerCat : Z) (w : World) :
  let run := CleanCategories api userID categories maxPerCat w in
  (forall pre ev post,
      trace_of run = pre ++ ev :: post -> fatal ev = true ->
      post = [] /\
      exists e, value_of run = Err e /\ is_substring (failureText ev) e) /\
  (forall e,
      value_of run = Err e ->
      exists pre ev, trace_of run = pre ++ [ev] /\ fatal ev = true /\
                     estimateFailed ev = false /\
                     is_substring (failureText ev) e) /\
  (forall pre ev post,
      trace_of run = pre ++ ev :: post -> estimateFailed ev = true ->
      exists post', post = Sleep 200 :: post').
Proof.
  intros run. subst run. unfold CleanCategories.
  set (vars := {| result := ∅; total := 0; completed := true;
                  reason := reasonAllProcessed |}).
  split; [|split]; cycle 2.
  { intros pre ev post Hlog Hf.
    destruct (cleanLoop_checks api userID maxPerCat categories vars w) as [He _].
    rewrite Hlog in He. apply (estimatesFollowed_at _ _ _ He).
    now destruct ev. }
  - intros pre ev post Hlog Hf.
    destruct (value_of (cleanLoop api userID maxPerCat categories vars w))
      as [s|e] eqn:Hv.
    + destruct (cleanLoop_ok api userID maxPerCat categories vars w s Hv)
        as (_ & _ & _ & _ & _ & _ & _ & Hn).
      rewrite Hlog in Hn. apply Forall_app in Hn as [_ Hn].
      apply Forall_cons in Hn as [Hn _]. congruence.
    + destruct (cleanLoop_err api userID maxPerCat categories vars w e Hv)
        as (pre' & ev' & Hlog' & Hn & Hf' & Hs & _).
      rewrite Hlog in Hlog'. symmetry in Hlog'.
      destruct (snoc_split _ _ _ _ _ Hlog') as [(-> & -> & ->)|Hin].
      * split; [reflexivity|]. now exists e.
      * unfold noFailure in Hn. rewrite Forall_forall in Hn.
        specialize (Hn _ Hin). congruence.
  - intros e Hv.
    destruct (cleanLoop_err api userID maxPerCat categories vars w e Hv)
      as (pre & ev & Hlog & _ & Hf & Hs & _).
    exists pre, ev. repeat split; try assumption.
    now destruct ev as [? ? ? ? []| | | | |].
Qed.


End Failures.

(** ** The thread lister *)

Section PaginationExactly.
Context (userID label : string) (max : Z).

Lemma fetched_page u l n tok res ms pre :
  fetched (ListPage u l n tok (Ok res) :: Sleep ms :: pre) = pageLength res + fetched pre.
Proof.
  unfold fetched, listedThreads, pageLength. cbn [flat_map listedBy app].
  rewrite length_app, length_map. lia.
Qed.

Lemma pagination_stopsExactly total tok log :
  pagination userID label max total tok log ->
  forall pre u l n tok' res post,
    log = pre ++ ListPage u l n tok' (Ok res) :: post ->
    (stopAfter max (total + fetched pre) res -> post = []) /\
    (~ stopAfter max (total + fetched pre) res ->
     exists r post',
       post = Sleep 200
              :: ListPage userID label
                   (pageSizeFor max (total + fetched pre + pageLength res))
                   (NextPageToken res) r
              :: post').
Proof.
  induction 1 as [total tok err|total tok res0 Hstop|total tok res0 rest Hgo Hrest IH];
    intros pre u l n tok' res post Hlog.
  - destruct pre as [|e pre]; [discriminate Hlog|].
    injection Hlog as _ Hlog. now destruct pre.
  - destruct pre as [|e pre].
    + injection Hlog as _ _ _ _ <- <-. change (fetched []) with 0.
      rewrite Z.add_0_r. split; [reflexivity|]. intros Hgo. now contradiction Hgo.
    + injection Hlog as _ Hlog. now destruct pre.
  - destruct pre as [|e pre].
    + injection Hlog as _ _ _ _ <- <-. change (fetched []) with 0.
      rewrite Z.add_0_r. split; [intros Hs; now contradiction Hgo|]. intros _.
      destruct Hrest; eauto.
    + injection Hlog as <- Hlog. destruct pre as [|e pre]; [discriminate Hlog|].
      injection Hlog as <- Hlog. rewrite fetched_page.
      destruct (IH _ _ _ _ _ _ _ Hlog) as [I1 I2].
      rewrite !Z.add_assoc. split; assumption.
Qed.

End PaginationExactly.

Section Lister.
Context {World : Type} (api : Api World).

Lemma listPages_answered label wrap fuel userID max allThreads tok pageCount total w :
  pagesAnsweredBy api w
    (trace_of (listPages api label wrap fuel userID max allThreads tok pageCount total w))
    (world_of (listPages api label wrap fuel userID max allThreads tok pageCount total w)).
Proof.
  revert allThreads tok pageCount total w.
  induction fuel as [|fuel IH]; intros allThreads tok pageCount total w; [reflexivity|].
  cbn [listPages]. rewrite bind_trace, bind_world, doList_trace.
  cbn [app pagesAnsweredBy].
  assert (Hv : value_of (doList api userID label
                 (if max - total <? maxPerPage then max - total else maxPerPage) tok w)
               = (ThreadsList api userID label
                    (if max - total <? maxPerPage then max - total else maxPerPage)
                    tok w).2).
  { unfold doList, value_of. now destruct (ThreadsList _ _ _ _ _ _). }
  assert (Hw : world_of (doList api userID label
                 (if max - total <? maxPerPage then max - total else maxPerPage) tok w)
               = (ThreadsList api userID label
                    (if max - total <? maxPerPage then max - total else maxPerPage)
                    tok w).1).
  { unfold doList, world_of. now destruct (ThreadsList _ _ _ _ _ _). }
  split; [exact Hv|]. rewrite <- Hw.
  destruct (value_of (doList _ _ _ _ _ _)) as [res|err]; [|reflexivity].
  destruct (String.eqb (NextPageToken res) "" || _ || _); [reflexivity|].
  rewrite bind_trace, bind_world.
  cbn [sleep emit trace_of value_of world_of fst snd app pagesAnsweredBy].
  apply IH.
Qed.

Lemma ListCategoryThreads_run userID label max w :
  pagination userID label max 0 ""
    (trace_of (ListCategoryThreads api userID label max w)) /\
  value_of (ListCategoryThreads api userID label max w)
  = pagesResult (wrapCategoryPage label) 0 []
      (trace_of (ListCategoryThreads api userID label max w)).
Proof.
  apply listPages_run. unfold pagesBound. rewrite Z.sub_0_r. lia.
Qed.

Lemma ListTrashThreads_run userID max w :
  pagination userID "TRASH" max 0 ""
    (trace_of (ListTrashThreads api userID max w)) /\
  value_of (ListTrashThreads api userID max w)
  = pagesResult wrapTrashPage 0 [] (trace_of (ListTrashThreads api userID max w)).
Proof.
  apply listPages_run. unfold pagesBound. rewrite Z.sub_0_r. lia.
Qed.

Lemma pagination_limit userID label max total tok log :
  pagination userID label max total tok log ->
  Forall (fun e => requestedSize e <= 500) (pagesOf log).
Proof.
  induction 1; unfold pagesOf in *; cbn [List.filter isPage];
    repeat constructor; try assumption;
    cbn [requestedSize]; unfold pageSizeFor; lia.
Qed.

(** C6.  Every page request of ListCategoryThreads and of
    ListTrashThreads asks for [min(max - totalFetched, 500)] items,
    [totalFetched] being the number of threads of the pages before
    it, hence for no more than 500; with [max >= 1] it asks for at
    least one. *)
Theorem page_requests (userID label : string) (max : Z) (w : World) :
  let cat := trace_of (ListCategoryThreads api userID label max w) in
  let trash := trace_of (ListTrashThreads api userID max w) in
  requestsMin max 0 cat /\ requestsMin max 0 trash /\
  Forall (fun e => requestedSize e <= 500) (pagesOf cat) /\
  Forall (fun e => requestedSize e <= 500) (pagesOf trash) /\
  (1 <= max ->
   Forall (fun e => 1 <= requestedSize e <= 500) (pagesOf cat) /\
   Forall (fun e => 1 <= requestedSize e <= 500) (pagesOf trash)).
Proof.
  intros cat trash. subst cat trash.
  destruct (ListCategoryThreads_run userID label max w) as [Hc _].
  destruct (ListTrashThreads_run userID max w) as [Ht _].
  repeat split.
  - eapply pagination_requests, Hc.
  - eapply pagination_requests, Ht.
  - eapply pagination_limit, Hc.
  - eapply pagination_limit, Ht.
  - eapply pagination_sizes; [exact Hc|lia].
  - eapply pagination_sizes; [exact Ht|lia].
Qed.

Lemma pagesResult_not_cut wrap pageCount allThreads log :
  (forall k err, wrap k err <> loop_bound_hit) ->
  pagesResult wrap pageCount allThreads log <> Err loop_bound_hit.
Proof.
  intros Hw. revert pageCount allThreads.
  induction log as [|e log IH]; intros pageCount allThreads; cbn [pagesResult].
  - discriminate.
  - destruct e as [? ? ? ? [res|err]| | | | |]; try apply IH.
    intros [= H]. now apply Hw in H.
Qed.

(** C7.  A listing asks the provider for pages, one after the other,
    and the transcript holds the provider's own answers.  After a page
    that was fetched the loop ends exactly when the continuation token
    is absent, or [totalFetched >= max], or the page had no items:
    when one of the three holds the page is the last thing done, and
    when none holds the pause and the request for the next page
    follow (a page that fails ends the loop too, with the error).  The
    loop does end: the value of the listing is read from the
    transcript and is never the bound of the model.  With [max >= 1],
    if every page returns as many items as were requested, there are
    at most [ceil(max/500)] pages. *)
Theorem pagination_stops (userID label : string) (max : Z) (w : World) :
  let cat := ListCategoryThreads api userID label max w in
  let trash := ListTrashThreads api userID max w in
  pagination userID label max 0 "" (trace_of cat) /\
  pagination userID "TRASH" max 0 "" (trace_of trash) /\
  pagesAnsweredBy api w (trace_of cat) (world_of cat) /\
  pagesAnsweredBy api w (trace_of trash) (world_of trash) /\
  stopsExactly userID label max (trace_of cat) /\
  stopsExactly userID "TRASH" max (trace_of trash) /\
  value_of cat = pagesResult (wrapCategoryPage label) 0 [] (trace_of cat) /\
  value_of trash = pagesResult wrapTrashPage 0 [] (trace_of trash) /\
  value_of cat <> Err loop_bound_hit /\
  value_of trash <> Err loop_bound_hit /\
  (1 <= max ->
   (Forall fullPage (trace_of cat) ->
    Z.of_nat (length (pagesOf (trace_of cat))) <= (max + 499) / 500) /\
   (Forall fullPage (trace_of trash) ->
    Z.of_nat (length (pagesOf (trace_of trash))) <= (max + 499) / 500)).
Proof.
  intros cat trash. subst cat trash.
  destruct (ListCategoryThreads_run userID label max w) as [Hc Hcv].
  destruct (ListTrashThreads_run userID max w) as [Ht Htv].
  split; [exact Hc|]. split; [exact Ht|].
  split; [apply listPages_answered|]. split; [apply listPages_answered|].
  split.
  { intros pre u l n tok res post Hlog.
    exact (pagination_stopsExactly _ _ _ _ _ _ Hc _ _ _ _ _ _ _ Hlog). }
  split.
  { intros pre u l n tok res post Hlog.
    exact (pagination_stopsExactly _ _ _ _ _ _ Ht _ _ _ _ _ _ _ Hlog). }
  split; [exact Hcv|]. split; [exact Htv|].
  split; [|split].
  - rewrite Hcv. apply pagesResult_not_cut. intros k err. discriminate.
  - rewrite Htv. apply pagesResult_not_cut. intros k err. discriminate.
  - intros Hmax. split; intros Hfull.
    + pose proof (pagination_count _ _ _ _ _ _ Hc ltac:(lia) Hfull) as H.
      now rewrite Z.sub_0_r in H.
    + pose proof (pagination_count _ _ _ _ _ _ Ht ltac:(lia) Hfull) as H.
      now rewrite Z.sub_0_r in H.
Qed.

End Lister.

(** ** The handler *)

Section Handler.
Context {World : Type} (api : Api World).

Lemma pagination_head userID label max total tok log :
  pagination userID label max total tok log ->
  exists r rest, log = ListPage userID label (pageSizeFor max total) tok r :: rest.
Proof. destruct 1; eauto. Qed.

Lemma categoryRun_head userID maxPerCat label vars log r :
  categoryRun userID maxPerCat label vars log r ->
  exists r0 rest,
    log = ListPage userID label (pageSizeFor maxPerCat 0) "" r0 :: rest.
Proof.
  destruct 1 as [pre ev e Hp|pages threads muts e Hp|pages threads muts ests Hp];
    destruct (pagination_head _ _ _ _ _ _ Hp) as (r0 & tl & Heq);
    rewrite Heq; cbn [app]; eauto.
Qed.

Lemma cleanLoop_head userID maxPerCat label rest vars w :
  exists r log,
    trace_of (cleanLoop api userID maxPerCat (label :: rest) vars w)
    = ListPage userID label (pageSizeFor maxPerCat 0) "" r :: log.
Proof.
  cbn [cleanLoop]. rewrite bind_trace.
  destruct (categoryRun_head _ _ _ _ _ _
              (cleanCategory_run api userID maxPerCat label vars w))
    as (r0 & tl & ->).
  cbn [app]. eauto.
Qed.

(** C8.  A request that passes the binding with [max_per_category]
    equal to 0 is handled as the same request with 1,000,000:
    CleanCategories is run with the cap 1,000,000, and the first
    thing it does is to ask the provider for a page of 500 threads of
    the first category. *)
Theorem zero_cap_is_million (req : handler.CleanRequest) (w : World) :
  handler.bindingOk req = true ->
  handler.MaxPerCategory req = 0 ->
  let run := handler.Clean api (Ok req) w in
  let clean := CleanCategories api "me" (handler.Categories req) 1000000 w in
  world_of run = world_of clean /\
  trace_of run = trace_of clean /\
  run = handler.Clean api
          (Ok {| handler.MaxPerCategory := 1000000;
                 handler.Categories := handler.Categories req |}) w /\
  exists label r log, trace_of run = ListPage "me" label 500 "" r :: log.
Proof.
  intros Hok Hz run clean. subst run clean. unfold handler.Clean.
  rewrite Hz. cbn [Z.eqb handler.MaxPerCategory handler.Categories].
  rewrite bind_world, bind_trace.
  set (c := CleanCategories api "me" (handler.Categories req) 1000000 w).
  split; [|split; [|split]].
  - destruct (value_of c) as [s|e]; [reflexivity|].
    now destruct (IsAuthError (Some e)).
  - destruct (value_of c) as [s|e]; [apply app_nil_r|].
    destruct (IsAuthError (Some e)); apply app_nil_r.
  - reflexivity.
  - unfold handler.bindingOk in Hok. rewrite !andb_true_iff in Hok.
    destruct Hok as [[[_ _] Hlen] _].
    subst c. unfold CleanCategories.
    destruct (handler.Categories req) as [|label rest];
      [cbn in Hlen; discriminate|].
    destruct (cleanLoop_head "me" 1000000 label rest
                {| result := ∅; total := 0; completed := true;
                   reason := reasonAllProcessed |} w) as (r & log & Heq).
    rewrite Heq. exists label, r. eexists.
    change (pageSizeFor 1000000 0) with 500. cbn [app]. reflexivity.
Qed.

(** C9.  An error of CleanCategories is an authentication failure for
    IsAuthError exactly when its text contains one of the four
    substrings; the handler then answers 401 with the suggestion to
    authenticate again, and answers 500 with the error alone
    otherwise. *)
Theorem auth_errors_distinct (req : handler.CleanRequest) (w : World) (e : error) :
  let maxPerCategory :=
    if handler.MaxPerCategory req =? 0 then 1000000 else handler.MaxPerCategory req in
  value_of (CleanCategories api "me" (handler.Categories req) maxPerCategory w) = Err e ->
  (IsAuthError (Some e) = true <->
   is_substring "ACCESS_TOKEN_SCOPE_INSUFFICIENT" e \/
   is_substring "insufficientPermissions" e \/
   is_substring "Error 401" e \/
   is_substring "Error 403" e) /\
  value_of (handler.Clean api (Ok req) w)
  = if IsAuthError (Some e)
    then {| handler.status := 401;
            handler.body := handler.H
              (<[ "error" := "Authentication failed or insufficient permissions" ]>
               (<[ "suggestion" := "Please re-authenticate with the required Gmail scopes" ]>
                {[ "details" := e ]})) |}
    else {| handler.status := 500;
            handler.body := handler.H {[ "error" := e ]} |}.
Proof.
  intros cap Hv. subst cap. split.
  - cbn [IsAuthError]. rewrite !orb_true_iff, !Contains_spec. tauto.
  - unfold handler.Clean. rewrite bind_value.
    destruct (handler.MaxPerCategory req =? 0);
      cbn [handler.MaxPerCategory handler.Categories] in *; rewrite Hv;
      now destruct (IsAuthError (Some e)).
Qed.

End Handler.

(** ** Empty batches *)

Section EmptyBatch.
Context {World : Type} (api : Api World).

(** C10.  With no thread ID the two batch functions return nil, make
    no remote call and leave the provider as it was.  So a category
    whose listing returns no thread is never failed by the trash or
    delete step: its iteration goes on with the count 0 recorded for
    the label, the total unchanged and no call that changes the
    mailbox; alone in a request, it gives a summary with that one
    entry. *)
Theorem empty_batch_is_noop (userID : string) (w : World) :
  BatchTrashThreads api userID [] w = (w, [], None) /\
  BatchDeleteThreadsPermanently api userID [] w = (w, [], None) /\
  (forall maxPerCat label vars,
     value_of ((if String.eqb label "TRASH"
                then ListTrashThreads api userID maxPerCat
                else ListCategoryThreads api userID label maxPerCat) w) = Ok [] ->
     let run := cleanCategory api userID maxPerCat label vars w in
     mutations (trace_of run) = [] /\
     exists vars', value_of run = Ok vars' /\
                   result vars' = <[label := 0]> (result vars) /\
                   total vars' = total vars) /\
  (forall maxPerCat label,
     value_of ((if String.eqb label "TRASH"
                then ListTrashThreads api userID maxPerCat
                else ListCategoryThreads api userID label maxPerCat) w) = Ok [] ->
     exists s, value_of (CleanCategories api userID [label] maxPerCat w) = Ok s /\
               PerCategoryDeleted s = {[ label := 0 ]} /\
               TotalDeleted s = 0).
Proof.
  split; [reflexivity|]. split; [reflexivity|].
  assert (Hstep : forall maxPerCat label vars,
     value_of ((if String.eqb label "TRASH"
                then ListTrashThreads api userID maxPerCat
                else ListCategoryThreads api userID label maxPerCat) w) = Ok [] ->
     mutations (trace_of (cleanCategory api userID maxPerCat label vars w)) = [] /\
     exists vars', value_of (cleanCategory api userID maxPerCat label vars w) = Ok vars' /\
                   result vars' = <[label := 0]> (result vars) /\
                   total vars' = total vars).
  { intros maxPerCat label vars Hl.
    assert (Hv : exists vars',
      value_of (cleanCategory api userID maxPerCat label vars w) = Ok vars' /\
      result vars' = <[label := 0]> (result vars) /\ total vars' = total vars).
    { unfold cleanCategory. rewrite bind_value, Hl. cbn [map]. rewrite bind_value.
      assert (Hb : forall w',
        value_of ((if String.eqb label "TRASH"
                   then BatchDeleteThreadsPermanently api userID []
                   else BatchTrashThreads api userID []) w') = None)
        by (intros w'; now destruct (String.eqb label "TRASH")).
      rewrite Hb, !bind_value. cbn [ret value_of snd length Z.of_nat].
      eexists. split; [reflexivity|]. cbn [result total].
      split; [reflexivity|lia]. }
    split; [|exact Hv].
    destruct Hv as (vars' & Hv & _ & Htot).
    pose proof (cleanCategory_run api userID maxPerCat label vars w) as Hc.
    rewrite Hv in Hc.
    inversion Hc as [| |pages threads muts ests Hp Hn Hlt Hbo Hests done Hlog Hval].
    assert (threads = []) as ->.
    { rewrite <- Hval in Htot. cbn [total] in Htot.
      destruct threads; [reflexivity|]. cbn [length] in Htot. lia. }
    rewrite !mutations_app.
    destruct (pageOrSleep_quiet maxPerCat pages (pagination_events _ _ _ _ _ _ Hp))
      as (-> & _).
    destruct Hbo as [_ [_ ->]].
    destruct (category_tail userID maxPerCat label _ (String.eqb label "TRASH")
                ests Hests) as (Htl & _).
    subst done. cbn [length Z.of_nat] in *. now rewrite Htl. }
  split; [exact Hstep|].
  intros maxPerCat label Hl. unfold CleanCategories. cbn [cleanLoop].
  rewrite bind_value.
  destruct (Hstep maxPerCat label
              {| result := ∅; total := 0; completed := true;
                 reason := reasonAllProcessed |} Hl)
    as (_ & vars' & Hv & Hr & Ht).
  rewrite Hv. cbn [ret value_of snd]. eexists. split; [reflexivity|].
  cbn [PerCategoryDeleted TotalDeleted]. rewrite Hr, Ht. cbn [result total].
  split; [apply insert_empty|reflexivity].
Qed.

End EmptyBatch.

(** ** The scenarios *)

Section Scenarios.

Example promotionsThenTrash_value :
  value_of promotionsThenTrash = Ok promotionsThenTrashSummary.
Proof. vm_compute. reflexivity. Qed.

Example threePages_run :
  ListCategoryThreads scripted "me" "CATEGORY_UPDATES" 5 threePages
  = ([],
     [ListPage "me" "CATEGORY_UPDATES" 5 ""
        (Ok {| Threads := [Build_Thread "a"; Build_Thread "b"];
               NextPageToken := "t1"; ResultSizeEstimate := 7 |});
      Sleep 200;
      ListPage "me" "CATEGORY_UPDATES" 3 "t1"
        (Ok {| Threads := [Build_Thread "c"];
               NextPageToken := "t2"; ResultSizeEstimate := 7 |});
      Sleep 200;
      ListPage "me" "CATEGORY_UPDATES" 2 "t2"
        (Ok {| Threads := []; NextPageToken := "t3"; ResultSizeEstimate := 7 |})],
     Ok [Build_Thread "a"; Build_Thread "b"; Build_Thread "c"]).
Proof. vm_compute. reflexivity. Qed.

Example page_failure_text :
  value_of (ListCategoryThreads scripted "me" "CATEGORY_UPDATES" 5
              [page ["a"] "t1" 7; RList (Err "boom")])
  = Err "failed to list category threads for CATEGORY_UPDATES (page 2): boom".
Proof. vm_compute. reflexivity. Qed.

(** C1, the claim as it stands fails: with "TRASH" requested twice the
    run returns a summary whose total is 3 while its only entry
    holds 1. *)
Lemma repeated_label_total_differs :
  exists s, value_of twoTrashPasses = Ok s /\
            PerCategoryDeleted s = {[ "TRASH" := 1 ]} /\
            TotalDeleted s = 3 /\
            TotalDeleted s <> sumValues (PerCategoryDeleted s).
Proof.
  eexists. split; [vm_compute; reflexivity|].
  cbn [PerCategoryDeleted TotalDeleted].
  split; [vm_compute; reflexivity|]. split; [reflexivity|].
  vm_compute. discriminate.
Qed.

Lemma summary_counts_witness :
  value_of promotionsThenTrash = Ok promotionsThenTrashSummary /\
  NoDup ["CATEGORY_PROMOTIONS"; "TRASH"] /\
  dom (PerCategoryDeleted promotionsThenTrashSummary)
  = list_to_set ["CATEGORY_PROMOTIONS"; "TRASH"] /\
  TotalDeleted promotionsThenTrashSummary
  = sumValues (PerCategoryDeleted promotionsThenTrashSummary) /\
  size (PerCategoryDeleted promotionsThenTrashSummary) = 2%nat.
Proof.
  assert (Hv : value_of promotionsThenTrash = Ok promotionsThenTrashSummary)
    by (vm_compute; reflexivity).
  assert (Hnd : NoDup ["CATEGORY_PROMOTIONS"; "TRASH"])
    by (apply (bool_decide_unpack (NoDup ["CATEGORY_PROMOTIONS"; "TRASH"]));
        vm_compute; exact I).
  destruct (summary_counts scripted "me" ["CATEGORY_PROMOTIONS"; "TRASH"] 10 _ _ Hv)
    as [Hdom Hsum].
  destruct (Hsum Hnd) as [Ht Hs].
  repeat split; assumption.
Defined.

(** C2, the claim as it stands fails: the estimate of the first
    category fails, so that its check found nothing at all, zero
    remaining items least of all; the summary is completed all the
    same. *)
Lemma failed_estimate_still_completed :
  value_of estimateDown = Ok estimateDownSummary /\
  Completed estimateDownSummary = true /\
  checks (trace_of estimateDown)
  = [ {| checkLabel := "CATEGORY_SOCIAL"; checkCount := 1;
         checkEstimate := Some failedEstimate |};
      {| checkLabel := "CATEGORY_FORUMS"; checkCount := 0;
         checkEstimate := Some (nothingLeft "CATEGORY_FORUMS") |} ] /\
  estimateFailed failedEstimate = true /\
  ~ foundNothingLeft 10
      {| checkLabel := "CATEGORY_SOCIAL"; checkCount := 1;
         checkEstimate := Some failedEstimate |} /\
  ~ (Completed estimateDownSummary = true <->
     Forall (foundNothingLeft 10) (checks (trace_of estimateDown))).
Proof.
  assert (Hcs : checks (trace_of estimateDown)
          = [ {| checkLabel := "CATEGORY_SOCIAL"; checkCount := 1;
                 checkEstimate := Some failedEstimate |};
              {| checkLabel := "CATEGORY_FORUMS"; checkCount := 0;
                 checkEstimate := Some (nothingLeft "CATEGORY_FORUMS") |} ])
    by (vm_compute; reflexivity).
  assert (Hno : ~ foundNothingLeft 10
                  {| checkLabel := "CATEGORY_SOCIAL"; checkCount := 1;
                     checkEstimate := Some failedEstimate |})
    by (intros [_ []]).
  split; [vm_compute; reflexivity|]. split; [reflexivity|]. split; [exact Hcs|].
  split; [reflexivity|]. split; [exact Hno|].
  rewrite Hcs. intros [Hall _]. specialize (Hall eq_refl).
  inversion Hall as [|? ? Hfirst _]. exact (Hno Hfirst).
Qed.

Lemma completed_iff_witness :
  value_of promotionsThenTrash = Ok promotionsThenTrashSummary /\
  Forall estimateAnswered (checks (trace_of promotionsThenTrash)) /\
  checks (trace_of promotionsThenTrash)
  = [ {| checkLabel := "CATEGORY_PROMOTIONS"; checkCount := 2;
         checkEstimate := Some (nothingLeft "CATEGORY_PROMOTIONS") |};
      {| checkLabel := "TRASH"; checkCount := 1;
         checkEstimate := Some (nothingLeft "TRASH") |} ] /\
  Forall (estimateDue "me" 10) (checks (trace_of promotionsThenTrash)) /\
  Forall (foundNothingLeft 10) (checks (trace_of promotionsThenTrash)) /\
  Reason promotionsThenTrashSummary = reasonAllProcessed /\
  value_of remainingThenCap = Ok remainingThenCapSummary /\
  checks (trace_of remainingThenCap)
  = [ {| checkLabel := "CATEGORY_SOCIAL"; checkCount := 1;
         checkEstimate := Some fourLeft |};
      {| checkLabel := "CATEGORY_PROMOTIONS"; checkCount := 2;
         checkEstimate := None |} ] /\
  Forall (estimateDue "me" 2) (checks (trace_of remainingThenCap)) /\
  ~ Forall (leavesCompleted 2) (checks (trace_of remainingThenCap)).
Proof.
  assert (Hv : value_of promotionsThenTrash = Ok promotionsThenTrashSummary)
    by (vm_compute; reflexivity).
  assert (Ha : Forall estimateAnswered (checks (trace_of promotionsThenTrash))).
  { vm_compute.
    repeat (apply List.Forall_cons; [vm_compute; first [exact I|discriminate]|]).
    apply List.Forall_nil. }
  assert (Hv' : value_of remainingThenCap = Ok remainingThenCapSummary)
    by (vm_compute; reflexivity).
  destruct (completed_iff scripted "me" ["CATEGORY_PROMOTIONS"; "TRASH"] 10 _ _ Hv)
    as (_ & _ & Hd & _ & Hr & Hz).
  destruct (completed_iff scripted "me" ["CATEGORY_SOCIAL"; "CATEGORY_PROMOTIONS"] 2
              _ _ Hv') as (_ & _ & Hd' & Hc' & _).
  split; [exact Hv|]. split; [exact Ha|]. split; [vm_compute; reflexivity|].
  split; [exact Hd|]. split; [exact (proj1 (Hz Ha) eq_refl)|].
  split; [exact (Hr eq_refl)|]. split; [exact Hv'|].
  split; [vm_compute; reflexivity|]. split; [exact Hd'|].
  intros Hall. apply Hc' in Hall. discriminate Hall.
Defined.

(** C5, the claim as it stands fails: the social category triggers
    the remaining-emails reason, the promotions category then reaches
    the cap, and the reason returned is not the remaining-emails
    one. *)
Lemma later_cap_overwrites_remaining :
  value_of remainingThenCap = Ok remainingThenCapSummary /\
  trace_of remainingThenCap
  = take 3 (trace_of remainingThenCap) ++ fourLeft
    :: take 4 (drop 4 (trace_of remainingThenCap)) ++ capHit :: [Sleep 200] /\
  remainingFound fourLeft = true /\
  capReached 2 capHit = true /\
  Reason remainingThenCapSummary <> reasonRemaining.
Proof.
  split; [vm_compute; reflexivity|]. split; [vm_compute; reflexivity|].
  split; [reflexivity|]. split; [reflexivity|]. discriminate.
Qed.

Lemma reason_last_write_wins_witness :
  value_of remainingThenCap = Ok remainingThenCapSummary /\
  trace_of remainingThenCap
  = take 3 (trace_of remainingThenCap) ++ fourLeft
    :: take 4 (drop 4 (trace_of remainingThenCap)) ++ capHit :: [Sleep 200] /\
  remainingFound fourLeft = true /\
  capReached 2 capHit = true /\
  Forall (fun e => remainingFound e = false) [Sleep 200] /\
  Completed remainingThenCapSummary = false /\
  Reason remainingThenCapSummary = reasonMaxReached.
Proof.
  assert (Hv : value_of remainingThenCap = Ok remainingThenCapSummary)
    by (vm_compute; reflexivity).
  assert (Hlog : trace_of remainingThenCap
    = take 3 (trace_of remainingThenCap) ++ fourLeft
      :: take 4 (drop 4 (trace_of remainingThenCap)) ++ capHit :: [Sleep 200])
    by (vm_compute; reflexivity).
  assert (Hpost : Forall (fun e => remainingFound e = false) [Sleep 200])
    by (repeat constructor).
  destruct (reason_last_write_wins scripted "me"
              ["CATEGORY_SOCIAL"; "CATEGORY_PROMOTIONS"] 2 _ _ _ _ _ _ _
              Hv Hlog eq_refl eq_refl Hpost) as [Hc Hr].
  repeat split; assumption.
Defined.

(** C3, the claim as it stands fails: the estimate of the first
    category fails, and CleanCategories goes on to the second category
    and returns a summary. *)
Lemma estimate_failure_goes_on :
  failedEstimate ∈ trace_of estimateDown /\
  estimateFailed failedEstimate = true /\
  processed (trace_of estimateDown)
  = [("CATEGORY_SOCIAL", 1); ("CATEGORY_FORUMS", 0)] /\
  value_of estimateDown = Ok estimateDownSummary.
Proof.
  split; [|split; [reflexivity|split; vm_compute; reflexivity]].
  apply list_elem_of_lookup. exists 3%nat. vm_compute. reflexivity.
Qed.

Lemma failure_aborts_witness :
  trace_of secondTrashFailsRun = take 2 (trace_of secondTrashFailsRun) ++ [refusedCall] /\
  fatal refusedCall = true /\
  value_of secondTrashFailsRun = Err secondTrashFailsError /\
  (exists e, value_of secondTrashFailsRun = Err e /\
             is_substring (failureText refusedCall) e) /\
  (exists pre ev, trace_of secondTrashFailsRun = pre ++ [ev] /\ fatal ev = true /\
                  estimateFailed ev = false /\
                  is_substring (failureText ev) secondTrashFailsError) /\
  trace_of estimateDown
  = take 3 (trace_of estimateDown) ++ failedEstimate :: drop 4 (trace_of estimateDown) /\
  estimateFailed failedEstimate = true /\
  (exists post', drop 4 (trace_of estimateDown) = Sleep 200 :: post').
Proof.
  assert (Hlog : trace_of secondTrashFailsRun
                 = take 2 (trace_of secondTrashFailsRun) ++ [refusedCall])
    by (vm_compute; reflexivity).
  assert (Hv : value_of secondTrashFailsRun = Err secondTrashFailsError)
    by (vm_compute; reflexivity).
  assert (Hest : trace_of estimateDown
                 = take 3 (trace_of estimateDown) ++ failedEstimate
                   :: drop 4 (trace_of estimateDown))
    by (vm_compute; reflexivity).
  destruct (failure_aborts scripted "me" ["CATEGORY_UPDATES"; "TRASH"] 10
              secondTrashFails) as (Hlast & Herr & _).
  destruct (failure_aborts scripted "me" ["CATEGORY_SOCIAL"; "CATEGORY_FORUMS"] 10
              [page ["s1"] "" 1; modified "s1";
               RList (Err "googleapi: Error 503: backendError");
               page [] "" 0; page [] "" 0]) as (_ & _ & Hgo).
  destruct (Hlast _ _ _ Hlog eq_refl) as [_ He].
  split; [exact Hlog|]. split; [reflexivity|]. split; [exact Hv|].
  split; [exact He|]. split; [exact (Herr _ Hv)|].
  split; [exact Hest|]. split; [reflexivity|].
  exact (Hgo _ _ _ Hest eq_refl).
Defined.


Lemma page_requests_witness :
  1 <= 5 /\
  Forall (fun e => 1 <= requestedSize e <= 500)
    (pagesOf (trace_of
       (ListCategoryThreads scripted "me" "CATEGORY_UPDATES" 5 threePages))) /\
  Forall (fun e => 1 <= requestedSize e <= 500)
    (pagesOf (trace_of (ListTrashThreads scripted "me" 5 threePages))) /\
  requestsMin 5 0
    (trace_of (ListCategoryThreads scripted "me" "CATEGORY_UPDATES" 5 threePages)).
Proof.
  assert (H5 : 1 <= 5) by lia.
  destruct (page_requests scripted "me" "CATEGORY_UPDATES" 5 threePages)
    as (Hmin & _ & _ & _ & Hsizes).
  destruct (Hsizes H5) as [Hc Ht].
  repeat split; assumption.
Defined.

Lemma pagination_stops_witness :
  1 <= 1200 /\
  Forall fullPage
    (trace_of (ListCategoryThreads scripted "me" "CATEGORY_UPDATES" 1200 fullPages)) /\
  map requestedSize
    (pagesOf (trace_of (ListCategoryThreads scripted "me" "CATEGORY_UPDATES" 1200
                          fullPages)))
  = [500; 500; 200] /\
  Z.of_nat (length (pagesOf (trace_of
    (ListCategoryThreads scripted "me" "CATEGORY_UPDATES" 1200 fullPages))))
  <= (1200 + 499) / 500 /\
  world_of (ListCategoryThreads scripted "me" "CATEGORY_UPDATES" 1200 fullPages)
  = [page (numbered 1200 100) "" 1300] /\
  ~ stopAfter 5 (fetched [])
      {| Threads := [Build_Thread "a"; Build_Thread "b"]; NextPageToken := "t1";
         ResultSizeEstimate := 7 |} /\
  (exists r post',
     drop 1 (trace_of (ListTrashThreads scripted "me" 5 threePages))
     = Sleep 200 :: ListPage "me" "TRASH" 3 "t1" r :: post') /\
  stopAfter 5 3 emptyThird /\
  trace_of (ListTrashThreads scripted "me" 5 threePages)
  = take 4 (trace_of (ListTrashThreads scripted "me" 5 threePages))
    ++ [ListPage "me" "TRASH" 2 "t2" (Ok emptyThird)].
Proof.
  assert (H1 : 1 <= 1200) by lia.
  assert (Hfull : Forall fullPage
            (trace_of (ListCategoryThreads scripted "me" "CATEGORY_UPDATES" 1200
                         fullPages))).
  { vm_compute.
    repeat (apply List.Forall_cons; [vm_compute; first [exact I|reflexivity]|]).
    apply List.Forall_nil. }
  assert (Hgo : ~ stopAfter 5 (fetched [])
                  {| Threads := [Build_Thread "a"; Build_Thread "b"];
                     NextPageToken := "t1"; ResultSizeEstimate := 7 |}).
  { unfold stopAfter, fetched, pageLength. cbn. intros [H|[H|H]]; [discriminate H|lia|lia]. }
  destruct (pagination_stops scripted "me" "CATEGORY_UPDATES" 1200 fullPages)
    as (_ & _ & _ & _ & _ & _ & _ & _ & _ & _ & Hcount).
  destruct (pagination_stops scripted "me" "CATEGORY_UPDATES" 5 threePages)
    as (_ & _ & _ & _ & _ & Hnext & _).
  destruct (Hnext [] "me" "TRASH" 5 ""
              {| Threads := [Build_Thread "a"; Build_Thread "b"];
                 NextPageToken := "t1"; ResultSizeEstimate := 7 |}
              (drop 1 (trace_of (ListTrashThreads scripted "me" 5 threePages)))
              eq_refl) as [_ Hmore].
  split; [exact H1|]. split; [exact Hfull|].
  split; [vm_compute; reflexivity|].
  split; [exact (proj1 (Hcount H1) Hfull)|].
  split; [vm_compute; reflexivity|].
  split; [exact Hgo|]. split; [exact (Hmore Hgo)|].
  split; [right; right; reflexivity|]. vm_compute. reflexivity.
Defined.

Lemma zero_cap_is_million_witness :
  handler.bindingOk unlimitedTrash = true /\
  handler.MaxPerCategory unlimitedTrash = 0 /\
  trace_of (handler.Clean scripted (Ok unlimitedTrash) emptyMailbox)
  = trace_of (CleanCategories scripted "me" ["TRASH"] 1000000 emptyMailbox) /\
  exists label r log,
    trace_of (handler.Clean scripted (Ok unlimitedTrash) emptyMailbox)
    = ListPage "me" label 500 "" r :: log.
Proof.
  assert (Hok : handler.bindingOk unlimitedTrash = true) by (vm_compute; reflexivity).
  destruct (zero_cap_is_million scripted unlimitedTrash emptyMailbox Hok eq_refl)
    as (_ & Ht & _ & Hfirst).
  repeat split; assumption.
Defined.

Lemma auth_errors_distinct_witness :
  value_of (CleanCategories scripted "me" ["CATEGORY_UPDATES"; "TRASH"] 10
              secondTrashFails) = Err secondTrashFailsError /\
  IsAuthError (Some secondTrashFailsError) = true /\
  handler.status (value_of (handler.Clean scripted (Ok updatesAndTrash) secondTrashFails))
  = 401.
Proof.
  assert (Hv : value_of (CleanCategories scripted "me" ["CATEGORY_UPDATES"; "TRASH"] 10
                           secondTrashFails) = Err secondTrashFailsError)
    by (vm_compute; reflexivity).
  destruct (auth_errors_distinct scripted updatesAndTrash secondTrashFails _ Hv)
    as [_ Hr].
  split; [exact Hv|]. split; [vm_compute; reflexivity|].
  rewrite Hr. reflexivity.
Defined.

Lemma empty_batch_is_noop_witness :
  value_of (ListCategoryThreads scripted "me" "CATEGORY_FORUMS" 10 emptyMailbox) = Ok [] /\
  exists s, value_of (CleanCategories scripted "me" ["CATEGORY_FORUMS"] 10 emptyMailbox)
            = Ok s /\
            PerCategoryDeleted s = {[ "CATEGORY_FORUMS" := 0 ]} /\
            TotalDeleted s = 0.
Proof.
  assert (Hl : value_of (ListCategoryThreads scripted "me" "CATEGORY_FORUMS" 10
                           emptyMailbox) = Ok []) by (vm_compute; reflexivity).
  destruct (empty_batch_is_noop scripted "me" emptyMailbox) as (_ & _ & _ & Hsum).
  split; [exact Hl|]. exact (Hsum 10 "CATEGORY_FORUMS" Hl).
Defined.

End Scenarios.

(** ** More on the thread lister *)

Section ListerMore.
Context (userID label : string) (max : Z).

Lemma pagination_tokens total tok log :
  pagination userID label max total tok log ->
  tokensChain tok (pagesOf log) /\ Forall (sameTarget userID label) log.
Proof.
  induction 1 as [total tok err|total tok res Hstop|total tok res rest Hgo _ [IH1 IH2]].
  - split; [now cbn|]. repeat constructor.
  - split; [now cbn|]. repeat constructor.
  - split.
    + unfold pagesOf in *. cbn [List.filter isPage tokensChain]. now split.
    + repeat constructor. exact IH2.
Qed.

Lemma pagination_pauses total tok log :
  pagination userID label max total tok log ->
  List.filter notPage log = repeat (Sleep 200) (length (pagesOf log) - 1) /\
  exists pre p, log = pre ++ [p] /\ isPage p = true.
Proof.
  induction 1 as [total tok err|total tok res Hstop
                 |total tok res rest Hgo Hrest [IH1 (pre & p & -> & Hp)]].
  - split; [reflexivity|]. now eexists [], _.
  - split; [reflexivity|]. now eexists [], _.
  - split.
    + unfold pagesOf in *. cbn [List.filter notPage isPage negb length].
      rewrite IH1. rewrite List.filter_app, length_app. cbn [List.filter].
      rewrite Hp. cbn [length].
      replace (S (length (List.filter isPage pre) + 1) - 1)%nat
        with (S (length (List.filter isPage pre) + 1 - 1))%nat by lia.
      reflexivity.
    + eexists (_ :: _ :: pre), p. split; [reflexivity|exact Hp].
Qed.

Lemma pagination_error_page total tok log :
  pagination userID label max total tok log ->
  forall wrap pageCount allThreads e,
    pagesResult wrap pageCount allThreads log = Err e ->
    exists pre n tok' err,
      log = pre ++ [ListPage userID label n tok' (Err err)] /\
      noFailure pre /\
      e = wrap (pageCount + Z.of_nat (length (pagesOf log))) err.
Proof.
  induction 1 as [total tok err|total tok res Hstop|total tok res rest Hgo _ IH];
    intros wrap pageCount allThreads e.
  - cbn. intros [= <-]. exists [], (pageSizeFor max total), tok, err.
    repeat split. constructor.
  - cbn. discriminate.
  - cbn [pagesResult]. intros He.
    destruct (IH _ _ _ _ He) as (pre & n & tok' & err & -> & Hn & ->).
    eexists (_ :: _ :: pre), n, tok', err. split; [reflexivity|].
    split; [repeat constructor; exact Hn|].
    unfold pagesOf. cbn [List.filter isPage length].
    rewrite Nat2Z.inj_succ, <- Z.add_1_l, Z.add_assoc. reflexivity.
Qed.

Lemma pagination_honest total tok log :
  pagination userID label max total tok log ->
  total < max ->
  Forall honestPage log ->
  total + Z.of_nat (length (listedThreads log)) <= max.
Proof.
  induction 1 as [total tok err|total tok res Hstop|total tok res rest Hgo _ IH];
    intros Hlt Hh.
  - cbn. lia.
  - apply Forall_cons in Hh as [Hp _]. cbn [honestPage] in Hp.
    unfold pageSizeFor, pageLength in Hp.
    unfold listedThreads. cbn [flat_map listedBy]. rewrite app_nil_r, length_map. lia.
  - apply Forall_cons in Hh as [Hp Hh]. apply Forall_cons in Hh as [_ Hh].
    assert (Hrest : total + pageLength res < max)
      by (unfold stopAfter in Hgo; lia).
    specialize (IH Hrest Hh).
    unfold listedThreads in *. cbn [flat_map listedBy app].
    rewrite length_app, length_map. unfold pageLength in *. lia.
Qed.

End ListerMore.

Section ListerExtras.
Context {World : Type} (api : Api World).

Lemma listedOnly_pairs label threads log :
  listedThreads log = map (pair label) threads -> listedOnly log = threads.
Proof.
  unfold listedOnly. intros ->. rewrite map_map. cbn [snd]. apply map_id.
Qed.

(** X1.  When a listing succeeds, what it returns is exactly the
    threads of the pages it fetched, in the order they came, and no
    page failed; a listing makes no call that changes the mailbox and
    asks for no estimate. *)
Theorem listing_returns_pages (userID label : string) (max : Z) (w : World) :
  let cat := ListCategoryThreads api userID label max w in
  let trash := ListTrashThreads api userID max w in
  (forall threads, value_of cat = Ok threads ->
     threads = listedOnly (trace_of cat) /\ noFailure (trace_of cat)) /\
  (forall threads, value_of trash = Ok threads ->
     threads = listedOnly (trace_of trash) /\ noFailure (trace_of trash)) /\
  mutations (trace_of cat) = [] /\ mutations (trace_of trash) = [] /\
  estimatesOf (trace_of cat) = [] /\ estimatesOf (trace_of trash) = [].
Proof.
  intros cat trash. subst cat trash.
  destruct (ListCategoryThreads_run api userID label max w) as [Hc Hcv].
  destruct (ListTrashThreads_run api userID max w) as [Ht Htv].
  pose proof (pagination_result _ _ _ _ _ _ Hc (wrapCategoryPage label) 0 []) as Hcr.
  pose proof (pagination_result _ _ _ _ _ _ Ht wrapTrashPage 0 []) as Htr.
  rewrite <- Hcv in Hcr. rewrite <- Htv in Htr.
  pose proof (pagination_events _ _ _ _ _ _ Hc) as Hce.
  pose proof (pagination_events _ _ _ _ _ _ Ht) as Hte.
  split; [|split; [|split; [|split; [|split]]]].
  - intros threads Hv. rewrite Hv in Hcr. destruct Hcr as (new & -> & Hl & Hn).
    split; [|exact Hn]. cbn [app]. symmetry. eapply listedOnly_pairs, Hl.
  - intros threads Hv. rewrite Hv in Htr. destruct Htr as (new & -> & Hl & Hn).
    split; [|exact Hn]. cbn [app]. symmetry. eapply listedOnly_pairs, Hl.
  - apply (pageOrSleep_quiet 0 _ Hce).
  - apply (pageOrSleep_quiet 0 _ Hte).
  - apply quiet_filter, (pageOrSleep_checks 0 _ Hce).
  - apply quiet_filter, (pageOrSleep_checks 0 _ Hte).
Qed.

(** X2.  When a listing fails, the failed page request is the last
    thing it did, every page before it had succeeded, and the error
    is the provider's error wrapped with the number of that page,
    which is the number of page requests made. *)
Theorem listing_error_names_page (userID label : string) (max : Z) (w : World) :
  let cat := ListCategoryThreads api userID label max w in
  let trash := ListTrashThreads api userID max w in
  (forall e, value_of cat = Err e ->
     exists pre n tok err,
       trace_of cat = pre ++ [ListPage userID label n tok (Err err)] /\
       noFailure pre /\
       e = "failed to list category threads for " +:+ label +:+ " (page " +:+
           pretty (Z.of_nat (length (pagesOf (trace_of cat)))) +:+ "): " +:+ err) /\
  (forall e, value_of trash = Err e ->
     exists pre n tok err,
       trace_of trash = pre ++ [ListPage userID "TRASH" n tok (Err err)] /\
       noFailure pre /\
       e = "failed to list trash threads (page " +:+
           pretty (Z.of_nat (length (pagesOf (trace_of trash)))) +:+ "): " +:+ err).
Proof.
  intros cat trash. subst cat trash.
  destruct (ListCategoryThreads_run api userID label max w) as [Hc Hcv].
  destruct (ListTrashThreads_run api userID max w) as [Ht Htv].
  split; intros e Hv.
  - rewrite Hcv in Hv.
    destruct (pagination_error_page _ _ _ _ _ _ Hc _ _ _ _ Hv)
      as (pre & n & tok & err & Hlog & Hn & ->).
    exists pre, n, tok, err. now rewrite Z.add_0_l.
  - rewrite Htv in Hv.
    destruct (pagination_error_page _ _ _ _ _ _ Ht _ _ _ _ Hv)
      as (pre & n & tok & err & Hlog & Hn & ->).
    exists pre, n, tok, err. now rewrite Z.add_0_l.
Qed.

(** X3.  With a maximum of at least 1, if no page returns more
    threads than were requested, a listing returns at most [max]
    threads. *)
Theorem listing_respects_max (userID label : string) (max : Z) (w : World)
    (threads : list Thread) :
  1 <= max ->
  let cat := ListCategoryThreads api userID label max w in
  let trash := ListTrashThreads api userID max w in
  (Forall honestPage (trace_of cat) -> value_of cat = Ok threads ->
   Z.of_nat (length threads) <= max) /\
  (Forall honestPage (trace_of trash) -> value_of trash = Ok threads ->
   Z.of_nat (length threads) <= max).
Proof.
  intros Hmax cat trash. subst cat trash.
  destruct (ListCategoryThreads_run api userID label max w) as [Hc Hcv].
  destruct (ListTrashThreads_run api userID max w) as [Ht Htv].
  pose proof (pagination_result _ _ _ _ _ _ Hc (wrapCategoryPage label) 0 []) as Hcr.
  pose proof (pagination_result _ _ _ _ _ _ Ht wrapTrashPage 0 []) as Htr.
  rewrite <- Hcv in Hcr. rewrite <- Htv in Htr.
  split; intros Hh Hv.
  - rewrite Hv in Hcr. destruct Hcr as (new & -> & Hl & _).
    pose proof (pagination_honest _ _ _ _ _ _ Hc ltac:(lia) Hh) as Hb.
    rewrite Hl, length_map in Hb. cbn [app]. lia.
  - rewrite Hv in Htr. destruct Htr as (new & -> & Hl & _).
    pose proof (pagination_honest _ _ _ _ _ _ Ht ltac:(lia) Hh) as Hb.
    rewrite Hl, length_map in Hb. cbn [app]. lia.
Qed.

(** X4.  The first page request of a listing carries no page token
    and each later one carries the NextPageToken of the answer before
    it; all of them ask for the same user and the same label, which is
    "TRASH" for ListTrashThreads. *)
Theorem listing_token_chain (userID label : string) (max : Z) (w : World) :
  let cat := trace_of (ListCategoryThreads api userID label max w) in
  let trash := trace_of (ListTrashThreads api userID max w) in
  tokensChain "" (pagesOf cat) /\ Forall (sameTarget userID label) cat /\
  tokensChain "" (pagesOf trash) /\ Forall (sameTarget userID "TRASH") trash.
Proof.
  intros cat trash. subst cat trash.
  destruct (ListCategoryThreads_run api userID label max w) as [Hc _].
  destruct (ListTrashThreads_run api userID max w) as [Ht _].
  destruct (pagination_tokens _ _ _ _ _ _ Hc) as [Hc1 Hc2].
  destruct (pagination_tokens _ _ _ _ _ _ Ht) as [Ht1 Ht2].
  repeat split; assumption.
Qed.

(** X5.  A listing pauses 200 ms between two page requests and at no
    other time: what it does besides the page requests is one pause
    fewer than there are pages, and the last thing it does is a page
    request. *)
Theorem listing_pauses (userID label : string) (max : Z) (w : World) :
  let cat := trace_of (ListCategoryThreads api userID label max w) in
  let trash := trace_of (ListTrashThreads api userID max w) in
  List.filter notPage cat = repeat (Sleep 200) (length (pagesOf cat) - 1) /\
  (exists pre p, cat = pre ++ [p] /\ isPage p = true) /\
  List.filter notPage trash = repeat (Sleep 200) (length (pagesOf trash) - 1) /\
  (exists pre p, trash = pre ++ [p] /\ isPage p = true).
Proof.
  intros cat trash. subst cat trash.
  destruct (ListCategoryThreads_run api userID label max w) as [Hc _].
  destruct (ListTrashThreads_run api userID max w) as [Ht _].
  destruct (pagination_pauses _ _ _ _ _ _ Hc) as [Hc1 Hc2].
  destruct (pagination_pauses _ _ _ _ _ _ Ht) as [Ht1 Ht2].
  repeat split; assumption.
Qed.

End ListerExtras.

(** ** More on the batches *)

Section BatchExtras.
Context {World : Type} (api : Api World).

Lemma trashEach_failure userID ids w e :
  value_of (trashEach api userID ids w) = Some e ->
  exists done tid rest err oks,
    ids = done ++ tid :: rest /\
    trace_of (trashEach api userID ids w)
    = oks ++ [ModifyCall userID tid ["TRASH"] ["INBOX"] (Err err)] /\
    Forall2 (fun t ev => exists r,
               ev = ModifyCall userID t ["TRASH"] ["INBOX"] (Ok r)) done oks /\
    e = "failed to trash thread " +:+ tid +:+ ": " +:+ err.
Proof.
  revert w. induction ids as [|tid ids IH]; intros w; [discriminate|].
  cbn [trashEach]. rewrite bind_trace, bind_value, doModify_trace.
  destruct (value_of (doModify _ _ _ _ _ _)) as [t|err] eqn:Hr.
  - intros He. destruct (IH _ He) as (done & tid' & rest & err & oks & -> & -> & Hn & ->).
    exists (tid :: done), tid', rest, err,
      (ModifyCall userID tid ["TRASH"] ["INBOX"] (Ok t) :: oks).
    repeat split. constructor; [now exists t|exact Hn].
  - cbn [ret value_of trace_of fst snd app]. intros [= <-].
    exists [], tid, ids, err, []. repeat split. constructor.
Qed.

Lemma deleteEach_failure userID ids w e :
  value_of (deleteEach api userID ids w) = Some e ->
  exists done tid rest err,
    ids = done ++ tid :: rest /\
    trace_of (deleteEach api userID ids w)
    = map (fun t => DeleteCall userID t None) done
      ++ [DeleteCall userID tid (Some err)] /\
    e = "failed to permanently delete thread " +:+ tid +:+ ": " +:+ err.
Proof.
  revert w. induction ids as [|tid ids IH]; intros w; [discriminate|].
  cbn [deleteEach]. rewrite bind_trace, bind_value, doDelete_trace.
  destruct (value_of (doDelete _ _ _ _)) as [err|] eqn:Hr.
  - cbn [ret value_of trace_of fst snd app]. intros [= <-].
    now exists [], tid, ids, err.
  - intros He. destruct (IH _ He) as (done & tid' & rest & err & -> & -> & ->).
    now exists (tid :: done), tid', rest, err.
Qed.

(** X6.  When BatchTrashThreads fails, it has stopped at the first
    thread that could not be trashed: the threads before it have been
    moved to trash, one successful call each and in order, the failed
    call is the last one made, no call was made for the threads after
    it, and the error names the thread and carries the provider's
    error. *)
Theorem batch_trash_stops_at_failure (userID : string) (ids : list string)
    (w : World) (e : error) :
  value_of (BatchTrashThreads api userID ids w) = Some e ->
  exists done tid rest err oks,
    ids = done ++ tid :: rest /\
    trace_of (BatchTrashThreads api userID ids w)
    = oks ++ [ModifyCall userID tid ["TRASH"] ["INBOX"] (Err err)] /\
    Forall2 (fun t ev => exists r,
               ev = ModifyCall userID t ["TRASH"] ["INBOX"] (Ok r)) done oks /\
    e = "failed to trash thread " +:+ tid +:+ ": " +:+ err.
Proof.
  rewrite BatchTrashThreads_each. apply trashEach_failure.
Qed.

(** X7.  When BatchDeleteThreadsPermanently fails, it has stopped at
    the first thread that could not be deleted: the threads before it
    have been deleted for good, one successful call each and in
    order, the failed call is the last one made, no call was made for
    the threads after it, and the error names the thread and carries
    the provider's error. *)
Theorem batch_delete_stops_at_failure (userID : string) (ids : list string)
    (w : World) (e : error) :
  value_of (BatchDeleteThreadsPermanently api userID ids w) = Some e ->
  exists done tid rest err,
    ids = done ++ tid :: rest /\
    trace_of (BatchDeleteThreadsPermanently api userID ids w)
    = map (fun t => DeleteCall userID t None) done
      ++ [DeleteCall userID tid (Some err)] /\
    e = "failed to permanently delete thread " +:+ tid +:+ ": " +:+ err.
Proof.
  rewrite BatchDeleteThreadsPermanently_each. apply deleteEach_failure.
Qed.

End BatchExtras.

(** ** More on the cleaner *)

Section CategoryShape.
Context (userID : string) (maxPerCat : Z).

Lemma pagination_labels label max total tok log :
  pagination userID label max total tok log ->
  Forall (fun p : string * Thread => p.1 = label) (listedThreads log).
Proof.
  induction 1 as [total tok err|total tok res Hstop|total tok res rest Hgo _ IH];
    unfold listedThreads in *; cbn [flat_map listedBy app].
  - constructor.
  - rewrite app_nil_r. apply Forall_map. now apply Forall_true.
  - apply Forall_app. split; [|exact IH].
    apply Forall_map. now apply Forall_true.
Qed.

(** The transcript of one iteration is the pages of its listing and
    then events that are no pages; the count it leaves, if any, is the
    number of threads those pages listed. *)
Lemma categoryRun_shape label vars log r :
  categoryRun userID maxPerCat label vars log r ->
  exists pages rest,
    log = pages ++ rest /\
    pagination userID label maxPerCat 0 "" pages /\
    pagesOf rest = [] /\ listedThreads rest = [] /\
    processed log
    = match r with
      | Ok _ => [(label, Z.of_nat (length (listedThreads pages)))]
      | Err _ => []
      end.
Proof.
  destruct 1 as [pre ev e Hp _ _ _
                |pages threads muts e Hp _ Hl [Hm _]
                |pages threads muts ests Hp _ Hl [Hm _] Hests done].
  - exists (pre ++ [ev]), []. rewrite app_nil_r. repeat split; try assumption.
    apply (pageOrSleep_quiet maxPerCat _ (pagination_events _ _ _ _ _ _ Hp)).
  - exists pages, muts.
    destruct (isMutation_quiet maxPerCat muts Hm) as (Hm1 & Hm2 & _ & _ & _ & Hm6).
    destruct (pageOrSleep_quiet maxPerCat _ (pagination_events _ _ _ _ _ _ Hp))
      as (_ & Hp2 & _).
    repeat split; try assumption. now rewrite processed_app, Hp2, Hm2.
  - exists pages, (muts ++ done :: ests ++ [Sleep 200]).
    destruct (isMutation_quiet maxPerCat muts Hm) as (Hm1 & Hm2 & _ & _ & _ & Hm6).
    destruct (pageOrSleep_quiet maxPerCat _ (pagination_events _ _ _ _ _ _ Hp))
      as (_ & Hp2 & _).
    destruct (category_tail userID maxPerCat label (Z.of_nat (length threads))
                (String.eqb label "TRASH") ests Hests) as (_ & Ht2 & Ht3 & _).
    fold done in Ht2, Ht3.
    assert (Htp : pagesOf (done :: ests ++ [Sleep 200]) = []).
    { subst done. destruct (maxPerCat <=? Z.of_nat (length threads)).
      - now subst ests.
      - now destruct Hests as [r ->]. }
    repeat split; try assumption.
    + unfold pagesOf in *. now rewrite List.filter_app, Hm6, Htp.
    + now rewrite listedThreads_app, Hm1, Ht2.
    + rewrite !processed_app, Hp2, Hm2, Ht3, Hl, length_map. reflexivity.
Qed.

End CategoryShape.

Section LoopShape.
Context {World : Type} (api : Api World) (userID : string) (maxPerCat : Z).

(** In every run the calls that change the mailbox are the first of
    those prescribed for the threads listed. *)
Lemma cleanLoop_routed categories vars w :
  let log := trace_of (cleanLoop api userID maxPerCat categories vars w) in
  mutations log `prefix_of` map (route userID) (listedThreads log).
Proof.
  cbv zeta.
  destruct (value_of (cleanLoop api userID maxPerCat categories vars w))
    as [s|e] eqn:Hv.
  - destruct (cleanLoop_ok api userID maxPerCat categories vars w s Hv)
      as (_ & _ & _ & _ & _ & _ & -> & _). reflexivity.
  - now destruct (cleanLoop_err api userID maxPerCat categories vars w e Hv)
      as (_ & _ & _ & _ & _ & _ & Hp).
Qed.

(** The threads listed in a run were listed under requested labels,
    and the page requests of a run are those of its listings. *)
Lemma cleanLoop_listed categories vars w :
  let log := trace_of (cleanLoop api userID maxPerCat categories vars w) in
  Forall (fun p : string * Thread => p.1 ∈ categories) (listedThreads log) /\
  (1 <= maxPerCat -> Forall (fun e => 1 <= requestedSize e <= 500) (pagesOf log)).
Proof.
  revert vars w. induction categories as [|label rest IH]; intros vars w.
  - cbn. split; [constructor|]. intros _. constructor.
  - cbn [cleanLoop]. cbv zeta. rewrite bind_trace.
    destruct (categoryRun_shape userID maxPerCat label vars _ _
                (cleanCategory_run api userID maxPerCat label vars w))
      as (pages & tl & Hlog & Hp & Htp & Htl & _).
    rewrite Hlog.
    assert (Hhere : Forall (fun p : string * Thread => p.1 ∈ label :: rest)
                      (listedThreads (pages ++ tl))).
    { rewrite listedThreads_app, Htl, app_nil_r.
      eapply Forall_impl; [apply (pagination_labels _ _ _ _ _ _ Hp)|].
      intros p ->. left. }
    assert (Hsz : 1 <= maxPerCat ->
              Forall (fun e => 1 <= requestedSize e <= 500) (pagesOf (pages ++ tl))).
    { intros Hcap. unfold pagesOf in *. rewrite List.filter_app, Htp, app_nil_r.
      apply (pagination_sizes _ _ _ _ _ _ Hp). lia. }
    destruct (value_of (cleanCategory api userID maxPerCat label vars w))
      as [vars'|e].
    + destruct (IH vars' (world_of (cleanCategory api userID maxPerCat label vars w)))
        as [I1 I2].
      split.
      * rewrite listedThreads_app. apply Forall_app. split; [exact Hhere|].
        eapply Forall_impl; [exact I1|]. intros p Hin. now right.
      * intros Hcap. unfold pagesOf in *. rewrite List.filter_app.
        apply Forall_app. split; [now apply Hsz|now apply I2].
    + cbn [ret trace_of fst snd]. rewrite app_nil_r. split; assumption.
Qed.

(** The counts of a run that ends with a summary add up to the number
    of threads listed; with pages that return no more than requested
    and a cap of at least 1, no count exceeds the cap. *)
Lemma cleanLoop_listed_counts categories vars w s :
  value_of (cleanLoop api userID maxPerCat categories vars w) = Ok s ->
  let log := trace_of (cleanLoop api userID maxPerCat categories vars w) in
  foldr (fun p acc => p.2 + acc) 0 (processed log)
  = Z.of_nat (length (listedThreads log)) /\
  (1 <= maxPerCat -> Forall honestPage log ->
   Forall (fun p : string * Z => p.2 <= maxPerCat) (processed log)).
Proof.
  revert vars w. induction categories as [|label rest IH]; intros vars w.
  - cbn. intros _. split; [reflexivity|]. intros _ _. constructor.
  - cbn [cleanLoop]. rewrite bind_value, bind_trace.
    destruct (categoryRun_shape userID maxPerCat label vars _ _
                (cleanCategory_run api userID maxPerCat label vars w))
      as (pages & tl & Hlog & Hp & Htp & Htl & Hpr).
    destruct (value_of (cleanCategory api userID maxPerCat label vars w))
      as [vars'|e]; [|discriminate].
    intros Hs. destruct (IH _ _ Hs) as [I1 I2]. cbv zeta.
    rewrite processed_app, Hpr, listedThreads_app, length_app.
    rewrite Hlog at 1. rewrite listedThreads_app, Htl, app_nil_r.
    cbn [app foldr snd]. split; [lia|].
    intros Hcap Hh. apply Forall_app in Hh as [Hh1 Hh2].
    rewrite Hlog in Hh1. apply Forall_app in Hh1 as [Hh1 _].
    constructor; [|now apply I2].
    pose proof (pagination_honest _ _ _ _ _ _ Hp ltac:(lia) Hh1). cbn [snd]. lia.
Qed.

End LoopShape.

Section CleanerExtras.
Context {World : Type} (api : Api World).

Lemma prefix_Forall {A} (P : A -> Prop) (l1 l2 : list A) :
  l1 `prefix_of` l2 -> Forall P l2 -> Forall P l1.
Proof. intros [k ->] H. now apply Forall_app in H as [H _]. Qed.

(** X8.  A request that does not name "TRASH" never deletes a thread
    for good: every call that changes the mailbox is a move to trash
    (add "TRASH", remove "INBOX"), whether the run ends with a summary
    or with an error.  A request that names only "TRASH" makes no
    other change than permanent deletions. *)
Theorem no_trash_no_delete (userID : string) (categories : list string)
    (maxPerCat : Z) (w : World) :
  let log := trace_of (CleanCategories api userID categories maxPerCat w) in
  ("TRASH" ∉ categories ->
   Forall (fun m => exists tid, m = Modify userID tid ["TRASH"] ["INBOX"])
          (mutations log)) /\
  (Forall (fun c => c = "TRASH") categories ->
   Forall (fun m => exists tid, m = Delete userID tid) (mutations log)).
Proof.
  intros log. subst log. unfold CleanCategories.
  set (vars := {| result := ∅; total := 0; completed := true;
                  reason := reasonAllProcessed |}).
  pose proof (cleanLoop_routed api userID maxPerCat categories vars w) as Hr.
  destruct (cleanLoop_listed api userID maxPerCat categories vars w) as [Hl _].
  cbv zeta in Hr, Hl. split; intros Hc.
  - eapply prefix_Forall; [exact Hr|]. apply Forall_map.
    eapply Forall_impl; [exact Hl|]. intros [l t] Hin. cbn [fst] in Hin.
    unfold route. cbn [fst snd].
    destruct (String.eqb_spec l "TRASH") as [->|_]; [contradiction|]. now exists (Id t).
  - eapply prefix_Forall; [exact Hr|]. apply Forall_map.
    eapply Forall_impl; [exact Hl|]. intros [l t] Hin. cbn [fst] in Hin.
    rewrite Forall_forall in Hc. rewrite (Hc _ Hin).
    unfold route. cbn [fst snd String.eqb]. now exists (Id t).
Qed.


Lemma foldl_insert_lookup (ps : list (string * Z)) (m : gmap string Z) k n :
  foldl (fun m p => <[p.1 := p.2]> m) m ps !! k = Some n ->
  m !! k = Some n \/ (k, n) ∈ ps.
Proof.
  revert m. induction ps as [|[l v] ps IH]; intros m; cbn [foldl fst snd].
  - now left.
  - intros H. destruct (IH _ H) as [Hm|Hin].
    + destruct (decide (l = k)) as [->|Hne].
      * rewrite lookup_insert_eq in Hm. injection Hm as ->. right. left.
      * rewrite lookup_insert_ne in Hm by exact Hne. now left.
    + right. now right.
Qed.

Lemma sum_bounded (ps : list (string * Z)) c :
  Forall (fun p : string * Z => p.2 <= c) ps ->
  foldr (fun p acc => p.2 + acc) 0 ps <= c * Z.of_nat (length ps).
Proof.
  induction 1 as [|p ps Hp _ IH]; cbn [foldr length]; lia.
Qed.

(** X10.  With a cap of at least 1 and pages that return no more
    threads than were requested, no category is counted for more than
    the cap: every count of the run and every value of
    PerCategoryDeleted lies between 0 and the cap, and the total is at
    most the cap times the number of requested categories. *)
Theorem cap_respected (userID : string) (categories : list string)
    (maxPerCat : Z) (w : World) (s : CleanSummary) :
  1 <= maxPerCat ->
  value_of (CleanCategories api userID categories maxPerCat w) = Ok s ->
  let log := trace_of (CleanCategories api userID categories maxPerCat w) in
  Forall honestPage log ->
  Forall (fun p : string * Z => 0 <= p.2 <= maxPerCat) (processed log) /\
  (forall label n, PerCategoryDeleted s !! label = Some n -> 0 <= n <= maxPerCat) /\
  0 <= TotalDeleted s <= maxPerCat * Z.of_nat (length categories).
Proof.
  intros Hcap Hs log Hh. subst log. unfold CleanCategories in *.
  destruct (cleanLoop_ok api userID maxPerCat categories _ w s Hs)
    as (Hc & Hpos & Hm & Ht & _).
  destruct (cleanLoop_listed_counts api userID maxPerCat categories _ w s Hs)
    as [Hsum Hle].
  specialize (Hle Hcap Hh). cbn [result total] in Hm, Ht.
  assert (Hall : Forall (fun p : string * Z => 0 <= p.2 <= maxPerCat)
            (processed (trace_of (cleanLoop api userID maxPerCat categories
               {| result := ∅; total := 0; completed := true;
                  reason := reasonAllProcessed |} w)))).
  { apply Forall_and. split; assumption. }
  split; [exact Hall|]. split.
  - intros label n Hl. rewrite Hm in Hl.
    destruct (foldl_insert_lookup _ _ _ _ Hl) as [He|Hin].
    + rewrite lookup_empty in He. discriminate.
    + rewrite Forall_forall in Hall. apply (Hall _ Hin).
  - pose proof (sum_bounded _ _ Hle) as Hb.
    pose proof (f_equal length Hc) as Hlen. rewrite length_map in Hlen.
    rewrite Ht, Hsum. rewrite Hsum, Hlen in Hb. lia.
Qed.

Lemma flags_consistent maxPerCat log c r :
  (c = true <-> r = reasonAllProcessed) ->
  r = reasonAllProcessed \/ r = reasonMaxReached \/ r = reasonRemaining ->
  (c && forallb (passed maxPerCat) log = true <->
   foldl (reasonAfter maxPerCat) r log = reasonAllProcessed) /\
  (foldl (reasonAfter maxPerCat) r log = reasonAllProcessed \/
   foldl (reasonAfter maxPerCat) r log = reasonMaxReached \/
   foldl (reasonAfter maxPerCat) r log = reasonRemaining).
Proof.
  revert c r. induction log as [|e log IH]; intros c r Hc Hr; cbn [forallb foldl].
  - now rewrite andb_true_r.
  - rewrite andb_assoc. apply IH.
    + unfold passed, reasonAfter.
      destruct (capReached maxPerCat e); [cbn; rewrite andb_false_r; now split|].
      destruct (remainingFound e); [cbn; rewrite andb_false_r; now split|].
      cbn. now rewrite andb_true_r.
    + unfold reasonAfter.
      destruct (capReached maxPerCat e); [tauto|].
      destruct (remainingFound e); tauto.
Qed.

(** X11.  The reason of a summary is one of the three fixed texts,
    and it is "all categories processed" exactly when the summary is
    completed. *)
Theorem reason_consistent (userID : string) (categories : list string)
    (maxPerCat : Z) (w : World) (s : CleanSummary) :
  value_of (CleanCategories api userID categories maxPerCat w) = Ok s ->
  (Completed s = true <-> Reason s = "all categories processed") /\
  (Reason s = "all categories processed" \/
   Reason s = "max per category reached; more emails may remain" \/
   Reason s = "remaining emails detected in one or more categories").
Proof.
  intros Hs. unfold CleanCategories in Hs.
  destruct (cleanLoop_ok api userID maxPerCat categories _ w s Hs)
    as (_ & _ & _ & _ & Hd & Hr & _).
  rewrite Hd, Hr. cbn [completed reason].
  apply flags_consistent; [now split|now left].
Qed.

Lemma cleanLoop_err_keeps userID maxPerCat categories vars w e :
  value_of (cleanLoop api userID maxPerCat categories vars w) = Err e ->
  let log := trace_of (cleanLoop api userID maxPerCat categories vars w) in
  exists done failing rest,
    categories = done ++ failing :: rest /\
    map fst (processed log) = done /\
    mutations log `prefix_of` map (route userID) (listedThreads log) /\
    Forall (fun p : string * Thread => p.1 ∈ done ++ [failing]) (listedThreads log).
Proof.
  cbv zeta. revert vars w. induction categories as [|label rest IH]; intros vars w.
  - cbn. discriminate.
  - cbn [cleanLoop]. rewrite bind_value, bind_trace.
    pose proof (cleanCategory_run api userID maxPerCat label vars w) as Hc.
    destruct (categoryRun_shape userID maxPerCat label vars _ _ Hc)
      as (pages & tl & Hlog & Hp & _ & Htl & Hpr).
    assert (Hhere : forall k,
              Forall (fun p : string * Thread => p.1 ∈ label :: k)
                (listedThreads
                   (trace_of (cleanCategory api userID maxPerCat label vars w)))).
    { intros k. rewrite Hlog, listedThreads_app, Htl, app_nil_r.
      eapply Forall_impl; [apply (pagination_labels _ _ _ _ _ _ Hp)|].
      intros p ->. left. }
    destruct (value_of (cleanCategory api userID maxPerCat label vars w))
      as [vars'|e'].
    + intros He. destruct (IH _ _ He) as (done & failing & rest' & -> & Hd & Hm & Hl).
      destruct (categoryRun_ok _ _ _ _ _ _ Hc)
        as (n & _ & _ & _ & _ & _ & _ & C6 & _).
      exists (label :: done), failing, rest'. split; [reflexivity|].
      split; [rewrite processed_app, Hpr; cbn [app map fst]; now rewrite Hd|].
      split.
      * rewrite mutations_app, listedThreads_app, map_app, C6. now apply prefix_app.
      * rewrite listedThreads_app. apply Forall_app. split; [apply Hhere|].
        eapply Forall_impl; [exact Hl|]. intros p Hin. now right.
    + cbn [ret value_of trace_of fst snd]. intros [= ->]. rewrite app_nil_r.
      exists [], label, rest. split; [reflexivity|].
      split; [now rewrite Hpr|]. split; [|apply Hhere].
      now destruct (categoryRun_err _ _ _ _ _ _ Hc) as (_ & _ & _ & _ & _ & _ & Hm).
Qed.

(** X12.  When CleanCategories returns an error, the requested
    categories split into those done, the one that failed and the
    rest: the categories whose count was logged are exactly those
    done, in order; every thread listed belongs to a category done or
    to the failing one, so nothing was listed for the rest; and the
    trash and delete calls made are the first of those due for the
    threads listed. *)
Theorem failure_keeps_earlier_categories (userID : string)
    (categories : list string) (maxPerCat : Z) (w : World) (e : error) :
  value_of (CleanCategories api userID categories maxPerCat w) = Err e ->
  let log := trace_of (CleanCategories api userID categories maxPerCat w) in
  exists done failing rest,
    categories = done ++ failing :: rest /\
    map fst (processed log) = done /\
    mutations log `prefix_of` map (route userID) (listedThreads log) /\
    Forall (fun p : string * Thread => p.1 ∈ done ++ [failing]) (listedThreads log).
Proof.
  intros He. exact (cleanLoop_err_keeps _ _ _ _ _ e He).
Qed.

End CleanerExtras.

(** ** More on the handler *)

Section HandlerExtras.
Context {World : Type} (api : Api World).

Lemma Clean_run (req : handler.CleanRequest) (w : World) :
  let c := CleanCategories api "me" (handler.Categories req)
             (if handler.MaxPerCategory req =? 0 then 1000000
              else handler.MaxPerCategory req) w in
  world_of (handler.Clean api (Ok req) w) = world_of c /\
  trace_of (handler.Clean api (Ok req) w) = trace_of c /\
  value_of (handler.Clean api (Ok req) w)
  = match value_of c with
    | Ok summary =>
        {| handler.status := 200;
           handler.body := handler.Response
             {| handler.Deleted := PerCategoryDeleted summary;
                handler.TotalDeleted := TotalDeleted summary;
                handler.Completed := Completed summary;
                handler.CompletionReason := Reason summary |} |}
    | Err err =>
        if IsAuthError (Some err)
        then {| handler.status := 401;
                handler.body := handler.H
                  (<[ "error" := "Authentication failed or insufficient permissions" ]>
                   (<[ "suggestion" :=
                       "Please re-authenticate with the required Gmail scopes" ]>
                    {[ "details" := err ]})) |}
        else {| handler.status := 500;
                handler.body := handler.H {[ "error" := err ]} |}
    end.
Proof.
  cbv zeta. unfold handler.Clean.
  rewrite bind_world, bind_trace, bind_value.
  destruct (handler.MaxPerCategory req =? 0);
    cbn [handler.MaxPerCategory handler.Categories];
    match goal with |- context [value_of ?c] => destruct (value_of c) as [s|e] end;
    try destruct (IsAuthError (Some e));
    cbn [ret world_of trace_of value_of fst snd]; rewrite app_nil_r; auto.
Qed.

Lemma is_substring_trans a b c :
  is_substring a b -> is_substring b c -> is_substring a c.
Proof.
  intros (p1 & q1 & ->) (p2 & q2 & ->). exists (p2 +:+ p1), (q1 +:+ q2).
  now rewrite !string_app_assoc.
Qed.

Lemma cleanLoop_fatal userID maxPerCat categories vars w pre ev post :
  trace_of (cleanLoop api userID maxPerCat categories vars w) = pre ++ ev :: post ->
  fatal ev = true ->
  exists e, value_of (cleanLoop api userID maxPerCat categories vars w) = Err e /\
            is_substring (failureText ev) e.
Proof.
  intros Hlog Hf.
  destruct (value_of (cleanLoop api userID maxPerCat categories vars w))
    as [s|e] eqn:Hv.
  - destruct (cleanLoop_ok api userID maxPerCat categories vars w s Hv)
      as (_ & _ & _ & _ & _ & _ & _ & Hn).
    rewrite Hlog in Hn. apply Forall_app in Hn as [_ Hn].
    apply Forall_cons in Hn as [Hn _]. congruence.
  - destruct (cleanLoop_err api userID maxPerCat categories vars w e Hv)
      as (pre' & ev' & Hlog' & Hn & Hf' & Hs & _).
    rewrite Hlog in Hlog'. symmetry in Hlog'.
    destruct (snoc_split _ _ _ _ _ Hlog') as [(-> & -> & ->)|Hin].
    + now exists e.
    + unfold noFailure in Hn. rewrite Forall_forall in Hn.
      specialize (Hn _ Hin). congruence.
Qed.

(** X13.  For a request that passed the binding, every page request
    made on its behalf asks for between 1 and 500 threads: the cap
    handed to CleanCategories is never below 1. *)
Theorem handler_page_requests (req : handler.CleanRequest) (w : World) :
  handler.bindingOk req = true ->
  Forall (fun e => 1 <= requestedSize e <= 500)
         (pagesOf (trace_of (handler.Clean api (Ok req) w))).
Proof.
  intros Hok. destruct (Clean_run req w) as (_ & -> & _).
  unfold handler.bindingOk in Hok. rewrite !andb_true_iff in Hok.
  destruct Hok as [[[Hlo _] _] _]. apply Z.leb_le in Hlo.
  unfold CleanCategories.
  apply (cleanLoop_listed api "me").
  destruct (Z.eqb_spec (handler.MaxPerCategory req) 0); lia.
Qed.

(** X14.  When a listing, trash or delete call fails with an error
    whose text contains one of the four authentication texts, the
    handler answers 401: wrapping the error on the way up does not
    hide it from IsAuthError. *)
Theorem auth_failure_reaches_caller (req : handler.CleanRequest) (w : World)
    (pre post : list Event) (ev : Event) (marker : string) :
  trace_of (handler.Clean api (Ok req) w) = pre ++ ev :: post ->
  fatal ev = true ->
  marker ∈ authMarkers ->
  is_substring marker (failureText ev) ->
  handler.status (value_of (handler.Clean api (Ok req) w)) = 401.
Proof.
  intros Hlog Hf Hm Hs. destruct (Clean_run req w) as (_ & Ht & ->).
  rewrite Ht in Hlog. unfold CleanCategories in *.
  destruct (cleanLoop_fatal _ _ _ _ _ _ _ _ Hlog Hf) as (e & -> & He).
  pose proof (is_substring_trans _ _ _ Hs He) as Hin.
  assert (Ha : IsAuthError (Some e) = true).
  { cbn [IsAuthError]. rewrite !orb_true_iff, !Contains_spec.
    unfold authMarkers in Hm. rewrite !elem_of_cons in Hm.
    destruct Hm as [->| [->| [->| [->|Hm]]]]; [tauto..|].
    now apply elem_of_nil in Hm. }
  now rewrite Ha.
Qed.

(** X15.  A request that could not be bound is answered 400 with the
    binding error, without any call to the provider.  A request that
    was bound is answered 200, 401 or 500, never 400, after exactly the
    calls of CleanCategories on its categories (with a cap of 0 read
    as 1000000); it is answered 200 exactly when CleanCategories
    returned a summary, which is when no listing, trash or delete call
    failed, and the body is then that summary, field by field, with
    one entry of deleted counts for each distinct category asked. *)
Theorem handler_status (bound : outcome handler.CleanRequest) (w : World) :
  let run := handler.Clean api bound w in
  (forall err, bound = Err err ->
     value_of run = {| handler.status := 400;
                       handler.body := handler.H {[ "error" := err ]} |} /\
     trace_of run = [] /\ world_of run = w) /\
  (forall req, bound = Ok req ->
     let c := CleanCategories api "me" (handler.Categories req)
                (if handler.MaxPerCategory req =? 0 then 1000000
                 else handler.MaxPerCategory req) w in
     trace_of run = trace_of c /\ world_of run = world_of c /\
     (handler.status (value_of run) = 200 <-> noFailure (trace_of run)) /\
     (handler.status (value_of run) = 200 \/
      handler.status (value_of run) = 401 \/
      handler.status (value_of run) = 500) /\
     (handler.status (value_of run) = 200 <-> exists s, value_of c = Ok s) /\
     (forall s, value_of c = Ok s ->
        value_of run
        = {| handler.status := 200;
             handler.body := handler.Response
               {| handler.Deleted := PerCategoryDeleted s;
                  handler.TotalDeleted := TotalDeleted s;
                  handler.Completed := Completed s;
                  handler.CompletionReason := Reason s |} |} /\
        dom (PerCategoryDeleted s) = list_to_set (handler.Categories req)) /\
     (forall e, value_of c = Err e ->
        handler.status (value_of run) = (if IsAuthError (Some e) then 401 else 500) /\
        exists fields, handler.body (value_of run) = handler.H fields)).
Proof.
  intros run. subst run. split.
  - intros err ->. now cbn.
  - intros req -> c. subst c. destruct (Clean_run req w) as (Hw & Ht & Hv).
    cbv zeta in Hw, Ht, Hv. rewrite Ht, Hv, Hw. unfold CleanCategories.
    set (cap := if handler.MaxPerCategory req =? 0 then 1000000
                else handler.MaxPerCategory req).
    set (vars := {| result := ∅; total := 0; completed := true;
                    reason := reasonAllProcessed |}).
    split; [reflexivity|]. split; [reflexivity|].
    destruct (value_of (cleanLoop api "me" cap (handler.Categories req) vars w))
      as [s|e] eqn:Hc.
    + destruct (cleanLoop_ok api "me" cap (handler.Categories req) vars w s Hc)
        as (Hcats & _ & Hm & _ & _ & _ & _ & Hn).
      cbn [handler.status handler.body]. split; [now split|]. split; [now left|].
      split; [split; [now exists s|reflexivity]|].
      split; [|discriminate].
      intros s' [= <-]. split; [reflexivity|].
      rewrite Hm, foldl_insert_dom, Hcats. subst vars. cbn [result].
      rewrite dom_empty_L. apply (left_id_L ∅ (∪)).
    + destruct (cleanLoop_err api "me" cap (handler.Categories req) vars w e Hc)
        as (pre & ev & Hlog & _ & Hf & _).
      assert (Hno : ~ noFailure
                (trace_of (cleanLoop api "me" cap (handler.Categories req) vars w))).
      { rewrite Hlog. intros Hn. apply Forall_app in Hn as [_ Hn].
        apply Forall_cons in Hn as [Hn _]. congruence. }
      destruct (IsAuthError (Some e)) eqn:Hauth; cbn [handler.status handler.body].
      * split; [split; [discriminate|contradiction]|]. split; [now right; left|].
        split; [split; [discriminate|now intros [s Hs]]|]. split; [discriminate|].
        intros e' [= <-]. rewrite Hauth. split; [reflexivity|]. now eexists.
      * split; [split; [discriminate|contradiction]|]. split; [now right; right|].
        split; [split; [discriminate|now intros [s Hs]]|]. split; [discriminate|].
        intros e' [= <-]. rewrite Hauth. split; [reflexivity|]. now eexists.
Qed.

End HandlerExtras.

(** ** The clean route and the OAuth2 configuration *)

Section RouterExtras.
Context {World E : Type} (googleEndpoint : E)
        (gmailNewService : auth.Config E -> auth.Token -> outcome (Api World)).

Lemma eqb_empty_false (s : string) : String.eqb s "" = false <-> s <> "".
Proof. now rewrite String.eqb_neq. Qed.

Lemma Getenv_set (env : gmap string string) k :
  Getenv env k <> "" <-> exists v, env !! k = Some v /\ v <> "".
Proof.
  unfold Getenv. destruct (env !! k) as [v|]; cbn [default]; split.
  - intros H. now exists v.
  - now intros (v' & [= <-] & H).
  - contradiction.
  - now intros (v' & [=] & _).
Qed.

Lemma Getenv_lookup (env : gmap string string) k :
  Getenv env k <> "" -> env !! k = Some (Getenv env k).
Proof.
  unfold Getenv. destruct (env !! k) as [v|]; cbn [default]; [reflexivity|contradiction].
Qed.

(** X16.  NewGoogleOAuth2Config succeeds exactly when the three
    variables are set and not empty; it then carries their values and
    always asks for the full mailbox scope with openid, email and
    profile; otherwise its error is "missing Google OAuth2 env
    vars". *)
Theorem oauth_config_complete (env : gmap string string) :
  let r := auth.NewGoogleOAuth2Config googleEndpoint env in
  ((exists conf, r = Ok conf) <->
   Forall (fun k => exists v, env !! k = Some v /\ v <> "")
     ["GOOGLE_CLIENT_ID"; "GOOGLE_CLIENT_SECRET"; "GOOGLE_REDIRECT_URL"]) /\
  (forall conf, r = Ok conf ->
     env !! "GOOGLE_CLIENT_ID" = Some (auth.ClientID conf) /\
     env !! "GOOGLE_CLIENT_SECRET" = Some (auth.ClientSecret conf) /\
     env !! "GOOGLE_REDIRECT_URL" = Some (auth.RedirectURL conf) /\
     auth.Scopes conf = ["https://mail.google.com/"; "openid"; "email"; "profile"]) /\
  (forall err, r = Err err -> err = "missing Google OAuth2 env vars").
Proof.
  intros r. subst r. unfold auth.NewGoogleOAuth2Config.
  pose proof (Getenv_set env "GOOGLE_CLIENT_ID") as Ha.
  pose proof (Getenv_set env "GOOGLE_CLIENT_SECRET") as Hb.
  pose proof (Getenv_set env "GOOGLE_REDIRECT_URL") as Hc.
  pose proof (Getenv_lookup env "GOOGLE_CLIENT_ID") as La.
  pose proof (Getenv_lookup env "GOOGLE_CLIENT_SECRET") as Lb.
  pose proof (Getenv_lookup env "GOOGLE_REDIRECT_URL") as Lc.
  rewrite !Forall_cons, Forall_nil, <- Ha, <- Hb, <- Hc.
  destruct (String.eqb_spec (Getenv env "GOOGLE_CLIENT_ID") "") as [Ea|Na];
    [|destruct (String.eqb_spec (Getenv env "GOOGLE_CLIENT_SECRET") "") as [Eb|Nb];
      [|destruct (String.eqb_spec (Getenv env "GOOGLE_REDIRECT_URL") "") as [Ec|Nc]]];
    cbn [orb].
  - split; [split; [intros [conf [=]]|tauto]|]. split; [discriminate|now intros err [= <-]].
  - split; [split; [intros [conf [=]]|tauto]|]. split; [discriminate|now intros err [= <-]].
  - split; [split; [intros [conf [=]]|tauto]|]. split; [discriminate|now intros err [= <-]].
  - split; [split; [tauto|intros _; eexists; reflexivity]|].
    split; [|discriminate]. intros conf [= <-].
    cbn [auth.ClientID auth.ClientSecret auth.RedirectURL auth.Scopes].
    repeat split; auto.
Qed.

(** X17.  The clean route reaches the provider only for a request
    that carries an access token, with the three OAuth2 variables set,
    and whose body was bound; without a token it answers 401 with the
    action "reauth_required" whatever the body and the environment,
    and it answers 400 only to a request that has a token.  When the
    service can be made, the route is Clean on that service. *)
Theorem clean_route_guards (env : gmap string string) (accessToken : string)
    (bound : outcome handler.CleanRequest) (w : World) :
  let run := main.cleanRoute googleEndpoint gmailNewService env accessToken bound w in
  (accessToken = "" ->
   run = (w, [],
          {| handler.status := 401;
             handler.body := handler.H
               (<[ "error" := "missing X-Access-Token" ]>
                (<[ "message" := "Please re-authenticate with your Gmail account" ]>
                 {[ "action" := "reauth_required" ]})) |})) /\
  (trace_of run <> [] ->
   accessToken <> "" /\
   (exists conf, auth.NewGoogleOAuth2Config googleEndpoint env = Ok conf) /\
   (exists req, bound = Ok req)) /\
  (handler.status (value_of run) = 400 ->
   accessToken <> "" /\
   exists conf, auth.NewGoogleOAuth2Config googleEndpoint env = Ok conf) /\
  (forall conf api,
     accessToken <> "" ->
     auth.NewGoogleOAuth2Config googleEndpoint env = Ok conf ->
     gmailNewService conf {| auth.AccessToken := accessToken;
                             auth.TokenType := "Bearer";
                             auth.RefreshToken := "";
                             auth.Expiry := auth.zeroTimeUnix |} = Ok api ->
     run = handler.Clean api bound w).
Proof.
  intros run. subst run. unfold main.cleanRoute, main.NewService.
  destruct (String.eqb_spec accessToken "") as [->|Hne].
  - split; [reflexivity|]. split; [now cbn|]. split; [discriminate|].
    intros conf api Hc. contradiction.
  - split; [contradiction|].
    destruct (auth.NewGoogleOAuth2Config googleEndpoint env) as [conf|err].
    + destruct (gmailNewService conf _) as [api|err] eqn:Hg.
      * split; [|split].
        -- intros Ht. repeat split; [assumption|now exists conf|].
           destruct bound as [req|err]; [now exists req|]. now cbn in Ht.
        -- intros _. split; [assumption|now exists conf].
        -- intros conf' api' _ [= <-] Hg'. rewrite Hg in Hg'. now injection Hg' as <-.
      * split; [now cbn|]. split; [discriminate|].
        intros conf' api' _ [= <-] Hg'. rewrite Hg in Hg'. discriminate.
    + split; [now cbn|]. split; [discriminate|]. discriminate.
Qed.

End RouterExtras.

(** ** The logger package *)

Section LoggerExtras.
Context {Logger : Type} (build : logger.zapConfig -> outcome Logger)
        (production : option Logger).

Lemma call_once g c :
  logger.once g = true -> logger.call build production g c = g.
Proof.
  intros H. destruct c; cbn [logger.call]; unfold logger.InitLogger, logger.L;
    now rewrite H.
Qed.

Lemma call_runs_once g c : logger.once (logger.call build production g c) = true.
Proof.
  destruct (logger.once g) eqn:H; [now rewrite call_once|].
  destruct c; cbn [logger.call]; unfold logger.InitLogger, logger.L; rewrite H.
  - now destruct (logger.NewLogger build _).
  - now destruct (logger.NewLogger build _).
Qed.

Lemma calls_once g cs :
  logger.once g = true -> foldl (logger.call build production) g cs = g.
Proof.
  intros H. induction cs as [|c cs IH]; [reflexivity|].
  cbn [foldl]. now rewrite call_once.
Qed.

(** X18.  The first use of the logger package decides: whatever calls
    of InitLogger and L follow, in any order and with any
    configuration or environment, the two package variables stay as
    the first call left them; every later InitLogger reports no error,
    also for a configuration that cannot be built, and every later L
    returns the same logger. *)
Theorem logger_first_use_decides (c : logger.Call) (cs : list logger.Call)
    (config : option logger.Config) (env : gmap string string) :
  let g1 := logger.call build production logger.start c in
  let g := foldl (logger.call build production) g1 cs in
  g = g1 /\
  logger.InitLogger build config g = (g1, None) /\
  logger.L build production env g = (g1, logger.log g1).
Proof.
  intros g1 g. subst g.
  assert (H1 : logger.once g1 = true) by apply call_runs_once.
  rewrite (calls_once g1 cs H1). split; [reflexivity|].
  unfold logger.InitLogger, logger.L. now rewrite H1.
Qed.

(** X19.  When the first use is an InitLogger that fails, there is no
    logger afterwards: InitLogger returns the error of the build, and
    from then on L returns nil, without trying the environment or the
    production logger, and InitLogger with a good configuration
    repairs nothing. *)
Theorem logger_failed_init_sticks (config : option logger.Config) (err : error)
    (cs : list logger.Call) (env : gmap string string)
    (config' : option logger.Config) :
  logger.NewLogger build config = Err err ->
  let g1 := (logger.InitLogger build config logger.start).1 in
  let g := foldl (logger.call build production) g1 cs in
  (logger.InitLogger build config logger.start).2 = Some err /\
  (logger.L build production env g).2 = None /\
  (logger.L build production env (logger.InitLogger build config' g).1).2 = None.
Proof.
  intros Hn g1 g. subst g g1. unfold logger.InitLogger at 1 2 3 4.
  cbn [logger.start logger.once]. rewrite Hn. cbn [fst snd].
  rewrite calls_once by reflexivity. split; [reflexivity|].
  unfold logger.InitLogger, logger.L. cbn [logger.once logger.log fst snd].
  now split.
Qed.

End LoggerExtras.

(** ** More scenarios, run *)

Section MoreScenarios.

Lemma listing_returns_pages_witness :
  value_of (ListCategoryThreads scripted "me" "CATEGORY_UPDATES" 5 threePages) = Ok abc /\
  abc = listedOnly (trace_of (ListCategoryThreads scripted "me" "CATEGORY_UPDATES" 5
                                threePages)) /\
  value_of (ListTrashThreads scripted "me" 5 threePages) = Ok abc /\
  abc = listedOnly (trace_of (ListTrashThreads scripted "me" 5 threePages)).
Proof.
  destruct (listing_returns_pages scripted "me" "CATEGORY_UPDATES" 5 threePages)
    as (Hc & Ht & _).
  split; [reflexivity|]. split; [exact (proj1 (Hc abc eq_refl))|].
  split; [reflexivity|]. exact (proj1 (Ht abc eq_refl)).
Defined.

Lemma listing_error_names_page_witness :
  value_of (ListCategoryThreads scripted "me" "CATEGORY_UPDATES" 5 secondPageFails)
  = Err "failed to list category threads for CATEGORY_UPDATES (page 2): boom" /\
  value_of (ListTrashThreads scripted "me" 5 secondPageFails)
  = Err "failed to list trash threads (page 2): boom" /\
  (exists pre n tok err,
     trace_of (ListCategoryThreads scripted "me" "CATEGORY_UPDATES" 5 secondPageFails)
     = pre ++ [ListPage "me" "CATEGORY_UPDATES" n tok (Err err)] /\ noFailure pre /\
     "failed to list category threads for CATEGORY_UPDATES (page 2): boom"
     = "failed to list category threads for " +:+ "CATEGORY_UPDATES" +:+ " (page " +:+
       pretty (Z.of_nat (length (pagesOf (trace_of
         (ListCategoryThreads scripted "me" "CATEGORY_UPDATES" 5 secondPageFails)))))
       +:+ "): " +:+ err) /\
  (exists pre n tok err,
     trace_of (ListTrashThreads scripted "me" 5 secondPageFails)
     = pre ++ [ListPage "me" "TRASH" n tok (Err err)] /\ noFailure pre /\
     "failed to list trash threads (page 2): boom"
     = "failed to list trash threads (page " +:+
       pretty (Z.of_nat (length (pagesOf (trace_of
         (ListTrashThreads scripted "me" 5 secondPageFails)))))
       +:+ "): " +:+ err).
Proof.
  destruct (listing_error_names_page scripted "me" "CATEGORY_UPDATES" 5 secondPageFails)
    as (Hc & Ht).
  split; [vm_compute; reflexivity|]. split; [vm_compute; reflexivity|].
  split; [apply Hc|apply Ht]; vm_compute; reflexivity.
Defined.

Lemma listing_respects_max_witness :
  1 <= 5 /\
  Forall honestPage (trace_of (ListCategoryThreads scripted "me" "CATEGORY_UPDATES" 5
                                 threePages)) /\
  Forall honestPage (trace_of (ListTrashThreads scripted "me" 5 threePages)) /\
  Z.of_nat (length abc) <= 5.
Proof.
  assert (H5 : 1 <= 5) by lia.
  assert (Hc : Forall honestPage
            (trace_of (ListCategoryThreads scripted "me" "CATEGORY_UPDATES" 5 threePages)))
    by (repeat constructor; vm_compute; discriminate).
  assert (Ht : Forall honestPage (trace_of (ListTrashThreads scripted "me" 5 threePages)))
    by (repeat constructor; vm_compute; discriminate).
  destruct (listing_respects_max scripted "me" "CATEGORY_UPDATES" 5 threePages abc H5)
    as [Hcat _].
  split; [exact H5|]. split; [exact Hc|]. split; [exact Ht|].
  exact (Hcat Hc eq_refl).
Defined.

Lemma batch_trash_stops_at_failure_witness :
  value_of (BatchTrashThreads scripted "me" ["x"; "y"; "z"] secondRefused)
  = Some "failed to trash thread y: nope" /\
  exists done tid rest err oks,
    ["x"; "y"; "z"] = done ++ tid :: rest /\
    trace_of (BatchTrashThreads scripted "me" ["x"; "y"; "z"] secondRefused)
    = oks ++ [ModifyCall "me" tid ["TRASH"] ["INBOX"] (Err err)] /\
    Forall2 (fun t ev => exists r,
               ev = ModifyCall "me" t ["TRASH"] ["INBOX"] (Ok r)) done oks /\
    "failed to trash thread y: nope" = "failed to trash thread " +:+ tid +:+ ": " +:+ err.
Proof.
  split; [vm_compute; reflexivity|].
  apply (batch_trash_stops_at_failure scripted "me" ["x"; "y"; "z"] secondRefused).
  vm_compute. reflexivity.
Defined.

Lemma batch_delete_stops_at_failure_witness :
  value_of (BatchDeleteThreadsPermanently scripted "me" ["x"; "y"; "z"] secondKept)
  = Some "failed to permanently delete thread y: nope" /\
  exists done tid rest err,
    ["x"; "y"; "z"] = done ++ tid :: rest /\
    trace_of (BatchDeleteThreadsPermanently scripted "me" ["x"; "y"; "z"] secondKept)
    = map (fun t => DeleteCall "me" t None) done ++ [DeleteCall "me" tid (Some err)] /\
    "failed to permanently delete thread y: nope"
    = "failed to permanently delete thread " +:+ tid +:+ ": " +:+ err.
Proof.
  split; [vm_compute; reflexivity|].
  apply (batch_delete_stops_at_failure scripted "me" ["x"; "y"; "z"] secondKept).
  vm_compute. reflexivity.
Defined.

Lemma no_trash_no_delete_witness :
  ("TRASH" ∉ ["CATEGORY_SOCIAL"; "CATEGORY_FORUMS"]) /\
  Forall (fun m => exists tid, m = Modify "me" tid ["TRASH"] ["INBOX"])
         (mutations (trace_of estimateDown)) /\
  Forall (fun c => c = "TRASH") ["TRASH"; "TRASH"] /\
  Forall (fun m => exists tid, m = Delete "me" tid) (mutations (trace_of twoTrashPasses)).
Proof.
  assert (Hno : "TRASH" ∉ ["CATEGORY_SOCIAL"; "CATEGORY_FORUMS"]).
  { rewrite !not_elem_of_cons. repeat split; try discriminate. apply not_elem_of_nil. }
  assert (Hall : Forall (fun c => c = "TRASH") ["TRASH"; "TRASH"])
    by (repeat constructor).
  split; [exact Hno|].
  split; [apply (no_trash_no_delete scripted "me" ["CATEGORY_SOCIAL"; "CATEGORY_FORUMS"] 10
                   [page ["s1"] "" 1; modified "s1";
                    RList (Err "googleapi: Error 503: backendError");
                    page [] "" 0; page [] "" 0]); exact Hno|].
  split; [exact Hall|].
  apply (no_trash_no_delete scripted "me" ["TRASH"; "TRASH"] 2
           [page ["a"; "b"] "next" 3; gone; gone;
            page ["c"] "" 1; gone; page [] "" 0]); exact Hall.
Defined.


Lemma cap_respected_witness :
  1 <= 10 /\
  value_of promotionsThenTrash = Ok promotionsThenTrashSummary /\
  Forall honestPage (trace_of promotionsThenTrash) /\
  Forall (fun p : string * Z => 0 <= p.2 <= 10) (processed (trace_of promotionsThenTrash)) /\
  0 <= TotalDeleted promotionsThenTrashSummary <= 10 * Z.of_nat 2.
Proof.
  assert (H10 : 1 <= 10) by lia.
  assert (Hv : value_of promotionsThenTrash = Ok promotionsThenTrashSummary)
    by (vm_compute; reflexivity).
  assert (Hh : Forall honestPage (trace_of promotionsThenTrash))
    by (repeat constructor; vm_compute; discriminate).
  destruct (cap_respected scripted "me" ["CATEGORY_PROMOTIONS"; "TRASH"] 10 _ _
              H10 Hv Hh) as (Hp & _ & Ht).
  split; [exact H10|]. split; [exact Hv|]. split; [exact Hh|].
  split; [exact Hp|exact Ht].
Defined.

Lemma reason_consistent_witness :
  value_of remainingThenCap = Ok remainingThenCapSummary /\
  (Completed remainingThenCapSummary = true <->
   Reason remainingThenCapSummary = "all categories processed").
Proof.
  assert (Hv : value_of remainingThenCap = Ok remainingThenCapSummary)
    by (vm_compute; reflexivity).
  split; [exact Hv|].
  exact (proj1 (reason_consistent scripted "me"
                  ["CATEGORY_SOCIAL"; "CATEGORY_PROMOTIONS"] 2 _ _ Hv)).
Defined.

Lemma failure_keeps_earlier_categories_witness :
  value_of (CleanCategories scripted "me" ["CATEGORY_SOCIAL"; "CATEGORY_UPDATES"; "TRASH"] 10
              ([page ["s1"] "" 1; modified "s1"; page [] "" 0] ++ secondTrashFails))
  = Err secondTrashFailsError /\
  exists done failing rest,
    ["CATEGORY_SOCIAL"; "CATEGORY_UPDATES"; "TRASH"] = done ++ failing :: rest /\
    map fst (processed (trace_of
      (CleanCategories scripted "me" ["CATEGORY_SOCIAL"; "CATEGORY_UPDATES"; "TRASH"] 10
         ([page ["s1"] "" 1; modified "s1"; page [] "" 0] ++ secondTrashFails)))) = done /\
    done = ["CATEGORY_SOCIAL"].
Proof.
  assert (Hv : value_of (CleanCategories scripted "me"
                           ["CATEGORY_SOCIAL"; "CATEGORY_UPDATES"; "TRASH"] 10
                           ([page ["s1"] "" 1; modified "s1"; page [] "" 0]
                            ++ secondTrashFails)) = Err secondTrashFailsError)
    by (vm_compute; reflexivity).
  split; [exact Hv|].
  destruct (failure_keeps_earlier_categories scripted "me"
              ["CATEGORY_SOCIAL"; "CATEGORY_UPDATES"; "TRASH"] 10 _ _ Hv)
    as (done & failing & rest & Hc & Hd & _).
  exists done, failing, rest. split; [exact Hc|]. split; [exact Hd|].
  rewrite <- Hd. vm_compute. reflexivity.
Defined.

Lemma handler_page_requests_witness :
  handler.bindingOk unlimitedTrash = true /\
  Forall (fun e => 1 <= requestedSize e <= 500)
         (pagesOf (trace_of (handler.Clean scripted (Ok unlimitedTrash) emptyMailbox))).
Proof.
  assert (Hok : handler.bindingOk unlimitedTrash = true) by (vm_compute; reflexivity).
  split; [exact Hok|].
  exact (handler_page_requests scripted unlimitedTrash emptyMailbox Hok).
Defined.

Lemma auth_failure_reaches_caller_witness :
  trace_of (handler.Clean scripted (Ok updatesAndTrash) secondTrashFails)
  = take 2 (trace_of secondTrashFailsRun) ++ refusedCall :: [] /\
  fatal refusedCall = true /\
  ("Error 403" ∈ authMarkers) /\
  is_substring "Error 403" (failureText refusedCall) /\
  handler.status (value_of (handler.Clean scripted (Ok updatesAndTrash) secondTrashFails))
  = 401.
Proof.
  assert (Hlog : trace_of (handler.Clean scripted (Ok updatesAndTrash) secondTrashFails)
                 = take 2 (trace_of secondTrashFailsRun) ++ refusedCall :: [])
    by (vm_compute; reflexivity).
  assert (Hm : "Error 403" ∈ authMarkers) by (unfold authMarkers; set_solver).
  assert (Hs : is_substring "Error 403" (failureText refusedCall))
    by (exists "googleapi: ", ": insufficientPermissions"; reflexivity).
  split; [exact Hlog|]. split; [reflexivity|]. split; [exact Hm|]. split; [exact Hs|].
  exact (auth_failure_reaches_caller scripted updatesAndTrash secondTrashFails
           _ _ _ _ Hlog eq_refl Hm Hs).
Defined.

Lemma handler_status_witness :
  value_of (CleanCategories scripted "me" ["CATEGORY_PROMOTIONS"; "TRASH"] 10
              promotionsThenTrashScript) = Ok promotionsThenTrashSummary /\
  value_of (handler.Clean scripted (Ok promotionsAndTrash) promotionsThenTrashScript)
  = {| handler.status := 200;
       handler.body := handler.Response
         {| handler.Deleted := <["TRASH" := 1]> {[ "CATEGORY_PROMOTIONS" := 2 ]};
            handler.TotalDeleted := 3;
            handler.Completed := true;
            handler.CompletionReason := "all categories processed" |} |} /\
  noFailure (trace_of (handler.Clean scripted (Ok promotionsAndTrash)
                         promotionsThenTrashScript)) /\
  value_of (CleanCategories scripted "me" ["CATEGORY_UPDATES"; "TRASH"] 10
              secondTrashFails) = Err secondTrashFailsError /\
  handler.status (value_of (handler.Clean scripted (Ok updatesAndTrash) secondTrashFails))
  = 401 /\
  value_of (handler.Clean scripted (Err "EOF") emptyMailbox)
  = {| handler.status := 400; handler.body := handler.H {[ "error" := "EOF" ]} |} /\
  trace_of (handler.Clean scripted (Err "EOF") emptyMailbox) = [].
Proof.
  assert (Hs : value_of (CleanCategories scripted "me" ["CATEGORY_PROMOTIONS"; "TRASH"]
                           10 promotionsThenTrashScript) = Ok promotionsThenTrashSummary)
    by (vm_compute; reflexivity).
  assert (He : value_of (CleanCategories scripted "me" ["CATEGORY_UPDATES"; "TRASH"] 10
                           secondTrashFails) = Err secondTrashFailsError)
    by (vm_compute; reflexivity).
  destruct (handler_status scripted (Ok promotionsAndTrash) promotionsThenTrashScript)
    as [_ Hok].
  destruct (handler_status scripted (Ok updatesAndTrash) secondTrashFails) as [_ Hfail].
  destruct (handler_status scripted (Err "EOF") emptyMailbox) as [Hbad _].
  destruct (Hok promotionsAndTrash eq_refl) as (_ & _ & Hiff & _ & _ & Hbody & _).
  destruct (Hfail updatesAndTrash eq_refl) as (_ & _ & _ & _ & _ & _ & Herr).
  destruct (Hbad "EOF" eq_refl) as (H400 & Ht & _).
  destruct (Hbody _ Hs) as [Hv _].
  split; [exact Hs|]. split; [exact Hv|].
  split; [apply Hiff; rewrite Hv; reflexivity|].
  split; [exact He|]. split; [exact (proj1 (Herr _ He))|].
  split; [exact H400|exact Ht].
Defined.

Lemma oauth_config_complete_witness :
  Forall (fun k => exists v, oauthEnv !! k = Some v /\ v <> "")
    ["GOOGLE_CLIENT_ID"; "GOOGLE_CLIENT_SECRET"; "GOOGLE_REDIRECT_URL"] /\
  exists conf,
    auth.NewGoogleOAuth2Config tt oauthEnv = Ok conf /\
    oauthEnv !! "GOOGLE_CLIENT_ID" = Some (auth.ClientID conf) /\
    auth.Scopes conf = ["https://mail.google.com/"; "openid"; "email"; "profile"].
Proof.
  assert (Hset : Forall (fun k => exists v, oauthEnv !! k = Some v /\ v <> "")
            ["GOOGLE_CLIENT_ID"; "GOOGLE_CLIENT_SECRET"; "GOOGLE_REDIRECT_URL"])
    by (repeat constructor; eexists; (split; [vm_compute; reflexivity|discriminate])).
  destruct (oauth_config_complete tt oauthEnv) as ([_ Hiff] & Hfields & _).
  destruct (Hiff Hset) as [conf Hconf].
  destruct (Hfields conf Hconf) as (Hid & _ & _ & Hscopes).
  split; [exact Hset|]. exists conf. split; [exact Hconf|]. split; assumption.
Defined.

Lemma clean_route_guards_witness :
  main.cleanRoute tt scriptedService oauthEnv "" (Ok unlimitedTrash) emptyMailbox
  = (emptyMailbox, [],
     {| handler.status := 401;
        handler.body := handler.H
          (<[ "error" := "missing X-Access-Token" ]>
           (<[ "message" := "Please re-authenticate with your Gmail account" ]>
            {[ "action" := "reauth_required" ]})) |}) /\
  trace_of (main.cleanRoute tt scriptedService oauthEnv "ya29.token"
              (Ok unlimitedTrash) emptyMailbox) <> [] /\
  main.cleanRoute tt scriptedService oauthEnv "ya29.token" (Ok unlimitedTrash) emptyMailbox
  = handler.Clean scripted (Ok unlimitedTrash) emptyMailbox.
Proof.
  destruct (clean_route_guards tt scriptedService oauthEnv "" (Ok unlimitedTrash)
              emptyMailbox) as (Hmiss & _).
  destruct (clean_route_guards tt scriptedService oauthEnv "ya29.token"
              (Ok unlimitedTrash) emptyMailbox) as (_ & _ & _ & Hclean).
  split; [exact (Hmiss eq_refl)|]. split; [vm_compute; discriminate|].
  eapply Hclean; [discriminate|vm_compute; reflexivity|reflexivity].
Defined.

Lemma logger_failed_init_sticks_witness :
  logger.NewLogger brokenBuild None = Err "no such sink" /\
  (logger.InitLogger brokenBuild None logger.start).2 = Some "no such sink" /\
  (logger.L brokenBuild (Some tt) ∅
     (foldl (logger.call brokenBuild (Some tt))
        (logger.InitLogger brokenBuild None logger.start).1
        [logger.CallL ∅; logger.CallInit None])).2 = None.
Proof.
  assert (Hn : logger.NewLogger brokenBuild None = Err "no such sink") by reflexivity.
  destruct (logger_failed_init_sticks brokenBuild (Some tt) None "no such sink"
              [logger.CallL ∅; logger.CallInit None] ∅ None Hn) as (He & Hl & _).
  split; [exact Hn|]. split; [exact He|exact Hl].
Defined.

End MoreScenarios.

(** ** The metrics collector *)

Section MetricsFacts.

Lemma wrap64_small z : - 2 ^ 63 <= z < 2 ^ 63 -> middleware.wrap64 z = z.
Proof.
  intros H. unfold middleware.wrap64. rewrite Z.mod_small; lia.
Qed.

Lemma wrap64_succ z : middleware.wrap64 (middleware.wrap64 z + 1) = middleware.wrap64 (z + 1).
Proof.
  unfold middleware.wrap64. f_equal.
  replace ((z + 2 ^ 63) mod 2 ^ 64 - 2 ^ 63 + 1 + 2 ^ 63)
    with ((z + 2 ^ 63) mod 2 ^ 64 + 1) by lia.
  rewrite Z.add_mod_idemp_l by lia. f_equal. lia.
Qed.

Lemma wrap64_moves z : middleware.wrap64 (z + 1) <> z.
Proof.
  unfold middleware.wrap64. intros H.
  pose proof (Z.div_mod (z + 1 + 2 ^ 63) (2 ^ 64) ltac:(lia)) as Hd.
  pose proof (Z.mod_pos_bound (z + 1 + 2 ^ 63) (2 ^ 64) ltac:(lia)) as Hb.
  change (2 ^ 64) with 18446744073709551616 in *.
  change (2 ^ 63) with 9223372036854775808 in *. lia.
Qed.

Lemma countOf_snoc p cs c :
  countOf p (cs ++ [c]) = countOf p cs + (if p c then 1 else 0).
Proof.
  unfold countOf. rewrite List.filter_app, length_app. cbn [List.filter].
  destruct (p c); cbn [length]; lia.
Qed.

Lemma countOf_bounds p cs : 0 <= countOf p cs <= Z.of_nat (length cs).
Proof.
  unfold countOf. pose proof (List.filter_length_le p cs). lia.
Qed.

Lemma countOf_and p q cs : countOf (fun c => p c && q c) cs <= countOf p cs.
Proof.
  induction cs as [|c cs IH] using rev_ind; [reflexivity|].
  rewrite !countOf_snoc. destruct (p c), (q c); cbn [andb]; lia.
Qed.

Lemma recorded_snoc start cs c :
  middleware.recorded start (cs ++ [c])
  = middleware.record (middleware.recorded start cs) c.
Proof.
  unfold middleware.recorded. now rewrite foldl_app.
Qed.

Lemma counter_step (m : option Z) n :
  0 <= n -> m = option_map middleware.wrap64 (counter n) ->
  Some (middleware.wrap64 (default 0 m + 1))
  = option_map middleware.wrap64 (counter (n + 1)).
Proof.
  intros Hn ->. unfold counter.
  destruct (Z.eqb_spec (n + 1) 0) as [|_]; [lia|].
  destruct (Z.eqb_spec n 0) as [->|_]; cbn [option_map from_option id]; [reflexivity|].
  now rewrite wrap64_succ.
Qed.

Lemma recorded_totals start cs :
  let m := middleware.recorded start cs in
  middleware.TotalRequests m = middleware.wrap64 (Z.of_nat (length cs)) /\
  middleware.TotalErrors m = middleware.wrap64 (countOf failed cs) /\
  middleware.ActiveConnections m = 0 /\
  middleware.StartTime m = start.
Proof.
  induction cs as [|c cs IH] using rev_ind; [now cbn|].
  cbv zeta in *. destruct IH as (Ht & He & Ha & Hs).
  rewrite recorded_snoc. unfold middleware.record, middleware.recordRequest.
  cbn [middleware.TotalRequests middleware.TotalErrors middleware.ActiveConnections
       middleware.StartTime].
  rewrite Ht, He, Ha, Hs, wrap64_succ, length_app, countOf_snoc. cbn [length].
  change (failed c) with (400 <=? middleware.callStatus c).
  split; [f_equal; lia|]. split; [|now split].
  destruct (400 <=? middleware.callStatus c);
    [now rewrite wrap64_succ|now rewrite Z.add_0_r].
Qed.

Lemma recorded_requestCount start cs e :
  middleware.RequestCount (middleware.recorded start cs) !! e
  = option_map middleware.wrap64 (counter (countOf (toEndpoint e) cs)).
Proof.
  induction cs as [|c cs IH] using rev_ind; [reflexivity|].
  rewrite recorded_snoc. unfold middleware.record, middleware.recordRequest.
  cbn [middleware.RequestCount]. rewrite countOf_snoc.
  change (toEndpoint e c) with (String.eqb (middleware.callEndpoint c) e).
  destruct (String.eqb_spec (middleware.callEndpoint c) e) as [->|Hne].
  - rewrite lookup_insert_eq. apply counter_step; [apply countOf_bounds|exact IH].
  - rewrite lookup_insert_ne by exact Hne. now rewrite Z.add_0_r.
Qed.

Lemma recorded_statusCodeCount start cs s :
  middleware.StatusCodeCount (middleware.recorded start cs) !! s
  = option_map middleware.wrap64 (counter (countOf (withStatus s) cs)).
Proof.
  induction cs as [|c cs IH] using rev_ind; [reflexivity|].
  rewrite recorded_snoc. unfold middleware.record, middleware.recordRequest.
  cbn [middleware.StatusCodeCount]. rewrite countOf_snoc.
  change (withStatus s c) with (middleware.callStatus c =? s).
  destruct (Z.eqb_spec (middleware.callStatus c) s) as [->|Hne].
  - rewrite lookup_insert_eq. apply counter_step; [apply countOf_bounds|exact IH].
  - rewrite lookup_insert_ne by exact Hne. now rewrite Z.add_0_r.
Qed.

Lemma recorded_endpointMetrics start cs e :
  match middleware.EndpointMetricsMap (middleware.recorded start cs) !! e with
  | None => countOf (toEndpoint e) cs = 0
  | Some em =>
      0 < countOf (toEndpoint e) cs /\
      middleware.Count em = middleware.wrap64 (countOf (toEndpoint e) cs) /\
      middleware.ErrorCount em = middleware.wrap64 (countOf (failedAt e) cs) /\
      exists c, last (List.filter (toEndpoint e) cs) = Some c /\
                middleware.LastAccessed em = middleware.callTime c
  end.
Proof.
  induction cs as [|c cs IH] using rev_ind; [reflexivity|].
  rewrite recorded_snoc. unfold middleware.record, middleware.recordRequest.
  cbn [middleware.EndpointMetricsMap].
  rewrite !countOf_snoc, List.filter_app. cbn [List.filter].
  change (failedAt e c) with (toEndpoint e c && failed c).
  change (toEndpoint e c) with (String.eqb (middleware.callEndpoint c) e).
  change (failed c) with (400 <=? middleware.callStatus c).
  pose proof (countOf_bounds (toEndpoint e) cs) as Hb.
  destruct (String.eqb_spec (middleware.callEndpoint c) e) as [->|Hne].
  - rewrite lookup_insert_eq. cbn [middleware.Count middleware.ErrorCount
      middleware.LastAccessed andb].
    split; [lia|].
    destruct (middleware.EndpointMetricsMap (middleware.recorded start cs) !! e)
      as [em|].
    + destruct IH as (_ & Hc & He & _). cbn [from_option id].
      rewrite Hc, He, wrap64_succ. split; [reflexivity|].
      split; [|exists c; now rewrite last_snoc].
      destruct (400 <=? middleware.callStatus c);
        [now rewrite wrap64_succ|now rewrite Z.add_0_r].
    + cbn [from_option id middleware.Count middleware.ErrorCount]. rewrite IH.
      assert (Hf : countOf (failedAt e) cs = 0).
      { pose proof (countOf_and (toEndpoint e) failed cs).
        pose proof (countOf_bounds (failedAt e) cs).
        unfold failedAt in *. lia. }
      rewrite Hf. split; [reflexivity|].
      split; [|exists c; now rewrite last_snoc].
      destruct (400 <=? middleware.callStatus c); [reflexivity|].
      symmetry. now apply wrap64_small.
  - rewrite lookup_insert_ne by exact Hne. cbn [andb]. rewrite !Z.add_0_r, app_nil_r.
    exact IH.
Qed.

Lemma lastN_snoc {A : Type} (n : nat) (l : list A) (x : A) :
  (1 <= n)%nat -> lastN n (lastN n l ++ [x]) = lastN n (l ++ [x]).
Proof.
  intros Hn. unfold lastN. rewrite !length_app, length_drop. cbn [length].
  rewrite !drop_app, length_drop, drop_drop.
  destruct (Nat.le_gt_cases (length l) n) as [Hle|Hgt].
  - replace (length l - n)%nat with 0%nat by lia. cbn [drop].
    now rewrite Nat.sub_0_r.
  - replace (length l - (length l - n) + 1 - n)%nat with 1%nat by lia.
    replace (length l - n + 1)%nat with (length l + 1 - n)%nat by lia.
    replace (1 - (length l - (length l - n)))%nat with 0%nat by lia.
    replace (length l + 1 - n - length l)%nat with 0%nat by lia.
    reflexivity.
Qed.

Lemma lastN_nil {A : Type} (n : nat) : lastN n (@nil A) = [].
Proof. reflexivity. Qed.

Lemma kept_lastN (ds : list float) :
  (if (1000 <? length ds)%nat then drop (length ds - 1000) ds else ds) = lastN 1000 ds.
Proof.
  unfold lastN. destruct (Nat.ltb_spec 1000 (length ds)) as [_|Hle]; [reflexivity|].
  now replace (length ds - 1000)%nat with 0%nat by lia.
Qed.

Lemma recorded_requestDuration start cs e :
  middleware.RequestDuration (middleware.recorded start cs) !! e
  = window (durationsTo e cs).
Proof.
  induction cs as [|c cs IH] using rev_ind; [reflexivity|].
  rewrite recorded_snoc. unfold middleware.record, middleware.recordRequest.
  cbn [middleware.RequestDuration]. rewrite kept_lastN.
  unfold durationsTo in *. rewrite List.filter_app, map_app. cbn [List.filter].
  change (toEndpoint e c) with (String.eqb (middleware.callEndpoint c) e).
  destruct (String.eqb_spec (middleware.callEndpoint c) e) as [->|Hne].
  - rewrite lookup_insert_eq, IH. cbn [map].
    set (ds := map middleware.callDuration _).
    assert (Hw : default [] (window ds) = lastN 1000 ds)
      by (unfold window; now destruct ds).
    rewrite Hw, lastN_snoc by lia. unfold window.
    destruct (ds ++ [middleware.callDuration c]) eqn:Happ; [|reflexivity].
    now destruct ds.
  - rewrite lookup_insert_ne by exact Hne. cbn [map]. now rewrite app_nil_r.
Qed.

(** X20.  As long as fewer than 2^63 requests have been recorded, the
    counters of the collector are exact: TotalRequests is the number
    of requests recorded, TotalErrors the number of those with a
    status of 400 or more, RequestCount and StatusCodeCount hold for
    every endpoint and every status the number of requests with it,
    and no entry for one that never occurred; recording changes
    neither ActiveConnections nor StartTime. *)
Theorem metrics_counters (start : middleware.Time) (cs : list middleware.Call) :
  Z.of_nat (length cs) < 2 ^ 63 ->
  let m := middleware.recorded start cs in
  middleware.TotalRequests m = Z.of_nat (length cs) /\
  middleware.TotalErrors m = countOf failed cs /\
  (forall e, middleware.RequestCount m !! e = counter (countOf (toEndpoint e) cs)) /\
  (forall s, middleware.StatusCodeCount m !! s = counter (countOf (withStatus s) cs)) /\
  middleware.ActiveConnections m = 0 /\
  middleware.StartTime m = start.
Proof.
  intros Hn m. subst m.
  destruct (recorded_totals start cs) as (Ht & He & Ha & Hs). cbv zeta in *.
  assert (Hw : forall p, option_map middleware.wrap64 (counter (countOf p cs))
                         = counter (countOf p cs)).
  { intros p. pose proof (countOf_bounds p cs). unfold counter.
    destruct (countOf p cs =? 0); [reflexivity|]. cbn [option_map].
    rewrite wrap64_small; [reflexivity|lia]. }
  pose proof (countOf_bounds failed cs).
  rewrite Ht, He, !wrap64_small by lia.
  split; [reflexivity|]. split; [reflexivity|].
  split; [intros e; now rewrite recorded_requestCount, Hw|].
  split; [intros s; now rewrite recorded_statusCodeCount, Hw|].
  now split.
Qed.

(** X21.  As long as fewer than 2^63 requests have been recorded, the
    per-endpoint metrics agree with the counters: an endpoint has
    metrics exactly when it has a request count, their Count is that
    request count, their ErrorCount is the number of its requests with
    a status of 400 or more and never exceeds the Count, and
    LastAccessed is the time of the last request to the endpoint. *)
Theorem endpoint_metrics_agree (start : middleware.Time) (cs : list middleware.Call)
    (e : string) :
  Z.of_nat (length cs) < 2 ^ 63 ->
  let m := middleware.recorded start cs in
  match middleware.EndpointMetricsMap m !! e with
  | None => middleware.RequestCount m !! e = None /\
            middleware.RequestDuration m !! e = None
  | Some em =>
      middleware.RequestCount m !! e = Some (middleware.Count em) /\
      middleware.ErrorCount em = countOf (failedAt e) cs /\
      0 <= middleware.ErrorCount em <= middleware.Count em /\
      exists c, last (List.filter (toEndpoint e) cs) = Some c /\
                middleware.LastAccessed em = middleware.callTime c
  end.
Proof.
  intros Hn m. subst m.
  pose proof (recorded_endpointMetrics start cs e) as Hm.
  pose proof (countOf_bounds (toEndpoint e) cs) as Hb.
  pose proof (countOf_bounds (failedAt e) cs) as Hf.
  pose proof (countOf_and (toEndpoint e) failed cs) as Hle.
  fold (failedAt e) in Hle.
  rewrite recorded_requestCount, recorded_requestDuration.
  destruct (middleware.EndpointMetricsMap (middleware.recorded start cs) !! e) as [em|].
  - destruct Hm as (Hpos & Hc & He & Hl).
    rewrite wrap64_small in Hc by lia. rewrite wrap64_small in He by lia.
    rewrite Hc, He. unfold counter.
    destruct (Z.eqb_spec (countOf (toEndpoint e) cs) 0) as [|_]; [lia|].
    cbn [option_map]. rewrite wrap64_small by lia.
    split; [reflexivity|]. split; [reflexivity|]. split; [lia|exact Hl].
  - rewrite Hm. split; [reflexivity|].
    unfold durationsTo, countOf in *.
    destruct (List.filter (toEndpoint e) cs); [reflexivity|]. cbn [length] in Hm. lia.
Qed.

(** X22.  The durations kept for an endpoint are the durations of the
    last 1000 requests recorded for it, oldest first, and all of them
    while there are fewer; an endpoint never requested has no entry.
    So no list of durations is empty or longer than 1000, and the
    copy that GetMetrics returns holds none of them. *)
Theorem durations_window (start : middleware.Time) (cs : list middleware.Call)
    (e : string) :
  let m := middleware.recorded start cs in
  middleware.RequestDuration m !! e = window (durationsTo e cs) /\
  (forall ds, middleware.RequestDuration m !! e = Some ds ->
     (1 <= length ds <= 1000)%nat /\
     length ds = Nat.min (length (durationsTo e cs)) 1000) /\
  middleware.RequestDuration (middleware.GetMetrics m) !! e = None.
Proof.
  intros m. subst m. rewrite recorded_requestDuration.
  split; [reflexivity|]. split; [|reflexivity].
  intros ds. unfold window.
  destruct (durationsTo e cs) as [|d l] eqn:Hd; [discriminate|].
  intros [= <-]. unfold lastN. rewrite length_drop. cbn [length]. lia.
Qed.

(** X23.  The ways the middleware tell a failed request from a good
    one agree: recordRequest counts a request as an error exactly when
    its status is 400 or more, which is when analyzePerformance flags
    it, when it is logged at a level other than info and when its
    category is client_error or server_error; the level is error
    exactly for server_error and warn exactly for client_error.  A
    request that analyzePerformance calls slow is in the category
    very_slow. *)
Theorem status_classes_agree (now : middleware.Time)
    (ranged : list (string * list float) -> list (string * list float))
    (endpoint : string) (durationMs : float) (duration : middleware.Duration)
    (statusCode responseSize : Z) (m : middleware.MetricsCollector) :
  let level := middleware.getLogLevelForStatus statusCode in
  let category := middleware.getStatusCategory statusCode in
  let after := middleware.recordRequest now ranged endpoint durationMs statusCode m in
  let data := middleware.analyzePerformance duration statusCode responseSize in
  (middleware.TotalErrors after <> middleware.TotalErrors m <-> 400 <= statusCode) /\
  (middleware.IsError data = true <-> 400 <= statusCode) /\
  (level <> "info" <-> 400 <= statusCode) /\
  (category = "client_error" \/ category = "server_error" <-> 400 <= statusCode) /\
  (level = "error" <-> category = "server_error") /\
  (level = "warn" <-> category = "client_error") /\
  (middleware.IsSlow data = true -> middleware.Category data = "very_slow").
Proof.
  intros level category after data. subst level category after data.
  unfold middleware.recordRequest, middleware.analyzePerformance,
    middleware.getLogLevelForStatus, middleware.getStatusCategory,
    middleware.getPerformanceCategory, middleware.Millisecond, middleware.Second.
  cbn [middleware.TotalErrors middleware.IsError middleware.IsSlow middleware.Category].
  pose proof (wrap64_moves (middleware.TotalErrors m)) as Hw.
  destruct (Z.leb_spec 500 statusCode), (Z.leb_spec 400 statusCode),
    (Z.leb_spec 300 statusCode), (Z.leb_spec 200 statusCode),
    (Z.ltb_spec statusCode 500), (Z.ltb_spec statusCode 400),
    (Z.ltb_spec statusCode 300); try lia; cbn [andb];
    (repeat split; try (intros; lia); try (intros; congruence);
     try (intros; discriminate); try (intros [?|?]; discriminate);
     try (intros; exfalso; lia); try (intros; now left); try (intros; now right));
    try (intros Hs; apply Z.ltb_lt in Hs;
         destruct (Z.ltb_spec duration (100 * 1000000)),
           (Z.ltb_spec duration (500 * 1000000)),
           (Z.ltb_spec duration (2 * 1000000000)); (reflexivity || lia)).
Qed.

End MetricsFacts.

(** ** The exchange of an authorization code *)

Section AuthFlow.
Context {E B : Type}.
Context (Exchange : auth.Config E -> string -> outcome auth.Token)
        (Do : auth.Request -> outcome (auth.Response B))
        (Decode : B -> outcome auth.UserInfo).

Lemma GetUserInfo_request (token : auth.Token) :
  auth.GetUserInfo None Do Decode token
  = match Do (userInfoRequest token) with
    | Err err => ([auth.Sent (userInfoRequest token)], Err ("making request: " +:+ err))
    | Ok resp =>
        if negb (auth.StatusCode resp =? 200)
        then ([auth.Sent (userInfoRequest token)],
              Err ("unexpected status code: " +:+ pretty (auth.StatusCode resp)))
        else
          match Decode (auth.Body resp) with
          | Err err => ([auth.Sent (userInfoRequest token)],
                        Err ("decoding response: " +:+ err))
          | Ok userInfo => ([auth.Sent (userInfoRequest token)], Ok userInfo)
          end
    end.
Proof.
  unfold auth.GetUserInfo, auth.NewRequestWithContext, userInfoRequest.
  cbn [auth.Method auth.URL auth.Header]. unfold auth.GoogleUserInfoAPI.
  now rewrite insert_empty.
Qed.

Lemma GetUserInfo_refused (token : auth.Token) (err : error) :
  auth.GetUserInfo (Some err) Do Decode token
  = ([], Err ("creating request: " +:+ err)).
Proof. reflexivity. Qed.

(** X24.  ExchangeCodeWithUserInfo returns tokens only together with
    the user's data: a result means that the code was exchanged, that
    one GET request went to the user-info address with the new access
    token as Bearer authorization, that the answer had status 200 and
    that its body was decoded; the result carries the token's three
    texts, and as ExpiresIn the expiry time itself.  When the exchange
    fails no request is sent and the error starts with "exchanging
    code: "; any other failure starts with "getting user info: ", and
    a status other than 200 is named in it.  Nothing else goes over
    the network. *)
Theorem code_exchange_outcome (refused : option error) (conf : auth.Config E)
    (code : string) :
  let run := auth.ExchangeCodeWithUserInfo Exchange refused Do Decode conf code in
  (forall resp, run.2 = Ok resp ->
     exists token body,
       Exchange conf code = Ok token /\
       run.1 = [auth.Exchanged code; auth.Sent (userInfoRequest token)] /\
       Do (userInfoRequest token)
       = Ok {| auth.StatusCode := 200; auth.Body := body |} /\
       Decode body = Ok (auth.AuthResponse.UserInfo resp) /\
       auth.AuthResponse.AccessToken resp = auth.AccessToken token /\
       auth.AuthResponse.RefreshToken resp = auth.RefreshToken token /\
       auth.AuthResponse.TokenType resp = auth.TokenType token /\
       auth.AuthResponse.ExpiresIn resp = auth.Expiry token) /\
  (forall err, Exchange conf code = Err err ->
     run = ([auth.Exchanged code], Err ("exchanging code: " +:+ err))) /\
  (forall token resp,
     Exchange conf code = Ok token -> refused = None ->
     Do (userInfoRequest token) = Ok resp -> auth.StatusCode resp <> 200 ->
     run = ([auth.Exchanged code; auth.Sent (userInfoRequest token)],
            Err ("getting user info: unexpected status code: "
                 +:+ pretty (auth.StatusCode resp)))) /\
  (forall err, run.2 = Err err ->
     (exists e, Exchange conf code = Err e /\ err = "exchanging code: " +:+ e) \/
     (exists e, err = "getting user info: " +:+ e)) /\
  (run.1 = [auth.Exchanged code] \/
   exists token, Exchange conf code = Ok token /\
     run.1 = [auth.Exchanged code; auth.Sent (userInfoRequest token)]).
Proof.
  intros run. subst run. unfold auth.ExchangeCodeWithUserInfo.
  destruct (Exchange conf code) as [token|e].
  2:{ split; [discriminate|]. split; [now intros err [= <-]|].
      split; [discriminate|]. split; [|now left].
      intros err [= <-]. left. now exists e. }
  destruct refused as [r|].
  { rewrite (GetUserInfo_refused token r). cbn [fst snd].
    split; [discriminate|]. split; [discriminate|]. split; [discriminate|].
    split; [|now left]. intros err [= <-]. right. now eexists. }
  rewrite (GetUserInfo_request token).
  destruct (Do (userInfoRequest token)) as [[status body]|e] eqn:Hdo.
  2:{ cbn [fst snd]. split; [discriminate|]. split; [discriminate|].
      split; [intros t resp [= <-] _ Hd; rewrite Hdo in Hd; discriminate|].
      split; [|right; now exists token].
      intros err [= <-]. right. now eexists. }
  cbn [auth.StatusCode auth.Body].
  destruct (Z.eqb_spec status 200) as [->|Hs]; cbn [negb].
  - destruct (Decode body) as [info|e] eqn:Hdec; cbn [fst snd].
    + split.
      { intros resp [= <-]. exists token, body.
        cbn [auth.AuthResponse.UserInfo auth.AuthResponse.AccessToken
             auth.AuthResponse.RefreshToken auth.AuthResponse.TokenType
             auth.AuthResponse.ExpiresIn].
        repeat (split; [reflexivity || assumption|]). reflexivity. }
      split; [discriminate|].
      split; [intros t resp [= <-] _ Hd Hne; rewrite Hdo in Hd;
              injection Hd as <-; now contradiction Hne|].
      split; [discriminate|]. right. now exists token.
    + split; [discriminate|]. split; [discriminate|].
      split; [intros t resp [= <-] _ Hd Hne; rewrite Hdo in Hd;
              injection Hd as <-; now contradiction Hne|].
      split; [|right; now exists token].
      intros err [= <-]. right. now eexists.
  - cbn [fst snd]. split; [discriminate|]. split; [discriminate|].
    split; [intros t resp [= <-] _ Hd _; rewrite Hdo in Hd;
            injection Hd as <-; reflexivity|].
    split; [|right; now exists token].
    intros err [= <-]. right. now eexists.
Qed.

End AuthFlow.

(** ** Batches that succeed *)

Section BatchSuccess.
Context {World : Type} (api : Api World).




End BatchSuccess.

Section MetricsScenarios.

Lemma metrics_counters_witness :
  Z.of_nat (length threeRequests) < 2 ^ 63 /\
  middleware.TotalRequests (middleware.recorded 0 threeRequests) = 3 /\
  middleware.TotalErrors (middleware.recorded 0 threeRequests) = 1 /\
  middleware.RequestCount (middleware.recorded 0 threeRequests) !! "POST /api/v1/clean"
  = Some 2 /\
  middleware.StatusCodeCount (middleware.recorded 0 threeRequests) !! 404 = None.
Proof.
  assert (Hn : Z.of_nat (length threeRequests) < 2 ^ 63) by (vm_compute; reflexivity).
  destruct (metrics_counters 0 threeRequests Hn) as (Ht & He & Hc & Hs & _).
  split; [exact Hn|]. split; [exact Ht|]. split; [exact He|].
  split; [exact (Hc "POST /api/v1/clean")|exact (Hs 404)].
Defined.

Lemma endpoint_metrics_agree_witness :
  Z.of_nat (length threeRequests) < 2 ^ 63 /\
  exists em,
    middleware.EndpointMetricsMap (middleware.recorded 0 threeRequests)
      !! "POST /api/v1/clean" = Some em /\
    middleware.RequestCount (middleware.recorded 0 threeRequests)
      !! "POST /api/v1/clean" = Some (middleware.Count em) /\
    middleware.ErrorCount em = 1 /\
    middleware.LastAccessed em = 20.
Proof.
  assert (Hn : Z.of_nat (length threeRequests) < 2 ^ 63) by (vm_compute; reflexivity).
  pose proof (endpoint_metrics_agree 0 threeRequests "POST /api/v1/clean" Hn) as H.
  cbv zeta in H.
  destruct (middleware.EndpointMetricsMap (middleware.recorded 0 threeRequests)
              !! "POST /api/v1/clean") as [em|] eqn:Hem; [|discriminate Hem].
  destruct H as (Hc & He & _ & c & Hl & Ha).
  split; [exact Hn|]. exists em. split; [reflexivity|]. split; [exact Hc|].
  split; [exact He|]. rewrite Ha. injection Hl as <-. reflexivity.
Defined.

Lemma durations_window_witness :
  middleware.RequestDuration (middleware.recorded 0 threeRequests) !! "POST /api/v1/clean"
  = Some [12.5%float; 7%float] /\
  (1 <= length [12.5%float; 7%float] <= 1000)%nat.
Proof.
  destruct (durations_window 0 threeRequests "POST /api/v1/clean") as (Hw & Hl & _).
  split; [exact Hw|]. exact (proj1 (Hl _ Hw)).
Defined.

Lemma status_classes_agree_witness :
  middleware.IsSlow (middleware.analyzePerformance 6000000000 401 120) = true /\
  middleware.Category (middleware.analyzePerformance 6000000000 401 120) = "very_slow" /\
  middleware.getLogLevelForStatus 401 = "warn" /\
  middleware.getStatusCategory 401 = "client_error".
Proof.
  destruct (status_classes_agree 0 id "GET /info" 6000%float 6000000000 401 120
              (middleware.globalMetrics 0)) as (_ & _ & _ & _ & _ & Hw & Hs).
  assert (Hslow : middleware.IsSlow (middleware.analyzePerformance 6000000000 401 120)
                  = true) by reflexivity.
  assert (Hl : middleware.getLogLevelForStatus 401 = "warn") by reflexivity.
  split; [exact Hslow|]. split; [exact (Hs Hslow)|]. split; [exact Hl|].
  exact (proj1 Hw Hl).
Defined.

End MetricsScenarios.

Section AuthScenarios.

Lemma code_exchange_outcome_witness :
  (auth.ExchangeCodeWithUserInfo exchangeOk None (answers 200) decodeOk someConfig "good").1
  = [auth.Exchanged "good"; auth.Sent (userInfoRequest grantedToken)] /\
  (auth.ExchangeCodeWithUserInfo exchangeOk None (answers 503) decodeOk someConfig "good")
  = ([auth.Exchanged "good"; auth.Sent (userInfoRequest grantedToken)],
     Err "getting user info: unexpected status code: 503") /\
  (auth.ExchangeCodeWithUserInfo exchangeOk None (answers 200) decodeOk someConfig "bad")
  = ([auth.Exchanged "bad"], Err "exchanging code: oauth2: cannot fetch token").
Proof.
  destruct (code_exchange_outcome exchangeOk (answers 200) decodeOk None someConfig "good")
    as (Hok & _).
  destruct (code_exchange_outcome exchangeOk (answers 503) decodeOk None someConfig "good")
    as (_ & _ & H503 & _).
  destruct (code_exchange_outcome exchangeOk (answers 200) decodeOk None someConfig "bad")
    as (_ & Hbad & _).
  destruct (Hok _ eq_refl) as (token & body & Ht & Hcalls & _).
  injection Ht as <-.
  split; [exact Hcalls|]. split.
  - apply (H503 grantedToken {| auth.StatusCode := 503; auth.Body := "{...}" |});
      [reflexivity|reflexivity|reflexivity|discriminate].
  - exact (Hbad _ eq_refl).
Defined.

End AuthScenarios.

Section BatchScenarios.


End BatchScenarios.
